(** * ecs_exporter: the metadata client and the metric collector

    A shallow embedding of [ecsmetadata/client.go] and of the collector
    ([ecscollector]), and the properties of the collection protocol.

    Conventions of the embedding:
    - Go's [uint64] and [int64] are [Z], with wrap-around or saturation
      written where the program computes; [float64] is Rocq's primitive
      binary64 float.
    - a [[]string] slice is a pointer into a store of backing arrays with a
      length and a capacity, so that two slices made by [append] from the
      same slice can share memory as they do in Go;
    - the order in which [range] visits a map is an input of the run;
    - a panic is an explicit outcome. *)

From Stdlib Require Import ZArith String Ascii List DecimalString.
From Stdlib Require Import PrimFloat SpecFloat FloatOps.
From stdpp Require Import base option list gmap strings.

Local Open Scope string_scope.
Local Open Scope list_scope.
Local Open Scope nat_scope.

(* ================================================================== *)
(** * Go: numbers, time, strings and slices                            *)
(* ================================================================== *)

Module Go.

(** [x - y] on [uint64]. *)
Definition uint64_sub (x y : Z) : Z := ((x - y) mod 2 ^ 64)%Z.

(** The conversion [float64(n)] of an integer: the nearest binary64,
    ties to even. *)
Definition float64 (n : Z) : float :=
  SF2Prim (binary_normalize prec emax n 0 false).

(** [time.Time] as the number of nanoseconds since the zero [Time]
    (January 1, year 1, 00:00:00 UTC). *)
Definition Time : Type := Z.
Definition zeroTime : Time := 0%Z.

Definition minDuration : Z := (- 2 ^ 63)%Z.
Definition maxDuration : Z := (2 ^ 63 - 1)%Z.

(** [t.Sub(u).Nanoseconds()]: the difference as an [int64] count of
    nanoseconds, saturated at the least and the greatest [Duration]. *)
Definition Sub (t u : Time) : Z :=
  let d := (t - u)%Z in
  if (d <? minDuration)%Z then minDuration
  else if (maxDuration <? d)%Z then maxDuration
  else d.

(** [fmt.Sprintf("%d", i)] for a slice index. *)
Definition Sprintf_d (i : nat) : string :=
  NilEmpty.string_of_uint (Nat.to_uint i).

(** [strings.Split(s, sep)] at a one-byte separator, the only way the
    program calls it: the first field and the fields after it. *)
Fixpoint fields (sep : ascii) (s : string) : string * list string :=
  match s with
  | EmptyString => (EmptyString, [])
  | String c s' =>
      let (x, xs) := fields sep s' in
      if Ascii.eqb c sep then (EmptyString, x :: xs) else (String c x, xs)
  end.

Definition Split (s : string) (sep : ascii) : list string :=
  let (x, xs) := fields sep s in x :: xs.

(** [strings.Contains] and [strings.HasSuffix] at one byte. *)
Fixpoint contains (s : string) (c : ascii) : bool :=
  match s with
  | EmptyString => false
  | String d s' => Ascii.eqb d c || contains s' c
  end.

Fixpoint ends_with (s : string) (c : ascii) : bool :=
  match s with
  | EmptyString => false
  | String d EmptyString => Ascii.eqb d c
  | String _ s' => ends_with s' c
  end.

(** [utf8.ValidString]: a string is a sequence of well-formed UTF-8
    encodings; overlong forms, surrogates and code points above
    U+10FFFF are not well formed. *)
Definition between (lo hi : N) (c : ascii) : bool :=
  ((lo <=? N_of_ascii c) && (N_of_ascii c <=? hi))%N.

Definition continuation (c : ascii) : bool := between 128 191 c.

Fixpoint ValidString (s : string) : bool :=
  match s with
  | EmptyString => true
  | String c s1 =>
      if between 0 127 c then ValidString s1
      else if between 194 223 c then
        match s1 with
        | String c1 s2 => continuation c1 && ValidString s2
        | _ => false
        end
      else if between 224 239 c then
        match s1 with
        | String c1 (String c2 s3) =>
            (if between 224 224 c then between 160 191 c1
             else if between 237 237 c then between 128 159 c1
             else continuation c1)
            && continuation c2 && ValidString s3
        | _ => false
        end
      else if between 240 244 c then
        match s1 with
        | String c1 (String c2 (String c3 s4)) =>
            (if between 240 240 c then between 144 191 c1
             else if between 244 244 c then between 128 143 c1
             else continuation c1)
            && continuation c2 && continuation c3 && ValidString s4
        | _ => false
        end
      else false
  end.

(** ** Slices of strings *)

(** The store of backing arrays: array [p] is the [p]-th allocated.  An
    array keeps all its [cap] slots, also those past the length of the
    slices that point to it. *)
Abbreviation heap := (list (list string)).

Record slice : Type := Slice { ptr : nat; len : nat; cap : nat }.

(** The [nil] slice: no array, no capacity. *)
Definition nil : slice := Slice 0 0 0.

(** The elements a slice shows: the first [len] slots of its array. *)
Definition elems (h : heap) (s : slice) : list string :=
  take (len s) (default [] (h !! ptr s)).

(** A composite literal [[]string{x1, ..., xn}]: a new array, full. *)
Definition literal (xs : list string) (h : heap) : slice * heap :=
  (Slice (length h) (length xs) (length xs), h ++ [xs]).

(** Writing [xs] into array [p] from slot [i] on. *)
Definition store (p i : nat) (xs : list string) (h : heap) : heap :=
  alter (fun a => take i a ++ xs ++ drop (i + length xs) a) p h.

Section Append.
(** How much capacity the runtime gives a slice that must grow, from
    the length it needs and the capacity it had.  The language leaves
    it to the implementation. *)
Variable growcap : nat -> nat -> nat.

(** [append(s, xs...)]: in place, in the array of [s], when the
    capacity suffices; into a new array otherwise. *)
Definition append (s : slice) (xs : list string) (h : heap)
  : slice * heap :=
  let n := len s + length xs in
  if n <=? cap s then
    (Slice (ptr s) n (cap s), store (ptr s) (len s) xs h)
  else
    let c := growcap n (cap s) in
    (Slice (length h) n c,
     h ++ [elems h s ++ xs ++ replicate (c - n) EmptyString]).
End Append.

(** The growth formula of the gc runtime (the first part of [growslice]
    in [runtime/slice.go]). *)
Fixpoint grow_loop (fuel newcap newLen : nat) : nat :=
  match fuel with
  | 0 => newLen
  | S fuel' =>
      let newcap' := newcap + (newcap + 3 * 256) / 4 in
      if newLen <=? newcap' then newcap' else grow_loop fuel' newcap' newLen
  end.

Definition nextslicecap (newLen oldCap : nat) : nat :=
  let doublecap := oldCap + oldCap in
  if doublecap <? newLen then newLen
  else if oldCap <? 256 then doublecap
  else grow_loop newLen oldCap newLen.

(** The allocator rounds the block up to a size class
    ([runtime/sizeclasses.go]), and above the small sizes to whole
    pages ([roundupsize] in [runtime/msize.go]). *)
Definition class_to_size : list N :=
  [0; 8; 16; 24; 32; 48; 64; 80; 96; 112; 128; 144; 160; 176; 192; 208;
   224; 240; 256; 288; 320; 352; 384; 416; 448; 480; 512; 576; 640; 704;
   768; 896; 1024; 1152; 1280; 1408; 1536; 1792; 2048; 2304; 2688; 3072;
   3200; 3456; 4096; 4864; 5120; 5376; 6144; 6528; 6784; 6912; 8192;
   9472; 9728; 10240; 10880; 12288; 13568; 14336; 16384; 18432; 19072;
   20480; 21760; 24576; 27264; 28672; 32768]%N.

Definition roundupsize (size : N) : N :=
  if (size <? 32768)%N then
    default size (List.find (fun c => (size <=? c)%N) class_to_size)
  else ((size + 8191) / 8192 * 8192)%N.

(** [growslice] for a [[]string] on a 64-bit machine (16 bytes for a
    string): the capacity of the new array. *)
Definition growslice (newLen oldCap : nat) : nat :=
  let newcap := nextslicecap newLen oldCap in
  N.to_nat (roundupsize (N.of_nat newcap * 16) / 16).

End Go.

(* ================================================================== *)
(** * Package ecsmetadata                                              *)
(* ================================================================== *)

Module ecsmetadata.

Definition error : Type := string.

(** The parts of docker's [CPUStats] and [MemoryStats] that the
    exporter reads. *)
Record CPUUsage : Type := {
  TotalUsage : Z;                (* uint64 *)
  PercpuUsage : list Z;          (* []uint64 *)
}.

Record CPUStats : Type := {
  CPUUsage_ : CPUUsage;
  SystemUsage : Z;               (* uint64 *)
}.

Record MemoryStats : Type := {
  Usage : Z;                     (* uint64 *)
  Stats : gmap string Z;         (* map[string]uint64 *)
  Limit : Z;                     (* uint64 *)
}.

Record NetworkStats : Type := {
  RxBytes : float;
  RxPackets : float;
  RxErrors : float;
  RxDropped : float;
  TxBytes : float;
  TxPackets : float;
  TxErrors : float;
  TxDropped : float;
}.

Record NetworkRateStats : Type := {
  RxBytesPerSec : float;
  TxBytesPerSec : float;
}.

Record ContainerStats : Type := {
  cs_Name : string;
  cs_ID : string;
  NumProcs : float;
  Read : string;
  PreRead : string;
  CPUStats_ : CPUStats;
  PreCPUStats : CPUStats;
  MemoryStats_ : MemoryStats;
  Networks : gmap string NetworkStats;
  NetworkRateStats_ : NetworkRateStats;
}.

Record TaskMetadataLimits : Type := {
  CPU : float;
  Memory : float;
}.

Record ContainerNetwork : Type := {
  NetworkMode : string;
  IPv4Addresses : list string;
  IPv6Addresses : list string;
  AttachmentIndex : float;
  MACAddress : string;
  IPv4SubnetCIDRBlock : string;
  IPv6SubnetCIDRBlock : string;
  DomainNameServers : list string;
  DomainNameSearchList : list string;
  PrivateDNSName : string;
  SubnetGatewayIpv4Address : string;
}.

Record ClockDrift : Type := {
  ClockErrorBound : float;
  ReferenceTimestamp : string;
  ClockSynchronizationStatus : string;
}.

Record Container : Type := {
  DockerID : string;
  Name : string;
  DockerName : string;
  Image : string;
  ImageID : string;
  Labels : gmap string string;
  c_DesiredStatus : string;
  c_KnownStatus : string;
  CreatedAt : string;
  StartedAt : string;
  Type_ : string;
  c_Networks : list ContainerNetwork;
  ClockDrift_ : list ClockDrift;
  ContainerARN : string;
  LogDriver : string;
}.

Record TaskMetadata : Type := {
  Cluster : string;
  TaskARN : string;
  TaskID : string;
  Family : string;
  Revision : string;
  DesiredStatus : string;
  KnownStatus : string;
  Limits : TaskMetadataLimits;
  PullStartedAt : string;
  PullStoppedAt : string;
  AvailabilityZone : string;
  LaunchType : string;
  Containers : list Container;
}.

(** The zero value of [var out TaskMetadata]. *)
Definition zeroTaskMetadata : TaskMetadata :=
  {| Cluster := ""; TaskARN := ""; TaskID := ""; Family := "";
     Revision := ""; DesiredStatus := ""; KnownStatus := "";
     Limits := {| CPU := 0; Memory := 0 |};
     PullStartedAt := ""; PullStoppedAt := ""; AvailabilityZone := "";
     LaunchType := ""; Containers := [] |}.

(** The stats document: a map from Docker ID to a pointer that is [nil]
    when the document has [null] there. *)
Abbreviation TaskStats := (gmap string (option ContainerStats)).

(** [t.TaskID = v]. *)
Definition withTaskID (t : TaskMetadata) (v : string) : TaskMetadata :=
  {| Cluster := Cluster t; TaskARN := TaskARN t; TaskID := v;
     Family := Family t; Revision := Revision t;
     DesiredStatus := DesiredStatus t; KnownStatus := KnownStatus t;
     Limits := Limits t; PullStartedAt := PullStartedAt t;
     PullStoppedAt := PullStoppedAt t;
     AvailabilityZone := AvailabilityZone t; LaunchType := LaunchType t;
     Containers := Containers t |}.

(** [SetTaskID]: [None] is the panic of [parts[len(parts)-1]] on an empty
    [parts]. *)
Definition SetTaskID (t : TaskMetadata) : option TaskMetadata :=
  let parts := Go.Split (TaskARN t) "/" in
  id ← last parts;
  Some (withTaskID t id).

(** A client.  [request] does a GET and decodes the body into [out]:
    what it leaves in [out] and the error it returns are a function of
    the URI and of what [out] held, one for each type of [out] the
    package decodes into.  A transport failure leaves [out] as it was;
    a decoding failure may leave it partly filled. *)
Record Client : Type := {
  endpoint : string;
  request_TaskMetadata :
    string -> TaskMetadata -> TaskMetadata * option error;
  request_TaskStats : string -> TaskStats -> TaskStats * option error;
}.

Definition RetrieveTaskStats (c : Client) : TaskStats * option error :=
  let out : TaskStats := ∅ in
  request_TaskStats c (endpoint c +:+ "/task/stats") out.

(** [RetrieveTaskMetadata]: the outer [option] is [None] on a panic, the
    first component is the pointer returned ([None] for [nil]). *)
Definition RetrieveTaskMetadata (c : Client)
  : option (option TaskMetadata * option error) :=
  let out := zeroTaskMetadata in
  let (out, err) := request_TaskMetadata c (endpoint c +:+ "/task") out in
  out ← SetTaskID out;
  Some (Some out, err).

End ecsmetadata.

(* ================================================================== *)
(** * The part of the Prometheus client library the collector uses     *)
(* ================================================================== *)

Module prometheus.
Import Go.

Inductive ValueType : Type := CounterValue | GaugeValue | UntypedValue.

(** ** Names

    [model.LabelName.IsValid] and [model.IsValidMetricName], as the
    library has them for Go 1.20: a label name matches
    [[a-zA-Z_][a-zA-Z0-9_]*], a metric name may also have [':'].
    [checkLabelName] refuses the reserved prefix ["__"] as well. *)
Definition isLetter (c : ascii) : bool :=
  between 65 90 c || between 97 122 c.
Definition isDigit (c : ascii) : bool := between 48 57 c.
Definition isUnderscore (c : ascii) : bool := between 95 95 c.
Definition isColon (c : ascii) : bool := between 58 58 c.

Fixpoint all_at (first : ascii -> bool) (rest : ascii -> bool)
    (i : nat) (s : string) : bool :=
  match s with
  | EmptyString => true
  | String c s' =>
      (match i with 0 => first c | S _ => rest c end)
      && all_at first rest (S i) s'
  end.

Definition IsValid (ln : string) : bool :=
  negb (String.eqb ln EmptyString)
  && all_at (fun c => isLetter c || isUnderscore c)
            (fun c => isLetter c || isUnderscore c || isDigit c) 0 ln.

Definition IsValidMetricName (n : string) : bool :=
  negb (String.eqb n EmptyString)
  && all_at (fun c => isLetter c || isUnderscore c || isColon c)
            (fun c => isLetter c || isUnderscore c || isColon c
                      || isDigit c) 0 n.

Definition checkLabelName (l : string) : bool :=
  IsValid l && negb (String.prefix "__" l).

(** ** Descriptors *)

(** The errors that [NewDesc] records in a descriptor. *)
Inductive DescError : Type :=
| NotAValidMetricName (fqName : string)
| NotAValidLabelName (label fqName : string)
| DuplicateLabelNames (fqName : string).

(** A descriptor: its name, help and variable label names (the
    collector gives no constant labels), and the error of its
    construction, if any. *)
Record Desc : Type := {
  fqName : string;
  help : string;
  variableLabels : list string;
  err : option DescError;
}.

(** [NewDesc(fqName, help, variableLabels, nil)] always returns a
    descriptor; one with a name that is not valid, or with a label name
    twice, carries an error.  (The versions of the library that also
    refuse an empty help text make no difference here: the collector
    gives none.) *)
Definition NewDesc (fqName help : string) (variableLabels : list string)
  : Desc :=
  {| fqName := fqName; help := help; variableLabels := variableLabels;
     err :=
       if negb (IsValidMetricName fqName)
       then Some (NotAValidMetricName fqName)
       else
         match List.find (fun l => negb (checkLabelName l))
                         variableLabels with
         | Some label => Some (NotAValidLabelName label fqName)
         | None =>
             if bool_decide (NoDup variableLabels) then None
             else Some (DuplicateLabelNames fqName)
         end |}.

(** A constant metric: one sample. *)
Record Metric : Type := {
  desc : Desc;
  valueType : ValueType;
  value : float;
  labelValues : list string;
}.

(** [MustNewConstMetric] panics ([None]) when the descriptor carries an
    error, when the number of label values is not the number of
    variable labels of the descriptor, and when a label value is not
    valid UTF-8; otherwise it copies the label values into the
    metric. *)
Definition MustNewConstMetric (d : Desc) (t : ValueType) (v : float)
    (labelValues : list string) : option Metric :=
  match err d with
  | Some _ => None
  | None =>
      if decide (length labelValues = length (variableLabels d)) then
        if forallb ValidString labelValues then
          Some {| desc := d; valueType := t; value := v;
                  labelValues := labelValues |}
        else None
      else None
  end.

End prometheus.

(* ================================================================== *)
(** * Package ecscollector                                             *)
(* ================================================================== *)

Module ecscollector.
Import Go ecsmetadata prometheus.

Definition nanoSeconds : float := 1.0e9.
Definition timeLayout : string := "2006-01-02T15:04:05.999999999Z".
Definition cpuIn1Vcpu : float := 1024.
Definition bytesInMiB : float := 1048576.

(** The package-level variables.  A descriptor variable is a pointer,
    [nil] ([None]) until [NewCollector] has run. *)
Record Globals : Type := {
  metadataDesc : option Desc;
  svcCpuLimitDesc : option Desc;
  svcMemLimitDesc : option Desc;
  cpuTotalDesc : option Desc;
  cpuUtilizedDesc : option Desc;
  memoryUtilizedDesc : option Desc;
  memUsageDesc : option Desc;
  memLimitDesc : option Desc;
  memCacheUsageDesc : option Desc;
  networkRxBytesDesc : option Desc;
  networkRxPacketsDesc : option Desc;
  networkRxDroppedDesc : option Desc;
  networkRxErrorsDesc : option Desc;
  networkTxBytesDesc : option Desc;
  networkTxPacketsDesc : option Desc;
  networkTxDroppedDesc : option Desc;
  networkTxErrorsDesc : option Desc;
  labels : slice;
  svcLabels : slice;
  metadataLabels : slice;
  cpuLabels : slice;
  networkLabels : slice;
}.

Definition zeroGlobals : Globals :=
  {| metadataDesc := None; svcCpuLimitDesc := None;
     svcMemLimitDesc := None; cpuTotalDesc := None;
     cpuUtilizedDesc := None; memoryUtilizedDesc := None;
     memUsageDesc := None; memLimitDesc := None;
     memCacheUsageDesc := None; networkRxBytesDesc := None;
     networkRxPacketsDesc := None; networkRxDroppedDesc := None;
     networkRxErrorsDesc := None; networkTxBytesDesc := None;
     networkTxPacketsDesc := None; networkTxDroppedDesc := None;
     networkTxErrorsDesc := None;
     labels := nil; svcLabels := nil; metadataLabels := nil;
     cpuLabels := nil; networkLabels := nil |}.

Record collector : Type := {
  client : Client;
  customLabelValues : slice;
}.

(** The state of the process: the arrays, the package variables, and how
    many [range] loops over a map have started. *)
Record state : Type := State {
  mem : heap;
  pkg : Globals;
  ranges : nat;
}.

Definition initial : state := State [] zeroGlobals 0.

(** A computation sends metrics on the channel and ends in a value and
    a state, or panics ([None]); what it sent before the panic stays
    sent. *)
Definition M (A : Type) : Type :=
  state -> list Metric * option (A * state).

#[export] Instance M_ret : MRet M :=
  fun A a st => ([], Some (a, st)).

#[export] Instance M_bind : MBind M :=
  fun A B f m st =>
    match m st with
    | (out, Some (a, st')) =>
        let (out', r) := f a st' in (out ++ out', r)
    | (out, None) => (out, None)
    end.

Definition panic {A} : M A := fun _ => ([], None).

(** [ch <- m]. *)
Definition emit (m : Metric) : M unit := fun st => ([m], Some (tt, st)).

Definition get_pkg : M Globals := fun st => ([], Some (pkg st, st)).

Definition put_pkg (g : Globals) : M unit :=
  fun st => ([], Some (tt, State (mem st) g (ranges st))).

Definition on_heap {A} (f : heap -> A * heap) : M A :=
  fun st =>
    let (a, h) := f (mem st) in ([], Some (a, State h (pkg st) (ranges st))).

(** The elements of a slice, as [s...] passes them to a variadic
    function. *)
Definition spread (s : slice) : M (list string) :=
  fun st => ([], Some (elems (mem st) s, st)).

Fixpoint foldM {A B} (f : B -> A -> M B) (l : list A) (b : B) : M B :=
  match l with
  | [] => mret b
  | x :: l' => b' ← f b x; foldM f l' b'
  end.

Definition forM {A} (l : list A) (f : A -> M unit) : M unit :=
  foldM (fun _ x => f x) l tt.

Section Runtime.
(** The runtime's growth of slices, the order in which the [n]-th
    [range] over a map visits the entries, and [time.Parse]
    ([None] when it returns an error). *)
Variable growcap : nat -> nat -> nat.
Variable order : nat -> forall A : Type, list A -> list A.
Variable time_Parse : string -> string -> option Time.

Definition append (s : slice) (xs : list string) : M slice :=
  on_heap (Go.append growcap s xs).

(** [append(s, v...)]. *)
Definition append_slice (s v : slice) : M slice :=
  xs ← spread v; append s xs.

(** [for ... := range m] over a map with the entries [entries]: the
    sequence in which this loop visits them. *)
Definition range {A} (entries : list A) : M (list A) :=
  fun st =>
    ([], Some (order (ranges st) A entries,
               State (mem st) (pkg st) (S (ranges st)))).

(** [prometheus.NewDesc(fqName, help, labels, nil)]. *)
Definition newDesc (fqName help : string) (labels : slice)
  : M (option Desc) :=
  names ← spread labels; mret (Some (NewDesc fqName help names)).

(** [ch <- prometheus.MustNewConstMetric(desc, t, v, labelValues...)]
    for the descriptor in the package variable [var]. *)
Definition send (var : Globals -> option Desc) (t : ValueType)
    (v : float) (labelValues : slice) : M unit :=
  g ← get_pkg;
  vals ← spread labelValues;
  match var g with
  | None => panic
  | Some d =>
      match MustNewConstMetric d t v vals with
      | None => panic
      | Some m => emit m
      end
  end.

(** The same for a descriptor that is the key of a map literal. *)
Definition send_to (d : option Desc) (t : ValueType) (v : float)
    (labelValues : slice) : M unit :=
  send (fun _ => d) t v labelValues.

Definition NewCollector (client : Client)
    (customLabels : gmap string string) : M collector :=
  metadataLabels ← on_heap (literal
    ["cluster"; "task_arn"; "family"; "revision"; "desired_status";
     "known_status"; "pull_started_at"; "pull_stopped_at";
     "availability_zone"; "launch_type"; "task_id"]);
  svcLabels ← on_heap (literal ["task_arn"; "task_id"]);
  labels ← on_heap (literal ["container"; "task_id"]);
  entries ← range (map_to_list customLabels);
  '(customLabelKeys, customLabelValues) ←
    foldM (fun '(keys, values) '(key, value) =>
             keys ← append keys [key];
             values ← append values [value];
             mret (keys, values))
          entries (nil, nil);
  (* Append all the custom labels to the default labels at the end. *)
  metadataLabels ← append_slice metadataLabels customLabelKeys;
  labels ← append_slice labels customLabelKeys;
  svcLabels ← append_slice svcLabels customLabelKeys;
  networkLabels ← append labels ["device"];
  cpuLabels ← append labels ["cpu"];
  (* Initialize all the metric descriptors. *)
  metadataDesc ← newDesc "ecs_metadata_info"
    "ECS service metadata." metadataLabels;
  svcCpuLimitDesc ← newDesc "ecs_svc_cpu_limit"
    "Total CPU Limit. (1 unit = 1/1024th of a vCPU)" svcLabels;
  svcMemLimitDesc ← newDesc "ecs_svc_memory_limit_bytes"
    "Total MEM Limit in bytes." svcLabels;
  cpuTotalDesc ← newDesc "ecs_cpu_seconds_total"
    "Total CPU usage in seconds." cpuLabels;
  cpuUtilizedDesc ← newDesc "ecs_cpu_utilized"
    "Total CPU usage. (1 unit = 1/1024th of a vCPU)" labels;
  memoryUtilizedDesc ← newDesc "ecs_memory_utilized_mega_bytes"
    "Total memory utilized in MB." labels;
  memUsageDesc ← newDesc "ecs_memory_bytes"
    "Memory usage in bytes." labels;
  memLimitDesc ← newDesc "ecs_memory_limit_bytes"
    "Memory limit in bytes." labels;
  memCacheUsageDesc ← newDesc "ecs_memory_cache_usage"
    "Memory cache usage in bytes." labels;
  networkRxBytesDesc ← newDesc "ecs_network_receive_bytes_total"
    "Network recieved in bytes." networkLabels;
  networkRxPacketsDesc ← newDesc "ecs_network_receive_packets_total"
    "Network packets recieved." networkLabels;
  networkRxDroppedDesc ← newDesc "ecs_network_receive_dropped_total"
    "Network packets dropped in recieving." networkLabels;
  networkRxErrorsDesc ← newDesc "ecs_network_receive_errors_total"
    "Network errors in recieving." networkLabels;
  networkTxBytesDesc ← newDesc "ecs_network_transmit_bytes_total"
    "Network transmitted in bytes." networkLabels;
  networkTxPacketsDesc ← newDesc "ecs_network_transmit_packets_total"
    "Network packets transmitted." networkLabels;
  networkTxDroppedDesc ← newDesc "ecs_network_transmit_dropped_total"
    "Network packets dropped in transmit." networkLabels;
  networkTxErrorsDesc ← newDesc "ecs_network_transmit_errors_total"
    "Network errors in transmit." networkLabels;
  put_pkg
    {| metadataDesc := metadataDesc;
       svcCpuLimitDesc := svcCpuLimitDesc;
       svcMemLimitDesc := svcMemLimitDesc;
       cpuTotalDesc := cpuTotalDesc;
       cpuUtilizedDesc := cpuUtilizedDesc;
       memoryUtilizedDesc := memoryUtilizedDesc;
       memUsageDesc := memUsageDesc;
       memLimitDesc := memLimitDesc;
       memCacheUsageDesc := memCacheUsageDesc;
       networkRxBytesDesc := networkRxBytesDesc;
       networkRxPacketsDesc := networkRxPacketsDesc;
       networkRxDroppedDesc := networkRxDroppedDesc;
       networkRxErrorsDesc := networkRxErrorsDesc;
       networkTxBytesDesc := networkTxBytesDesc;
       networkTxPacketsDesc := networkTxPacketsDesc;
       networkTxDroppedDesc := networkTxDroppedDesc;
       networkTxErrorsDesc := networkTxErrorsDesc;
       labels := labels; svcLabels := svcLabels;
       metadataLabels := metadataLabels; cpuLabels := cpuLabels;
       networkLabels := networkLabels |};;
  mret {| client := client; customLabelValues := customLabelValues |}.

(** [t, _ := time.Parse(timeLayout, v)]: the error is dropped, and on
    an error [time.Parse] returns the zero [Time]. *)
Definition parsed (v : string) : Time :=
  default zeroTime (time_Parse timeLayout v).

Definition time_diff_since_last_read (s : ContainerStats) : Z :=
  Sub (parsed (Read s)) (parsed (PreRead s)).

Definition cpu_delta (s : ContainerStats) : Z :=
  uint64_sub (TotalUsage (CPUUsage_ (CPUStats_ s)))
             (TotalUsage (CPUUsage_ (PreCPUStats s))).

Definition cpu_usage_in_vcpu (s : ContainerStats) : float :=
  (float64 (cpu_delta s) / float64 (time_diff_since_last_read s)
   * cpuIn1Vcpu)%float.

(** The body of the loop over [metadata.Containers], for a container
    whose stats are [s]. *)
Definition collect_container (c : collector) (metadata : TaskMetadata)
    (container : Container) (s : ContainerStats) : M unit :=
  labelVals ← on_heap (literal [Name container; TaskID metadata]);
  labelVals ← append_slice labelVals (customLabelValues c);
  (* Calculate CPU usage percentage *)
  send cpuUtilizedDesc GaugeValue (cpu_usage_in_vcpu s) labelVals;;
  forM (imap pair (PercpuUsage (CPUUsage_ (CPUStats_ s))))
    (fun '(i, cpuUsage) =>
       let cpu := Sprintf_d i in
       let cpuUsageSeconds := (float64 cpuUsage / nanoSeconds)%float in
       vals ← append labelVals [cpu];
       send cpuTotalDesc CounterValue cpuUsageSeconds vals);;
  cacheValue ←
    match Stats (MemoryStats_ s) !! "cache" with
    | Some val =>
        let cacheValue := float64 val in
        let memoryUtilizedInMegaBytes :=
          ((float64 (Usage (MemoryStats_ s)) - cacheValue)
           / bytesInMiB)%float in
        send memoryUtilizedDesc GaugeValue memoryUtilizedInMegaBytes
          labelVals;;
        mret cacheValue
    | None => mret 0%float
    end;
  g ← get_pkg;
  gauges ← range
    [(memUsageDesc g, float64 (Usage (MemoryStats_ s)));
     (memLimitDesc g, float64 (Limit (MemoryStats_ s)));
     (memCacheUsageDesc g, cacheValue)];
  forM gauges (fun '(desc, value) =>
    send_to desc GaugeValue value labelVals);;
  (* Network metrics per interface. *)
  ifaces ← range (map_to_list (Networks s));
  forM ifaces (fun '(iface, netStats) =>
    networkLabelVals ← append labelVals [iface];
    g ← get_pkg;
    counters ← range
      [(networkRxBytesDesc g, RxBytes netStats);
       (networkRxPacketsDesc g, RxPackets netStats);
       (networkRxDroppedDesc g, RxDropped netStats);
       (networkRxErrorsDesc g, RxErrors netStats);
       (networkTxBytesDesc g, TxBytes netStats);
       (networkTxPacketsDesc g, TxPackets netStats);
       (networkTxDroppedDesc g, TxDropped netStats);
       (networkTxErrorsDesc g, TxErrors netStats)];
    forM counters (fun '(desc, value) =>
      send_to desc CounterValue value networkLabelVals)).

(** [Collect].  The log lines are not modelled. *)
Definition Collect (c : collector) : M unit :=
  match RetrieveTaskMetadata (client c) with
  | None => panic
  | Some (_, Some err) => mret tt
  | Some (None, None) => panic
  | Some (Some metadata, None) =>
      metadataLableVals ← on_heap (literal
        [Cluster metadata; TaskARN metadata; Family metadata;
         Revision metadata; DesiredStatus metadata;
         KnownStatus metadata; PullStartedAt metadata;
         PullStoppedAt metadata; AvailabilityZone metadata;
         LaunchType metadata; TaskID metadata]);
      metadataLableVals ←
        append_slice metadataLableVals (customLabelValues c);
      send metadataDesc GaugeValue 1 metadataLableVals;;
      svcLableVals ← on_heap (literal
        [TaskARN metadata; TaskID metadata]);
      svcLableVals ← append_slice svcLableVals (customLabelValues c);
      send svcCpuLimitDesc GaugeValue
        (CPU (Limits metadata) * 1024)%float svcLableVals;;
      send svcMemLimitDesc GaugeValue
        (Memory (Limits metadata)) svcLableVals;;
      match RetrieveTaskStats (client c) with
      | (_, Some err) => mret tt
      | (stats, None) =>
          forM (Containers metadata) (fun container =>
            match stats !! DockerID container with
            | Some (Some s) => collect_container c metadata container s
            | _ => mret tt
            end)
      end
  end.

End Runtime.

End ecscollector.

(* ================================================================== *)
(** * Concrete runtimes and documents, to run the model                *)
(* ================================================================== *)

Module Fixtures.
Import Go ecsmetadata prometheus ecscollector.

(** ** A parser for the timestamps of the stats document

    [YYYY-MM-DDThh:mm:ss[.f...]Z], as [timeLayout] reads them. *)

Definition digit (c : ascii) : option Z :=
  let n := nat_of_ascii c in
  if (48 <=? n) && (n <=? 57) then Some (Z.of_nat (n - 48)) else None.

(** Exactly [k] digits. *)
Fixpoint number (k : nat) (s : string) (acc : Z) : option (Z * string) :=
  match k with
  | 0 => Some (acc, s)
  | S k' =>
      match s with
      | String c s' => d ← digit c; number k' s' (10 * acc + d)%Z
      | EmptyString => None
      end
  end.

(** One or two digits. *)
Definition number12 (s : string) : option (Z * string) :=
  match number 2 s 0 with
  | Some r => Some r
  | None => number 1 s 0
  end.

Definition expect (c : ascii) (s : string) : option string :=
  match s with
  | String d s' => if Ascii.eqb c d then Some s' else None
  | EmptyString => None
  end.

(** The digits of a fraction of a second, in nanoseconds; digits after
    the ninth are dropped. *)
Fixpoint fraction (k : nat) (s : string) (acc : Z) : Z * string :=
  match s with
  | String c s' =>
      match digit c with
      | Some d =>
          match k with
          | 0 => fraction 0 s' acc
          | S k' => fraction k' s' (acc + d * 10 ^ Z.of_nat k')%Z
          end
      | None => (acc, s)
      end
  | EmptyString => (acc, s)
  end.

Definition opt_fraction (s : string) : Z * string :=
  match s with
  | String c (String d _ as s') =>
      if (Ascii.eqb c "." || Ascii.eqb c ",") && bool_decide (is_Some (digit d))
      then fraction 9 s' 0%Z
      else (0%Z, s)
  | _ => (0%Z, s)
  end.

Definition isLeap (y : Z) : bool :=
  ((y mod 4 =? 0) && (negb (y mod 100 =? 0) || (y mod 400 =? 0)))%Z.

Definition daysIn (m y : Z) : Z :=
  (if m =? 2 then (if isLeap y then 29 else 28)
   else if (m =? 4) || (m =? 6) || (m =? 9) || (m =? 11) then 30
   else 31)%Z.

(** Days from January 1 of year 1 to the given date of the proleptic
    Gregorian calendar. *)
Definition days_from_civil (y m d : Z) : Z :=
  (let y' := if m <=? 2 then y - 1 else y in
   let era := y' / 400 in
   let yoe := y' - era * 400 in
   let mp := if 2 <? m then m - 3 else m + 9 in
   let doy := (153 * mp + 2) / 5 + d - 1 in
   let doe := yoe * 365 + yoe / 4 - yoe / 100 + doy in
   era * 146097 + doe - 306)%Z.

Definition parseTimestamp (layout value : string) : option Time :=
  '(year, s) ← number 4 value 0;
  s ← expect "-" s;
  '(month, s) ← number 2 s 0;
  s ← expect "-" s;
  '(day, s) ← number 2 s 0;
  s ← expect "T" s;
  '(hour, s) ← number12 s;
  s ← expect ":" s;
  '(minute, s) ← number 2 s 0;
  s ← expect ":" s;
  '(sec, s) ← number 2 s 0;
  let (nsec, s) := opt_fraction s in
  s ← expect "Z" s;
  if bool_decide (s = EmptyString)
     && (1 <=? month)%Z && (month <=? 12)%Z
     && (1 <=? day)%Z && (day <=? daysIn month year)%Z
     && (hour <? 24)%Z && (minute <? 60)%Z && (sec <? 60)%Z
  then Some ((((days_from_civil year month day * 24 + hour) * 60
               + minute) * 60 + sec) * 1000000000 + nsec)%Z
  else None.

(** ** The order of [range]: as written, or reversed *)

Definition in_order : nat -> forall A : Type, list A -> list A :=
  fun _ _ l => l.

Definition reversed : nat -> forall A : Type, list A -> list A :=
  fun _ _ l => reverse l.

(** ** Documents *)

Definition usage (total : Z) (percpu : list Z) : CPUStats :=
  {| CPUUsage_ := {| TotalUsage := total; PercpuUsage := percpu |};
     SystemUsage := 0 |}.

Definition eth (rx tx : float) : NetworkStats :=
  {| RxBytes := rx; RxPackets := 10; RxErrors := 0; RxDropped := 1;
     TxBytes := tx; TxPackets := 20; TxErrors := 2; TxDropped := 0 |}.

Definition stats_of (read preread : string) (cur prev : Z)
    (mstats : gmap string Z) (nets : gmap string NetworkStats)
  : ContainerStats :=
  {| cs_Name := "web"; cs_ID := "d1"; NumProcs := 0;
     Read := read; PreRead := preread;
     CPUStats_ := usage cur [cur; 0%Z]; PreCPUStats := usage prev [prev];
     MemoryStats_ := {| Usage := 3145728; Stats := mstats;
                        Limit := 8388608 |};
     Networks := nets;
     NetworkRateStats_ := {| RxBytesPerSec := 0; TxBytesPerSec := 0 |} |}.

Definition t0 : string := "2023-05-04T10:20:30.000000000Z".
Definition t1 : string := "2023-05-04T10:20:31.000000000Z".

Definition webStats : ContainerStats :=
  stats_of t1 t0 2000000000 1000000000
    {["cache" := 1048576%Z]} {["eth0" := eth 100 200]}.

Definition noCacheStats : ContainerStats :=
  stats_of t1 t0 2000000000 1000000000 ∅ ∅.


Definition container_of (id name : string) : Container :=
  {| DockerID := id; Name := name; DockerName := name; Image := "";
     ImageID := ""; Labels := ∅; c_DesiredStatus := "";
     c_KnownStatus := ""; CreatedAt := ""; StartedAt := ""; Type_ := "";
     c_Networks := []; ClockDrift_ := [];
     ContainerARN := ""; LogDriver := "" |}.

Definition taskARN : string :=
  "arn:aws:ecs:us-west-2:111122223333:task/default/158d1c8083dd49d6b527399fd6414f5c".

Definition task : TaskMetadata :=
  {| Cluster := "default"; TaskARN := taskARN; TaskID := "";
     Family := "curltest"; Revision := "26"; DesiredStatus := "RUNNING";
     KnownStatus := "RUNNING";
     Limits := {| CPU := 0.25; Memory := 512 |};
     PullStartedAt := ""; PullStoppedAt := "";
     AvailabilityZone := "us-west-2d"; LaunchType := "EC2";
     Containers := [container_of "d0" "sidecar"; container_of "d1" "web"] |}.

(** Clients: one whose endpoint answers with the given documents, one
    whose requests fail, one whose stats request fails. *)
Definition serving (t : TaskMetadata) (s : TaskStats) : Client :=
  {| endpoint := "http://169.254.170.2/v4/x";
     request_TaskMetadata := fun _ _ => (t, None);
     request_TaskStats := fun _ _ => (s, None) |}.

Definition unreachable : Client :=
  {| endpoint := "http://169.254.170.2/v4/x";
     request_TaskMetadata := fun _ out => (out, Some "connection refused");
     request_TaskStats := fun _ out => (out, Some "connection refused") |}.

Definition without_stats (t : TaskMetadata) : Client :=
  {| endpoint := "http://169.254.170.2/v4/x";
     request_TaskMetadata := fun _ _ => (t, None);
     request_TaskStats := fun _ out => (out, Some "unexpected end of JSON input") |}.

(** Endpoints: one with stats for the second container only, one with
    stats for both, the first without a cache entry, and one whose
    stats carry timestamps that do not parse. *)
Definition cl1 : Client := serving task {["d1" := Some webStats]}.

Definition cl2 : Client :=
  serving task {["d0" := Some noCacheStats; "d1" := Some webStats]}.


(** The collector that [NewCollector] returns in the initial state,
    under the gc growth of slices, and the state it leaves. *)
Definition boot (order : nat -> forall A : Type, list A -> list A)
    (client : Client) (customLabels : gmap string string)
  : collector * state :=
  match NewCollector growslice order client customLabels initial with
  | (_, Some r) => r
  | (_, None) => ({| client := client; customLabelValues := nil |}, initial)
  end.

(** A run of the exporter: [NewCollector] from the initial state, then
    one [Collect]; what [Collect] sent and whether it returned. *)
Definition scrape (growcap : nat -> nat -> nat)
    (order : nat -> forall A : Type, list A -> list A)
    (client : Client) (customLabels : gmap string string)
  : list Metric * bool :=
  match NewCollector growcap order client customLabels initial with
  | (_, Some (c, st)) =>
      let (out, r) := Collect growcap order parseTimestamp c st in
      (out, bool_decide (is_Some r))
  | (_, None) => ([], false)
  end.

End Fixtures.

(* ================================================================== *)
(** * Vocabulary of the specification                                  *)
(* ================================================================== *)

Module Spec.
Import Go ecsmetadata prometheus ecscollector.

(** A slice is well formed in a store when its array is there with
    [cap] slots, or it has no capacity at all. *)
Definition wf (h : heap) (s : slice) : Prop :=
  len s ≤ cap s ∧
  (cap s = 0 ∨ ∃ a, h !! ptr s = Some a ∧ length a = cap s).

(** The runtime gives a slice that grows at least the capacity it
    needs. *)
Definition fits (growcap : nat -> nat -> nat) : Prop :=
  ∀ newLen oldCap, newLen ≤ growcap newLen oldCap.

(** A [range] over a map visits every entry once. *)
Definition fair (order : nat -> forall A : Type, list A -> list A) : Prop :=
  ∀ n A (l : list A), order n A l ≡ₚ l.

(** [m] run from [st] does not panic, and what it sent, its value and
    the state it ends in satisfy [Q]. *)
Definition exec {A} (m : M A) (st : state)
    (Q : list Metric -> A -> state -> Prop) : Prop :=
  ∃ out a st', m st = (out, Some (a, st')) ∧ Q out a st'.

(** The metrics of a given name. *)
Definition named (name : string) (out : list Metric) : list Metric :=
  filter (fun m => fqName (desc m) = name) out.

(** A metric has as many label values as its descriptor has label
    names. *)
Definition arity_ok (m : Metric) : Prop :=
  length (labelValues m) = length (variableLabels (desc m)).

(** A computation that sends only such metrics, from any state and up to
    a panic if there is one. *)
Definition tidy {A} (m : M A) : Prop := ∀ st, Forall arity_ok (m st).1.

(** ** Arrays of one computation and arrays from before *)

(** The array of [s], if it has one, is not among the first [n]. *)
Definition owned (n : nat) (s : slice) : Prop := cap s = 0 ∨ n ≤ ptr s.

(** [h'] shows every slice on the first [n] arrays as [h] does. *)
Definition preserves (n : nat) (h h' : heap) : Prop :=
  ∀ t, wf h t → cap t = 0 ∨ ptr t < n →
       wf h' t ∧ elems h' t = elems h t.

(** ** The catalog of descriptors *)

Definition metadataNames : list string :=
  ["cluster"; "task_arn"; "family"; "revision"; "desired_status";
   "known_status"; "pull_started_at"; "pull_stopped_at";
   "availability_zone"; "launch_type"; "task_id"].
Definition svcNames : list string := ["task_arn"; "task_id"].
Definition containerNames : list string := ["container"; "task_id"].

(** The package variables when every descriptor has its fixed label
    names, then the names [keys], and then ["cpu"] for the per-core
    descriptor and [dev] for the per-interface descriptors. *)
Definition catalog (keys : list string) (dev : string)
    (l s m c n : slice) : Globals :=
  let meta := metadataNames ++ keys in
  let svc := svcNames ++ keys in
  let per := containerNames ++ keys in
  {| metadataDesc := Some (NewDesc "ecs_metadata_info"
       "ECS service metadata." meta);
     svcCpuLimitDesc := Some (NewDesc "ecs_svc_cpu_limit"
       "Total CPU Limit. (1 unit = 1/1024th of a vCPU)" svc);
     svcMemLimitDesc := Some (NewDesc "ecs_svc_memory_limit_bytes"
       "Total MEM Limit in bytes." svc);
     cpuTotalDesc := Some (NewDesc "ecs_cpu_seconds_total"
       "Total CPU usage in seconds." (per ++ ["cpu"]));
     cpuUtilizedDesc := Some (NewDesc "ecs_cpu_utilized"
       "Total CPU usage. (1 unit = 1/1024th of a vCPU)" per);
     memoryUtilizedDesc := Some (NewDesc "ecs_memory_utilized_mega_bytes"
       "Total memory utilized in MB." per);
     memUsageDesc := Some (NewDesc "ecs_memory_bytes"
       "Memory usage in bytes." per);
     memLimitDesc := Some (NewDesc "ecs_memory_limit_bytes"
       "Memory limit in bytes." per);
     memCacheUsageDesc := Some (NewDesc "ecs_memory_cache_usage"
       "Memory cache usage in bytes." per);
     networkRxBytesDesc := Some (NewDesc "ecs_network_receive_bytes_total"
       "Network recieved in bytes." (per ++ [dev]));
     networkRxPacketsDesc := Some (NewDesc
       "ecs_network_receive_packets_total"
       "Network packets recieved." (per ++ [dev]));
     networkRxDroppedDesc := Some (NewDesc
       "ecs_network_receive_dropped_total"
       "Network packets dropped in recieving." (per ++ [dev]));
     networkRxErrorsDesc := Some (NewDesc
       "ecs_network_receive_errors_total"
       "Network errors in recieving." (per ++ [dev]));
     networkTxBytesDesc := Some (NewDesc
       "ecs_network_transmit_bytes_total"
       "Network transmitted in bytes." (per ++ [dev]));
     networkTxPacketsDesc := Some (NewDesc
       "ecs_network_transmit_packets_total"
       "Network packets transmitted." (per ++ [dev]));
     networkTxDroppedDesc := Some (NewDesc
       "ecs_network_transmit_dropped_total"
       "Network packets dropped in transmit." (per ++ [dev]));
     networkTxErrorsDesc := Some (NewDesc
       "ecs_network_transmit_errors_total"
       "Network errors in transmit." (per ++ [dev]));
     labels := l; svcLabels := s; metadataLabels := m; cpuLabels := c;
     networkLabels := n |}.

(** A collector is ready in a state when its label values are the
    values of [custom], in that order, and the catalog has the keys of
    [custom], in that order. *)
Definition ready (custom : list (string * string)) (dev : string)
    (c : collector) (st : state) : Prop :=
  wf (mem st) (customLabelValues c) ∧
  elems (mem st) (customLabelValues c) = custom.*2 ∧
  ∃ l s m cp n, pkg st = catalog custom.*1 dev l s m cp n.

(** Does [append(labels, customLabelKeys...)] leave a free slot after
    [n] custom labels? *)
Definition spare (growcap : nat -> nat -> nat) (n : nat) : bool :=
  bool_decide (0 < n ∧ 2 + n < growcap (2 + n) 2).

(** ** The metrics of a scrape *)

Definition the (d : option Desc) : Desc := default (NewDesc "" "" []) d.

Definition sample (d : option Desc) (t : ValueType) (v : float)
    (labelValues : list string) : Metric :=
  {| desc := the d; valueType := t; value := v;
     labelValues := labelValues |}.

Definition task_metrics (g : Globals) (md : TaskMetadata)
    (vals : list string) : list Metric :=
  [sample (metadataDesc g) GaugeValue 1
     ([Cluster md; TaskARN md; Family md; Revision md; DesiredStatus md;
       KnownStatus md; PullStartedAt md; PullStoppedAt md;
       AvailabilityZone md; LaunchType md; TaskID md] ++ vals);
   sample (svcCpuLimitDesc g) GaugeValue (CPU (Limits md) * 1024)%float
     ([TaskARN md; TaskID md] ++ vals);
   sample (svcMemLimitDesc g) GaugeValue (Memory (Limits md))
     ([TaskARN md; TaskID md] ++ vals)].

Definition cache_value (s : ContainerStats) : float :=
  match Stats (MemoryStats_ s) !! "cache" with
  | Some val => float64 val
  | None => 0%float
  end.

Definition memory_gauges (g : Globals) (lv : list string)
    (s : ContainerStats) : list Metric :=
  [sample (memUsageDesc g) GaugeValue
     (float64 (Usage (MemoryStats_ s))) lv;
   sample (memLimitDesc g) GaugeValue
     (float64 (Limit (MemoryStats_ s))) lv;
   sample (memCacheUsageDesc g) GaugeValue (cache_value s) lv].

Definition network_counters (g : Globals) (lv : list string)
    (iface : string) (n : NetworkStats) : list Metric :=
  let lv := lv ++ [iface] in
  [sample (networkRxBytesDesc g) CounterValue (RxBytes n) lv;
   sample (networkRxPacketsDesc g) CounterValue (RxPackets n) lv;
   sample (networkRxDroppedDesc g) CounterValue (RxDropped n) lv;
   sample (networkRxErrorsDesc g) CounterValue (RxErrors n) lv;
   sample (networkTxBytesDesc g) CounterValue (TxBytes n) lv;
   sample (networkTxPacketsDesc g) CounterValue (TxPackets n) lv;
   sample (networkTxDroppedDesc g) CounterValue (TxDropped n) lv;
   sample (networkTxErrorsDesc g) CounterValue (TxErrors n) lv].

Section Parse.
Variable time_Parse : string -> string -> option Time.

(** What the loop sends first for a container: the CPU gauge, the
    per-core counters, and the memory gauge when there is a cache
    entry. *)
Definition leading_metrics (g : Globals) (lv : list string)
    (s : ContainerStats) : list Metric :=
  sample (cpuUtilizedDesc g) GaugeValue
    (cpu_usage_in_vcpu time_Parse s) lv
  :: imap (fun i u =>
             sample (cpuTotalDesc g) CounterValue
               (float64 u / nanoSeconds)%float (lv ++ [Sprintf_d i]))
          (PercpuUsage (CPUUsage_ (CPUStats_ s)))
  ++ match Stats (MemoryStats_ s) !! "cache" with
     | Some val =>
         [sample (memoryUtilizedDesc g) GaugeValue
            ((float64 (Usage (MemoryStats_ s)) - float64 val)
             / bytesInMiB)%float lv]
     | None => []
     end.

(** The metrics of a container with stats [s], in the order in which
    the loop sends them when [range] visits the maps as they are
    listed. *)
Definition container_metrics (g : Globals) (lv : list string)
    (s : ContainerStats) : list Metric :=
  leading_metrics g lv s ++ memory_gauges g lv s
  ++ flat_map (fun '(iface, n) => network_counters g lv iface n)
              (map_to_list (Networks s)).

(** [block] is what the loop may send for [container]: nothing
    without a stats entry; with one, the leading metrics, then the
    three memory gauges in some order, then for each interface, in
    some order, its eight counters in some order. *)
Definition block_of (g : Globals) (md : TaskMetadata)
    (stats : TaskStats) (vals : list string)
    (container : Container) (block : list Metric) : Prop :=
  match stats !! DockerID container with
  | Some (Some s) =>
      let lv := [Name container; TaskID md] ++ vals in
      ∃ gauges counters,
        block = leading_metrics g lv s ++ gauges ++ counters ∧
        gauges ≡ₚ memory_gauges g lv s ∧
        counters ≡ₚ
          flat_map (fun '(iface, n) => network_counters g lv iface n)
                   (map_to_list (Networks s))
  | _ => block = []
  end.
End Parse.

(** The label names of the seventeen descriptors. *)
Definition label_names (g : Globals) : list (list string) :=
  (fun d => variableLabels (the d))
    <$> [metadataDesc g; svcCpuLimitDesc g; svcMemLimitDesc g;
         cpuTotalDesc g; cpuUtilizedDesc g; memoryUtilizedDesc g;
         memUsageDesc g; memLimitDesc g; memCacheUsageDesc g;
         networkRxBytesDesc g; networkRxPacketsDesc g;
         networkRxDroppedDesc g; networkRxErrorsDesc g;
         networkTxBytesDesc g; networkTxPacketsDesc g;
         networkTxDroppedDesc g; networkTxErrorsDesc g].

Section Running.
Variable growcap : nat -> nat -> nat.
Variable order : nat -> forall A : Type, list A -> list A.
Variable time_Parse : string -> string -> option Time.

(** The states in which a collector is scraped: the state in which
    [NewCollector] returned it, and the state after any scrape of it
    that returned. *)
Inductive running (c : collector) : state -> Prop :=
| running_new customLabels st0 st :
    NewCollector growcap order (client c) customLabels st0
    = ([], Some (c, st)) →
    running c st
| running_on st out st' :
    running c st →
    Collect growcap order time_Parse c st = (out, Some (tt, st')) →
    running c st'.
End Running.

(** ** Descriptors without error and label values in UTF-8 *)

(** The seventeen descriptors. *)
Definition descriptors (g : Globals) : list (option Desc) :=
  [metadataDesc g; svcCpuLimitDesc g; svcMemLimitDesc g;
   cpuTotalDesc g; cpuUtilizedDesc g; memoryUtilizedDesc g;
   memUsageDesc g; memLimitDesc g; memCacheUsageDesc g;
   networkRxBytesDesc g; networkRxPacketsDesc g;
   networkRxDroppedDesc g; networkRxErrorsDesc g;
   networkTxBytesDesc g; networkTxPacketsDesc g;
   networkTxDroppedDesc g; networkTxErrorsDesc g].

(** None of them is [nil] or carries an error. *)
Definition error_free (g : Globals) : bool :=
  forallb (fun d => match d with
                    | Some d' => bool_decide (err d' = None)
                    | None => false
                    end)
          (descriptors g).

Definition utf8 (l : list string) : bool := forallb ValidString l.

(** The strings of the metadata that become label values, as
    [json.Unmarshal] leaves them: valid UTF-8. *)
Definition utf8_metadata (md : TaskMetadata) : bool :=
  utf8 [Cluster md; TaskARN md; Family md; Revision md; DesiredStatus md;
        KnownStatus md; PullStartedAt md; PullStoppedAt md;
        AvailabilityZone md; LaunchType md; TaskID md]
  && utf8 (Name <$> Containers md).

(** The same for the interface names of the stats. *)
Definition utf8_stats (stats : TaskStats) : bool :=
  forallb (fun p : string * option ContainerStats =>
             match p.2 with
             | Some s => utf8 (map_to_list (Networks s)).*1
             | None => true
             end)
          (map_to_list stats).

(** What the library asks of the metrics of a scrape, apart from the
    number of label values: descriptors without error, the label
    values of the collector and the strings of the documents in
    UTF-8. *)
Definition sound_task (c : collector) (st : state) (md : TaskMetadata)
  : bool :=
  error_free (pkg st) && utf8 (elems (mem st) (customLabelValues c))
  && utf8_metadata md.

Definition sound (c : collector) (st : state) (md : TaskMetadata)
    (stats : TaskStats) : bool :=
  sound_task c st md && utf8_stats stats.

(** A metric that [MustNewConstMetric] does not refuse for its
    descriptor or for the text of its label values. *)
Definition acceptable (m : Metric) : Prop :=
  err (desc m) = None ∧ utf8 (labelValues m) = true.

#[export] Instance acceptable_dec m : Decision (acceptable m) :=
  (_ : Decision (err (desc m) = None ∧ utf8 (labelValues m) = true)).

Section Expected.
Variable time_Parse : string -> string -> option Time.

(** The metrics that a scrape is to send, given the metadata and the
    answer of the stats request: the task metrics, and the metrics of
    each container with stats. *)
Definition expected (g : Globals) (md : TaskMetadata)
    (answer : TaskStats * option error) (vals : list string)
  : list Metric :=
  task_metrics g md vals
  ++ match answer with
     | (stats, None) =>
         flat_map (fun container =>
                     match mjoin (stats !! DockerID container) with
                     | Some s =>
                         container_metrics time_Parse g
                           ([Name container; TaskID md] ++ vals) s
                     | None => []
                     end)
                  (Containers md)
     | (_, Some _) => []
     end.

(** The library accepts every metric that a scrape of [c] in [st] is
    to send, for the metadata [md] and the answer of the stats
    request. *)
Definition accepts (c : collector) (st : state) (md : TaskMetadata)
    (answer : TaskStats * option error) : Prop :=
  Forall acceptable
    (expected (pkg st) md answer (elems (mem st) (customLabelValues c))).

#[export] Instance accepts_dec c st md answer :
  Decision (accepts c st md answer) :=
  (_ : Decision (Forall acceptable _)).
End Expected.

(** [m] run from [st] sends only metrics that satisfy [I]; when it
    returns, what it sent, its value and the state it ends in satisfy
    [Q]; when it panics, [B] holds. *)
Definition run {A} (I : Metric -> Prop) (B : Prop) (m : M A) (st : state)
    (Q : list Metric -> A -> state -> Prop) : Prop :=
  Forall I (m st).1 ∧
  match (m st).2 with
  | Some (a, st') => Q (m st).1 a st'
  | None => B
  end.

(** [t'] is [t] but for the task ID. *)
Definition same_but_TaskID (t t' : TaskMetadata) : Prop :=
  Cluster t' = Cluster t ∧ TaskARN t' = TaskARN t ∧
  Family t' = Family t ∧ Revision t' = Revision t ∧
  DesiredStatus t' = DesiredStatus t ∧ KnownStatus t' = KnownStatus t ∧
  Limits t' = Limits t ∧ PullStartedAt t' = PullStartedAt t ∧
  PullStoppedAt t' = PullStoppedAt t ∧
  AvailabilityZone t' = AvailabilityZone t ∧
  LaunchType t' = LaunchType t ∧ Containers t' = Containers t.

(** Two proof steps that recur: the equality of two lengths of label
    lists, and the metrics of one name in a list that is written out. *)
Ltac lengths :=
  cbn [variableLabels NewDesc];
  repeat (rewrite ?length_app, ?length_fmap, ?length_cons; simpl);
  lia.

(** Membership in a list that is written out. *)
Ltac listed :=
  unfold descriptors;
  repeat first [apply list_elem_of_here | apply list_elem_of_further].

Ltac names :=
  unfold named;
  repeat first
    [ rewrite filter_nil
    | rewrite filter_cons_True by reflexivity
    | rewrite filter_cons_False by discriminate ].

End Spec.

(* ================================================================== *)
(** * The rest of the program: [main] and [Describe]                   *)
(* ================================================================== *)

Module main.
Import Go ecsmetadata.

Definition CUSTOM_LABEL_SEPARATOR : ascii := ",".
Definition CUSTOM_LABEL_KEY_VALUE_SEPARATOR : ascii := "=".

(** [strings.Cut(s, sep)] at a one-byte separator: the text before and
    after the first separator, if there is one. *)
Fixpoint cut (sep : ascii) (s : string) : option (string * string) :=
  match s with
  | EmptyString => None
  | String c s' =>
      if Ascii.eqb c sep then Some (EmptyString, s')
      else '(a, b) ← cut sep s'; Some (String c a, b)
  end.

(** [strings.SplitN(s, sep, n)] for [n >= 0] at a one-byte separator:
    [nil] for [n = 0], otherwise at most [n] fields, the last one the
    rest of the string. *)
Fixpoint SplitN (s : string) (sep : ascii) (n : nat) : list string :=
  match n with
  | 0 => []
  | S n' =>
      match n', cut sep s with
      | S _, Some (a, b) => a :: SplitN b sep n'
      | _, _ => [s]
      end
  end.

(** [strings.Join]. *)
Fixpoint Join (elems : list string) (sep : string) : string :=
  match elems with
  | [] => EmptyString
  | [x] => x
  | x :: rest => x +:+ sep +:+ Join rest sep
  end.

(** The function that [main] gives to [flag.Func] for [-custom-labels]:
    it is called with the argument of each occurrence of the flag, and
    writes to the package variable [customLabels], here passed and
    returned.  It always returns the [nil] error. *)
Definition custom_labels (customLabels : gmap string string)
    (customLabelsString : string) : gmap string string * option error :=
  let pairs := Split customLabelsString CUSTOM_LABEL_SEPARATOR in
  (foldl (fun customLabels pair =>
            let parts := SplitN pair CUSTOM_LABEL_KEY_VALUE_SEPARATOR 2 in
            if decide (length parts = 2)
            then <[default EmptyString (parts !! 0)
                   := default EmptyString (parts !! 1)]> customLabels
            else customLabels)
         customLabels pairs,
   None).

(** The flag as the usage text writes it: [key1=value1,key2=value2]. *)
Definition flag_text (l : list (string * string)) : string :=
  Join ((fun p => p.1 +:+ String CUSTOM_LABEL_KEY_VALUE_SEPARATOR p.2)
          <$> l)
       (String CUSTOM_LABEL_SEPARATOR EmptyString).

End main.

Module describe.
Import Go ecsmetadata prometheus ecscollector.

(** [Describe]: the descriptors it sends on its channel, in order; it
    reads the package variables, and a [None] is a [nil] pointer. *)
Definition Describe (c : collector) (st : state) : list (option Desc) :=
  let g := pkg st in
  [cpuTotalDesc g; cpuUtilizedDesc g; memoryUtilizedDesc g;
   memUsageDesc g; memLimitDesc g; memCacheUsageDesc g;
   networkRxBytesDesc g; networkRxPacketsDesc g; networkRxDroppedDesc g;
   networkRxErrorsDesc g; networkTxBytesDesc g; networkTxPacketsDesc g;
   networkTxDroppedDesc g; networkTxErrorsDesc g].

End describe.

Module Fixtures2.
Import Go ecsmetadata prometheus ecscollector Fixtures.

(** Stats with two interfaces, and an endpoint that has them for the
    second container, and stats under an ID that no container has. *)
Definition twoNics : ContainerStats :=
  stats_of t1 t0 2000000000 1000000000
    {["cache" := 1048576%Z]} {["eth0" := eth 100 200; "eth1" := eth 1 2]}.

Definition cl4 : Client :=
  serving task {["d1" := Some twoNics; "gone" := Some noCacheStats]}.

(** A document whose ARN has no ['/'] and whose task ID holds something
    else; and a client whose metadata request fails while it decodes,
    after the cluster and the ARN. *)
Definition bare : TaskMetadata :=
  {| Cluster := "default"; TaskARN := "158d1c8083dd49d6b527399fd6414f5c";
     TaskID := "stale"; Family := ""; Revision := ""; DesiredStatus := "";
     KnownStatus := ""; Limits := {| CPU := 0; Memory := 0 |};
     PullStartedAt := ""; PullStoppedAt := ""; AvailabilityZone := "";
     LaunchType := ""; Containers := [] |}.

Definition partly : TaskMetadata :=
  {| Cluster := "default"; TaskARN := taskARN; TaskID := ""; Family := "";
     Revision := ""; DesiredStatus := ""; KnownStatus := "";
     Limits := {| CPU := 0; Memory := 0 |};
     PullStartedAt := ""; PullStoppedAt := ""; AvailabilityZone := "";
     LaunchType := ""; Containers := [] |}.

Definition half_decoded : Client :=
  {| endpoint := "http://169.254.170.2/v4/x";
     request_TaskMetadata :=
       fun _ _ => (partly, Some "unexpected end of JSON input");
     request_TaskStats := fun _ out => (out, Some "connection refused") |}.

(** Stats of a container whose CPU total is below the previous one. *)
Definition resetStats : ContainerStats :=
  stats_of t1 t0 1000000000 2000000000 ∅ ∅.

Definition cl5 : Client := serving task {["d1" := Some resetStats]}.

End Fixtures2.

(* ================================================================== *)
(** * More vocabulary: counting and pairing                            *)
(* ================================================================== *)

Module Census.
Import Go ecsmetadata prometheus ecscollector Spec.

(** The stats of a container, if the stats document has them. *)
Definition stats_for (stats : TaskStats) (container : Container)
  : option ContainerStats :=
  mjoin (stats !! DockerID container).

(** The number of metrics of a container with stats [s]. *)
Definition census (s : ContainerStats) : nat :=
  1 + length (PercpuUsage (CPUUsage_ (CPUStats_ s)))
  + match Stats (MemoryStats_ s) !! "cache" with Some _ => 1 | None => 0 end
  + 3 + 8 * size (Networks s).

(** The eight counters of an interface: name, descriptor and field. *)
Definition network_table
  : list (string * (Globals -> option Desc) * (NetworkStats -> float)) :=
  [("ecs_network_receive_bytes_total", networkRxBytesDesc, RxBytes);
   ("ecs_network_receive_packets_total", networkRxPacketsDesc, RxPackets);
   ("ecs_network_receive_dropped_total", networkRxDroppedDesc, RxDropped);
   ("ecs_network_receive_errors_total", networkRxErrorsDesc, RxErrors);
   ("ecs_network_transmit_bytes_total", networkTxBytesDesc, TxBytes);
   ("ecs_network_transmit_packets_total", networkTxPacketsDesc, TxPackets);
   ("ecs_network_transmit_dropped_total", networkTxDroppedDesc, TxDropped);
   ("ecs_network_transmit_errors_total", networkTxErrorsDesc, TxErrors)].

(** The label names of a metric, each with the value that the metric
    has under it. *)
Definition labelled (m : Metric) : list (string * string) :=
  zip (variableLabels (desc m)) (labelValues m).

Section Scrapes.
Variable growcap : nat -> nat -> nat.
Variable order : nat -> forall A : Type, list A -> list A.
Variable time_Parse : string -> string -> option Time.

(** The states of a collector from [st0] on: [st0], and the state after
    any scrape of it that returned. *)
Inductive scrapes (c : collector) (st0 : state) : state -> Prop :=
| scrapes_none : scrapes c st0 st0
| scrapes_more st out st' :
    scrapes c st0 st →
    Collect growcap order time_Parse c st = (out, Some (tt, st')) →
    scrapes c st0 st'.
End Scrapes.

End Census.

(* ================================================================== *)
(** * Slices                                                           *)
(* ================================================================== *)

Module SliceFacts.
Import Go Spec.

Lemma wf_nil h : wf h nil.
Proof. split; [done | by left]. Qed.

Lemma wf_ptr h s : wf h s → cap s = 0 ∨ ptr s < length h.
Proof.
  intros [_ [?|(a & Ha & _)]]; [by left | right].
  by eapply lookup_lt_Some.
Qed.

Lemma elems_length h s : wf h s → length (elems h s) = len s.
Proof.
  intros [Hle [H0|(a & Ha & Hca)]]; unfold elems.
  - replace (len s) with 0 by lia. done.
  - rewrite Ha. simpl. rewrite length_take. lia.
Qed.

Lemma literal_wf xs h :
  wf (h ++ [xs]) (Slice (length h) (length xs) (length xs)).
Proof.
  split; [done | right]. exists xs. simpl.
  by rewrite list_lookup_middle.
Qed.

Lemma literal_elems xs h :
  elems (h ++ [xs]) (Slice (length h) (length xs) (length xs)) = xs.
Proof.
  unfold elems. simpl. rewrite list_lookup_middle by done. simpl.
  by rewrite take_ge.
Qed.

(** Allocation leaves the slices that were there as they are. *)
Lemma alloc_frame h a t :
  wf h t → wf (h ++ [a]) t ∧ elems (h ++ [a]) t = elems h t.
Proof.
  intros [Hle [H0|(b & Hb & Hcb)]].
  - split; [split; [done | by left] |].
    unfold elems. replace (len t) with 0 by lia. done.
  - assert (ptr t < length h) by (by eapply lookup_lt_Some).
    split.
    + split; [done | right]. exists b. by rewrite lookup_app_l.
    + unfold elems. by rewrite lookup_app_l.
Qed.

Section Append.
Variable growcap : nat -> nat -> nat.
Hypothesis growcap_fits : fits growcap.

(** What [append] returns. *)
Lemma append_result s xs h s' h' :
  wf h s →
  append growcap s xs h = (s', h') →
  wf h' s' ∧ elems h' s' = elems h s ++ xs ∧
  len s' = len s + length xs ∧
  ((ptr s' = ptr s ∧ cap s' = cap s ∧ length h' = length h ∧
    len s + length xs ≤ cap s) ∨
   (ptr s' = length h ∧ length h' = S (length h) ∧
    cap s < len s + length xs ∧
    cap s' = growcap (len s + length xs) (cap s))).
Proof.
  intros Hwf. pose proof (elems_length _ _ Hwf) as Hlen.
  destruct Hwf as [Hle Harr]. unfold append.
  destruct (Nat.leb_spec (len s + length xs) (cap s)) as [Hfit|Hgrow];
    intros [= <- <-]; simpl.
  - unfold store. rewrite length_alter.
    destruct Harr as [H0|(a & Ha & Hca)].
    + assert (xs = []) as -> by (apply length_zero_iff_nil; lia).
      split_and!; [| | done | by left].
      * split; simpl; [done | by left].
      * unfold elems in *. simpl.
        replace (len s + 0) with 0 by lia.
        replace (len s) with 0 by lia. done.
    + split_and!; [| | done | by left].
      * split; simpl; [done | right].
        eexists. rewrite list_lookup_alter_eq, Ha. simpl.
        split; [done |].
        rewrite !length_app, length_take, length_drop. lia.
      * unfold elems. simpl. rewrite list_lookup_alter_eq, Ha. simpl.
        rewrite app_assoc, take_app_le
          by (rewrite length_app, length_take; lia).
        rewrite take_ge by (rewrite length_app, length_take; lia).
        done.
  - pose proof (growcap_fits (len s + length xs) (cap s)).
    rewrite length_app. simpl.
    split_and!; [| | done | right; split_and!; (lia || done)].
    + split; simpl; [lia | right].
      eexists. rewrite list_lookup_middle by done.
      split; [done |].
      rewrite !length_app, length_replicate, Hlen. lia.
    + unfold elems at 1. simpl.
      rewrite list_lookup_middle by done. simpl.
      rewrite app_assoc, take_app_le by (rewrite length_app; lia).
      rewrite take_ge by (rewrite length_app; lia). done.
Qed.

(** What [append] leaves alone: a slice on another array, or one that
    is no longer than the slice appended to. *)
Lemma append_frame s xs h s' h' t :
  wf h s →
  append growcap s xs h = (s', h') →
  wf h t →
  cap s = 0 ∨ cap t = 0 ∨ ptr t ≠ ptr s ∨ len t ≤ len s →
  wf h' t ∧ elems h' t = elems h t.
Proof.
  intros Hs. unfold append.
  destruct (Nat.leb_spec (len s + length xs) (cap s)) as [Hfit|Hgrow];
    intros [= <- <-] Hwf Hsep; [| by apply alloc_frame].
  destruct (decide (cap s = 0)) as [Hs0|Hs0].
  { assert (xs = []) as -> by (apply length_zero_iff_nil; lia).
    assert (len s = 0) as -> by (destruct Hs; lia).
    unfold store. by rewrite list_alter_id. }
  destruct Hwf as [Hle [H0|(b & Hb & Hcb)]].
  { split; [split; [done | by left] |].
    unfold elems. replace (len t) with 0 by lia. done. }
  destruct (decide (ptr t = ptr s)) as [Heq|Hne].
  - assert (len t ≤ len s) by lia.
    assert (length b = cap s) as Hb'.
    { destruct Hs as [_ [?|(a & Ha & Hca)]]; [lia | congruence]. }
    unfold store. split.
    + split; [done | right]. eexists.
      rewrite <- Heq, list_lookup_alter_eq, Hb. simpl.
      split; [done |].
      rewrite !length_app, length_take, length_drop. lia.
    + unfold elems. rewrite <- Heq, list_lookup_alter_eq, Hb. simpl.
      rewrite take_app_le by (rewrite length_take; lia).
      rewrite take_take. f_equal. lia.
  - unfold store. split.
    + split; [done | right]. exists b.
      by rewrite list_lookup_alter_ne.
    + unfold elems. by rewrite list_lookup_alter_ne.
Qed.

Lemma append_preserves n s xs h s' h' :
  wf h s → owned n s →
  append growcap s xs h = (s', h') →
  preserves n h h'.
Proof.
  intros Hs Hown Happ t Ht Hold.
  apply (append_frame _ _ _ _ _ _ Hs Happ Ht).
  destruct Hown, Hold; lia.
Qed.
End Append.

Lemma preserves_refl n h : preserves n h h.
Proof. by intros t Ht _. Qed.

Lemma preserves_trans n h1 h2 h3 :
  preserves n h1 h2 → preserves n h2 h3 → preserves n h1 h3.
Proof.
  intros H12 H23 t Ht Hold.
  destruct (H12 t Ht Hold) as [Ht2 He2].
  destruct (H23 t Ht2 Hold) as [Ht3 He3].
  split; [done | congruence].
Qed.

Lemma alloc_preserves n h a : preserves n h (h ++ [a]).
Proof. intros t Ht _. by apply alloc_frame. Qed.

Lemma grow_loop_fits fuel newcap newLen :
  newLen ≤ grow_loop fuel newcap newLen.
Proof.
  revert newcap.
  induction fuel as [|fuel IH]; intros newcap; cbn [grow_loop]; [lia |].
  destruct (_ <=? _) eqn:E; [by apply Nat.leb_le in E | apply IH].
Qed.

Lemma nextslicecap_fits : fits nextslicecap.
Proof.
  intros newLen oldCap. unfold nextslicecap.
  destruct (Nat.ltb_spec (oldCap + oldCap) newLen); [lia |].
  destruct (Nat.ltb_spec oldCap 256); [lia |].
  apply grow_loop_fits.
Qed.

Lemma roundupsize_fits size : (size ≤ roundupsize size)%N.
Proof.
  unfold roundupsize. destruct (N.ltb_spec size 32768).
  - destruct (List.find _ _) as [c|] eqn:Hfind; simpl; [| lia].
    apply find_some in Hfind as [_ Hc]. by apply N.leb_le in Hc.
  - pose proof (N.div_mod (size + 8191) 8192 ltac:(lia)).
    pose proof (N.mod_lt (size + 8191) 8192 ltac:(lia)). lia.
Qed.

Lemma growslice_fits : fits growslice.
Proof.
  intros newLen oldCap. unfold growslice. cbv zeta.
  pose proof (nextslicecap_fits newLen oldCap) as Hn.
  set (n := nextslicecap newLen oldCap) in *.
  pose proof (roundupsize_fits (N.of_nat n * 16)) as Hr.
  set (r := roundupsize _) in *.
  assert (N.of_nat n ≤ r / 16)%N by (apply N.div_le_lower_bound; lia).
  lia.
Qed.

End SliceFacts.

(* ================================================================== *)
(** * Running computations                                             *)
(* ================================================================== *)

Module ExecFacts.
Import Go ecsmetadata prometheus ecscollector Spec.

Lemma exec_ret {A} (a : A) st Q : Q [] a st → exec (mret a) st Q.
Proof. intros HQ. by exists [], a, st. Qed.

Lemma exec_bind {A B} (m : M A) (f : A → M B) st Q :
  exec m st (fun o a st1 =>
    exec (f a) st1 (fun o' b st2 => Q (o ++ o') b st2)) →
  exec (m ≫= f) st Q.
Proof.
  intros (o & a & st1 & Hm & (o' & b & st2 & Hf & HQ)).
  exists (o ++ o'), b, st2. split; [| done].
  unfold mbind, M_bind. by rewrite Hm, Hf.
Qed.

Lemma exec_mono {A} (m : M A) st (Q Q' : list Metric → A → state → Prop) :
  exec m st Q → (∀ o a st', Q o a st' → Q' o a st') → exec m st Q'.
Proof. intros (o & a & st' & Hm & HQ) HQQ. exists o, a, st'. auto. Qed.

Lemma exec_get_pkg st Q : Q [] (pkg st) st → exec get_pkg st Q.
Proof. intros HQ. by exists [], (pkg st), st. Qed.

Lemma exec_put_pkg g st Q :
  Q [] tt (State (mem st) g (ranges st)) → exec (put_pkg g) st Q.
Proof. intros HQ. by eexists [], tt, _. Qed.

Lemma exec_spread s st Q :
  Q [] (elems (mem st) s) st → exec (spread s) st Q.
Proof. intros HQ. by eexists [], _, st. Qed.

Lemma exec_emit m st Q : Q [m] tt st → exec (emit m) st Q.
Proof. intros HQ. by exists [m], tt, st. Qed.

Lemma exec_on_heap {A} (f : heap → A * heap) st Q :
  (∀ a h, f (mem st) = (a, h) → Q [] a (State h (pkg st) (ranges st))) →
  exec (on_heap f) st Q.
Proof.
  intros HQ. unfold exec, on_heap.
  destruct (f (mem st)) as [a h] eqn:Hf. eexists [], a, _. eauto.
Qed.

Lemma exec_range order {A} (l : list A) st Q :
  Q [] (order (ranges st) A l) (State (mem st) (pkg st) (S (ranges st))) →
  exec (range order l) st Q.
Proof. intros HQ. by eexists [], _, _. Qed.

(** A loop with an invariant over the entries visited, what was sent
    and the state. *)
Lemma exec_foldM {A B} (f : B → A → M B)
    (I : list A → list Metric → B → state → Prop) l b st :
  I [] [] b st →
  (∀ done x out b st,
     x ∈ l → I done out b st →
     exec (f b x) st (fun o b' st' => I (done ++ [x]) (out ++ o) b' st')) →
  exec (foldM f l b) st (I l).
Proof.
  intros Hinit Hstep.
  cut (∀ rest done out b st,
         rest ⊆ l → I done out b st →
         exec (foldM f rest b) st
           (fun o b' st' => I (done ++ rest) (out ++ o) b' st')).
  { intros H. by apply (H l [] [] b st). }
  clear b st Hinit.
  induction rest as [|x rest IH]; intros done out b st Hsub HI; simpl.
  - apply exec_ret. by rewrite !app_nil_r.
  - apply exec_bind. eapply exec_mono.
    + apply (Hstep done x out b st); [set_solver | done].
    + intros o b' st1 HI1. simpl. eapply exec_mono.
      * apply (IH (done ++ [x]) (out ++ o) b' st1); [set_solver | done].
      * intros o' b'' st2. simpl.
        by rewrite <- !app_assoc.
Qed.

(** ** Computations that send only metrics of the right arity *)

Lemma tidy_silent {A} (m : M A) : (∀ st, (m st).1 = []) → tidy m.
Proof. intros H st. rewrite H. constructor. Qed.

Lemma tidy_ret {A} (a : A) : tidy (mret a).
Proof. by apply tidy_silent. Qed.

Lemma tidy_panic {A} : tidy (@panic A).
Proof. by apply tidy_silent. Qed.

Lemma tidy_bind {A B} (m : M A) (f : A → M B) :
  tidy m → (∀ a, tidy (f a)) → tidy (m ≫= f).
Proof.
  intros Hm Hf st. unfold mbind, M_bind.
  specialize (Hm st). destruct (m st) as [out [[a st']|]]; [| done].
  specialize (Hf a st'). destruct (f a st') as [out' r]. simpl in *.
  by apply Forall_app.
Qed.

Lemma tidy_foldM {A B} (f : B → A → M B) l b :
  (∀ b x, tidy (f b x)) → tidy (foldM f l b).
Proof.
  intros Hf. revert b. induction l as [|x l IH]; intros b; simpl.
  - apply tidy_ret.
  - apply tidy_bind; [apply Hf | apply IH].
Qed.

Lemma tidy_forM {A} (l : list A) (f : A → M unit) :
  (∀ x, tidy (f x)) → tidy (forM l f).
Proof. intros Hf. apply tidy_foldM. intros _ x. apply Hf. Qed.

Lemma tidy_send var t v s : tidy (send var t v s).
Proof.
  unfold send. apply tidy_bind; [by apply tidy_silent |]. intros g.
  apply tidy_bind; [by apply tidy_silent |]. intros vals.
  destruct (var g) as [d|]; [| apply tidy_panic].
  unfold MustNewConstMetric.
  destruct (err d); [apply tidy_panic |].
  case_decide; [| apply tidy_panic].
  destruct (forallb _ _); [| apply tidy_panic].
  intros st. simpl. by repeat constructor.
Qed.

(** ** Computations that may panic *)

Section Run.
Variable I : Metric → Prop.
Variable B : Prop.

Lemma run_ret {A} (a : A) st Q : Q [] a st → run I B (mret a) st Q.
Proof. intros HQ. split; [constructor | exact HQ]. Qed.

Lemma run_bind {A C} (m : M A) (f : A → M C) st Q :
  run I B m st (fun o a st1 =>
    run I B (f a) st1 (fun o' b st2 => Q (o ++ o') b st2)) →
  run I B (m ≫= f) st Q.
Proof.
  unfold run, mbind, M_bind.
  destruct (m st) as [o [[a st1]|]]; simpl; [| done].
  intros [Ho [Ho' HQ]].
  destruct (f a st1) as [o' r]. simpl in *.
  split; [by apply Forall_app | done].
Qed.

Lemma run_mono {A} (m : M A) st (Q Q' : list Metric → A → state → Prop) :
  run I B m st Q → (∀ o a st', Q o a st' → Q' o a st') →
  run I B m st Q'.
Proof.
  unfold run. intros [Ho HQ] HQQ. split; [done |].
  destruct (m st).2 as [[a st']|]; auto.
Qed.

(** A computation that sends nothing and does not panic. *)
Lemma run_silent {A} (m : M A) st Q :
  exec m st (fun o a st' => o = [] ∧ Q o a st') → run I B m st Q.
Proof.
  intros (o & a & st' & Hm & -> & HQ). unfold run. rewrite Hm. simpl.
  split; [constructor | done].
Qed.

Lemma run_foldM {A C} (f : C → A → M C)
    (J : list A → list Metric → C → state → Prop) l b st :
  J [] [] b st →
  (∀ done x out b st,
     x ∈ l → J done out b st →
     run I B (f b x) st (fun o b' st' => J (done ++ [x]) (out ++ o) b' st')) →
  run I B (foldM f l b) st (J l).
Proof.
  intros Hinit Hstep.
  cut (∀ rest done out b st,
         rest ⊆ l → J done out b st →
         run I B (foldM f rest b) st
           (fun o b' st' => J (done ++ rest) (out ++ o) b' st')).
  { intros H. by apply (H l [] [] b st). }
  clear b st Hinit.
  induction rest as [|x rest IH]; intros done out b st Hsub HJ; simpl.
  - apply run_ret. by rewrite !app_nil_r.
  - apply run_bind. eapply run_mono.
    + apply (Hstep done x out b st); [set_solver | done].
    + intros o b' st1 HJ1. simpl. eapply run_mono.
      * apply (IH (done ++ [x]) (out ++ o) b' st1); [set_solver | done].
      * intros o' b'' st2. simpl.
        by rewrite <- !app_assoc.
Qed.

Lemma run_forM {A} (l : list A) (f : A → M unit)
    (J : list A → list Metric → state → Prop) st :
  J [] [] st →
  (∀ done x out st,
     x ∈ l → J done out st →
     run I B (f x) st (fun o _ st' => J (done ++ [x]) (out ++ o) st')) →
  run I B (forM l f) st (fun out _ st' => J l out st').
Proof.
  intros Hinit Hstep. unfold forM.
  apply (run_foldM _ (fun done out _ st => J done out st)); [done |].
  intros done x out [] st1. apply Hstep.
Qed.

(** [send]: the metric is sent when it is acceptable, and otherwise
    the computation panics. *)
Lemma run_send var t v s st d Q :
  var (pkg st) = Some d →
  length (elems (mem st) s) = length (variableLabels d) →
  (acceptable (sample (var (pkg st)) t v (elems (mem st) s)) →
   I (sample (var (pkg st)) t v (elems (mem st) s)) ∧
   Q [sample (var (pkg st)) t v (elems (mem st) s)] tt st) →
  (¬ acceptable (sample (var (pkg st)) t v (elems (mem st) s)) → B) →
  run I B (send var t v s) st Q.
Proof.
  intros Hd Hlen Hok Hbad. unfold run, send, mbind, M_bind, get_pkg, spread.
  rewrite Hd in *. unfold MustNewConstMetric.
  unfold acceptable, sample, the in Hok, Hbad. simpl in Hok, Hbad.
  destruct (err d) as [e|] eqn:He.
  { simpl. split; [constructor |]. apply Hbad. by intros [? _]. }
  rewrite decide_True by done. unfold utf8 in *.
  destruct (forallb ValidString (elems (mem st) s)) eqn:Hu.
  - simpl. destruct Hok as [HI HQ]; [done |].
    split; [by constructor | done].
  - simpl. split; [constructor |]. apply Hbad. by intros [_ ?].
Qed.
End Run.

(** Without a panic to blame, a computation does not panic. *)
Lemma run_exec {A} I (m : M A) st Q : run I False m st Q → exec m st Q.
Proof.
  unfold run, exec. destruct (m st) as [o [[a st']|]]; simpl.
  - intros [_ HQ]. by exists o, a, st'.
  - by intros [_ []].
Qed.

End ExecFacts.

Module CollectorFacts.
Import Go ecsmetadata prometheus ecscollector Spec SliceFacts ExecFacts.

Section Collector.
Variable growcap : nat -> nat -> nat.
Variable order : nat -> forall A : Type, list A -> list A.
Variable time_Parse : string -> string -> option Time.
Hypothesis growcap_fits : fits growcap.
Hypothesis order_fair : fair order.

Local Abbreviation append := (ecscollector.append growcap).

Lemma exec_append s xs st Q :
  wf (mem st) s →
  (∀ s' h',
     Go.append growcap s xs (mem st) = (s', h') →
     wf h' s' → elems h' s' = elems (mem st) s ++ xs →
     Q [] s' (State h' (pkg st) (ranges st))) →
  exec (append s xs) st Q.
Proof.
  intros Hs HQ. apply exec_on_heap. intros s' h' Happ.
  destruct (append_result growcap growcap_fits _ _ _ _ _ Hs Happ)
    as (? & ? & _).
  by apply HQ.
Qed.

(** The loop over the custom labels builds the keys and the values in
    the order of the visit. *)
Lemma custom_loop entries st n :
  n ≤ length (mem st) →
  exec (foldM (fun '(keys, values) '(key, value) =>
                 keys ← append keys [key];
                 values ← append values [value];
                 mret (keys, values))
              entries (nil, nil)) st
    (fun out '(ks, vs) st' =>
       out = [] ∧ pkg st' = pkg st ∧
       wf (mem st') ks ∧ wf (mem st') vs ∧
       elems (mem st') ks = entries.*1 ∧
       elems (mem st') vs = entries.*2 ∧
       owned n ks ∧ owned n vs ∧
       n ≤ length (mem st') ∧ preserves n (mem st) (mem st')).
Proof.
  intros Hn.
  eapply exec_mono.
  - apply (exec_foldM _ (fun done out '(ks, vs) st' =>
       out = [] ∧ pkg st' = pkg st ∧
       wf (mem st') ks ∧ wf (mem st') vs ∧
       elems (mem st') ks = done.*1 ∧
       elems (mem st') vs = done.*2 ∧
       owned n ks ∧ owned n vs ∧
       (cap ks = 0 ∨ cap vs = 0 ∨ ptr ks ≠ ptr vs) ∧
       n ≤ length (mem st') ∧ preserves n (mem st) (mem st'))).
    + split_and!; try done; try apply wf_nil; try (by left).
    + intros done [key value] out [ks vs] st1 _
        (-> & Hpkg & Hks & Hvs & Eks & Evs & Oks & Ovs & Hsep & Hn1 & Hpre).
      pose proof (elems_length _ _ Hks) as Lks.
      pose proof (elems_length _ _ Hvs) as Lvs.
      rewrite Eks, length_fmap in Lks. rewrite Evs, length_fmap in Lvs.
      apply exec_bind, exec_append; [done |].
      intros ks' h2 Happ1 Hks' Eks'.
      destruct (append_result growcap growcap_fits _ _ _ _ _ Hks Happ1)
        as (_ & _ & Lks' & Pks').
      destruct (append_frame growcap _ _ _ _ _ vs Hks Happ1 Hvs)
        as [Hvs2 Evs2]; [lia |].
      pose proof (append_preserves growcap _ _ _ _ _ _ Hks Oks Happ1)
        as Hpre2.
      pose proof (wf_ptr _ _ Hvs) as Pvs.
      apply exec_bind, exec_append; [done |]. simpl.
      intros vs' h3 Happ2 Hvs' Evs'.
      destruct (append_result growcap growcap_fits _ _ _ _ _ Hvs2 Happ2)
        as (_ & _ & Lvs' & Pvs').
      destruct (append_frame growcap _ _ _ _ _ ks' Hvs2 Happ2 Hks')
        as [Hks3 Eks3]; [unfold owned in *; lia |].
      pose proof (append_preserves growcap _ _ _ _ _ _ Hvs2 Ovs Happ2)
        as Hpre3.
      pose proof (wf_ptr _ _ Hks') as Pks2.
      apply exec_ret. simpl.
      split_and!; try done.
      * rewrite Eks3, Eks', Eks, fmap_app. done.
      * rewrite Evs', Evs2, Evs, fmap_app. done.
      * unfold owned in *. lia.
      * unfold owned in *. lia.
      * lia.
      * lia.
      * eauto using preserves_trans.
  - intros out [ks vs] st'. tauto.
Qed.

Lemma exec_literal xs st Q :
  (∀ s h',
     h' = mem st ++ [xs] →
     wf h' s → elems h' s = xs →
     ptr s = length (mem st) ∧ len s = length xs ∧ cap s = length xs →
     Q [] s (State h' (pkg st) (ranges st))) →
  exec (on_heap (literal xs)) st Q.
Proof.
  intros HQ. apply exec_on_heap. intros s h' [= <- <-].
  apply HQ; [done | apply literal_wf | apply literal_elems | done].
Qed.

Lemma exec_append_slice s v st Q :
  wf (mem st) s →
  (∀ s' h',
     Go.append growcap s (elems (mem st) v) (mem st) = (s', h') →
     wf h' s' → elems h' s' = elems (mem st) s ++ elems (mem st) v →
     Q [] s' (State h' (pkg st) (ranges st))) →
  exec (append_slice growcap s v) st Q.
Proof.
  intros Hs HQ. unfold append_slice.
  apply exec_bind, exec_spread, exec_append; [done |]. simpl. done.
Qed.

Lemma exec_newDesc fqName help s st Q :
  Q [] (Some (NewDesc fqName help (elems (mem st) s))) st →
  exec (newDesc fqName help s) st Q.
Proof.
  intros HQ. unfold newDesc.
  apply exec_bind, exec_spread, exec_ret. done.
Qed.

Lemma NewCollector_ready cl customLabels st0 :
  exec (NewCollector growcap order cl customLabels) st0
    (fun out c st =>
       let custom := order (ranges st0) _ (map_to_list customLabels) in
       out = [] ∧ client c = cl ∧
       ready custom
         (if spare growcap (length custom) then "cpu" else "device")
         c st).
Proof.
  unfold NewCollector.
  set (custom := order (ranges st0) _ (map_to_list customLabels)).
  apply exec_bind, exec_literal. intros M0 h1 Eh1 HM0 EM0 PM0.
  apply exec_bind, exec_literal. simpl. intros S0 h2 Eh2 HS0 ES0 PS0.
  apply exec_bind, exec_literal. simpl. intros L0 h3 Eh3 HL0 EL0 PL0.
  apply exec_bind, exec_range. simpl. fold custom.
  apply exec_bind. eapply exec_mono.
  { apply (custom_loop custom _ (length h3)). simpl. lia. }
  simpl. intros out [K V] st4
    (-> & _ & HK & HV & EK & EV & OK & OV & Hn4 & Hpre).
  (* the three literals, in the store the loop left *)
  destruct PM0 as (PM0 & LM0 & CM0). simpl in LM0, CM0.
  destruct PS0 as (PS0 & LS0 & CS0). destruct PL0 as (PL0 & LL0 & CL0).
  assert (length h1 = S (length (mem st0))) as Lh1
    by (subst h1; rewrite length_app; simpl; lia).
  assert (length h2 = S (length h1)) as Lh2
    by (subst h2; rewrite length_app; simpl; lia).
  assert (length h3 = S (length h2)) as Lh3
    by (subst h3; rewrite length_app; simpl; lia).
  destruct (alloc_frame h1 ["task_arn"; "task_id"] _ HM0) as [HM0b EM0b].
  rewrite <- Eh2 in HM0b, EM0b.
  destruct (alloc_frame h2 ["container"; "task_id"] _ HM0b)
    as [HM0c EM0c].
  destruct (alloc_frame h2 ["container"; "task_id"] _ HS0)
    as [HS0c ES0c].
  rewrite <- Eh3 in HM0c, EM0c, HS0c, ES0c.
  destruct (Hpre M0 HM0c) as [HM EM]; [lia |].
  destruct (Hpre S0 HS0c) as [HS ES]; [lia |].
  destruct (Hpre L0 HL0) as [HL EL]; [lia |].
  rewrite EM0c, EM0b, EM0 in EM. rewrite ES0c, ES0 in ES.
  rewrite EL0 in EL.
  clear HM0 EM0 HM0b EM0b HM0c EM0c HS0 ES0 HS0c ES0c HL0 EL0 Hpre
    Eh1 Eh2 Eh3.
  pose proof (wf_ptr _ _ HK) as PK. pose proof (wf_ptr _ _ HV) as PV.
  pose proof (elems_length _ _ HK) as LK.
  rewrite EK, length_fmap in LK.
  unfold owned in OK, OV.
  (* metadataLabels = append(metadataLabels, customLabelKeys...) *)
  apply exec_bind, exec_append_slice; [done |]. simpl.
  intros M1 h5 AM1 HM1 EM1. rewrite EM, EK in EM1.
  destruct (append_result growcap growcap_fits _ _ _ _ _ HM AM1)
    as (_ & _ & LM1 & PM1).
  rewrite EK, length_fmap in LM1, PM1.
  destruct (append_frame growcap _ _ _ _ _ S0 HM AM1 HS) as [HS5 ES5];
    [lia |].
  destruct (append_frame growcap _ _ _ _ _ L0 HM AM1 HL) as [HL5 EL5];
    [lia |].
  destruct (append_frame growcap _ _ _ _ _ K HM AM1 HK) as [HK5 EK5];
    [lia |].
  destruct (append_frame growcap _ _ _ _ _ V HM AM1 HV) as [HV5 EV5];
    [lia |].
  rewrite ES in ES5. rewrite EL in EL5. rewrite EK in EK5.
  rewrite EV in EV5.
  (* labels = append(labels, customLabelKeys...) *)
  apply exec_bind, exec_append_slice; [done |]. simpl.
  intros L1 h6 AL1 HL1 EL1. rewrite EL5, EK5 in EL1.
  destruct (append_result growcap growcap_fits _ _ _ _ _ HL5 AL1)
    as (_ & _ & LL1 & PL1).
  rewrite EK5, length_fmap, LL0 in LL1, PL1. rewrite CL0 in PL1.
  destruct (append_frame growcap _ _ _ _ _ M1 HL5 AL1 HM1) as [HM6 EM6];
    [lia |].
  destruct (append_frame growcap _ _ _ _ _ S0 HL5 AL1 HS5) as [HS6 ES6];
    [lia |].
  destruct (append_frame growcap _ _ _ _ _ K HL5 AL1 HK5) as [HK6 EK6];
    [lia |].
  destruct (append_frame growcap _ _ _ _ _ V HL5 AL1 HV5) as [HV6 EV6];
    [lia |].
  rewrite EM1 in EM6. rewrite ES5 in ES6. rewrite EK5 in EK6.
  rewrite EV5 in EV6.
  (* svcLabels = append(svcLabels, customLabelKeys...) *)
  apply exec_bind, exec_append_slice; [done |]. simpl.
  intros S1 h7 AS1 HS1 ES1. rewrite ES6, EK6 in ES1.
  destruct (append_result growcap growcap_fits _ _ _ _ _ HS6 AS1)
    as (_ & _ & LS1 & PS1).
  rewrite EK6, length_fmap in LS1, PS1.
  destruct (append_frame growcap _ _ _ _ _ M1 HS6 AS1 HM6) as [HM7 EM7];
    [lia |].
  destruct (append_frame growcap _ _ _ _ _ L1 HS6 AS1 HL1) as [HL7 EL7];
    [lia |].
  destruct (append_frame growcap _ _ _ _ _ V HS6 AS1 HV6) as [HV7 EV7];
    [lia |].
  rewrite EM6 in EM7. rewrite EL1 in EL7. rewrite EV6 in EV7.
  pose proof (wf_ptr _ _ HL7) as PL7.
  (* networkLabels = append(labels, "device") *)
  apply exec_bind, exec_append; [done |]. simpl.
  intros N h8 AN HN EN. rewrite EL7 in EN.
  destruct (append_result growcap growcap_fits _ _ _ _ _ HL7 AN)
    as (_ & _ & LN & PN).
  simpl in LN, PN.
  destruct (append_frame growcap _ _ _ _ _ M1 HL7 AN HM7) as [HM8 EM8];
    [lia |].
  destruct (append_frame growcap _ _ _ _ _ S1 HL7 AN HS1) as [HS8 ES8];
    [lia |].
  destruct (append_frame growcap _ _ _ _ _ L1 HL7 AN HL7) as [HL8 EL8];
    [lia |].
  destruct (append_frame growcap _ _ _ _ _ V HL7 AN HV7) as [HV8 EV8];
    [lia |].
  rewrite EM7 in EM8. rewrite ES1 in ES8. rewrite EL7 in EL8.
  rewrite EV7 in EV8.
  (* cpuLabels = append(labels, "cpu") *)
  apply exec_bind, exec_append; [done |]. simpl.
  intros C h9 AC HC EC. rewrite EL8 in EC.
  destruct (append_result growcap growcap_fits _ _ _ _ _ HL8 AC)
    as (_ & _ & LC & PC).
  simpl in LC, PC.
  destruct (append_frame growcap _ _ _ _ _ M1 HL8 AC HM8) as [HM9 EM9];
    [lia |].
  destruct (append_frame growcap _ _ _ _ _ S1 HL8 AC HS8) as [HS9 ES9];
    [lia |].
  destruct (append_frame growcap _ _ _ _ _ L1 HL8 AC HL8) as [HL9 EL9];
    [lia |].
  destruct (append_frame growcap _ _ _ _ _ V HL8 AC HV8) as [HV9 EV9];
    [lia |].
  rewrite EM8 in EM9. rewrite ES8 in ES9. rewrite EL8 in EL9.
  rewrite EV8 in EV9.
  (* the shared slot *)
  assert (elems h9 N = (["container"; "task_id"] ++ custom.*1)
            ++ [if spare growcap (length custom)
                then "cpu" else "device"]) as EN9.
  { unfold spare.
    destruct PN as [(PN & CN & Lh8 & Hfit)|(PN & Lh8 & Hgrow & CN)].
    - assert (ptr C = ptr N ∧ len C = len N) as [EP EL'] by lia.
      rewrite bool_decide_eq_true_2 by (destruct PL1; lia).
      unfold elems in EC |- *. by rewrite <- EP, <- EL'.
    - rewrite bool_decide_eq_false_2 by (destruct PL1; lia).
      destruct (append_frame growcap _ _ _ _ _ N HL8 AC HN) as [_ EN9];
        [lia |].
      by rewrite EN9. }
  (* the descriptors *)
  do 17 (apply exec_bind, exec_newDesc; simpl).
  apply exec_bind, exec_put_pkg. simpl. apply exec_ret. simpl.
  split_and!; [done | done |].
  split_and!; [done | done |].
  exists L1, S1, M1, C, N. unfold catalog, metadataNames, svcNames,
    containerNames.
  by rewrite EM9, ES9, EL9, EC, EN9.
Qed.

(** ** Sending *)

(** Sending one metric for each entry of a map literal of
    descriptors, all with the label values of [s]. *)
Lemma run_send_all I B t s (l : list (option Desc * float)) st Q :
  Forall (fun '(d, _) =>
            ∃ d', d = Some d' ∧
                  length (elems (mem st) s) = length (variableLabels d'))
         l →
  (∀ d v, (d, v) ∈ l →
          acceptable (sample d t v (elems (mem st) s)) →
          I (sample d t v (elems (mem st) s))) →
  (∀ d v, (d, v) ∈ l →
          ¬ acceptable (sample d t v (elems (mem st) s)) → B) →
  Q ((fun '(d, v) => sample d t v (elems (mem st) s)) <$> l) tt st →
  run I B (forM l (fun '(d, v) => send_to d t v s)) st Q.
Proof.
  intros Hall HI HB HQ. eapply run_mono.
  - apply (run_forM I B l _ (fun done out st' =>
      st' = st ∧
      out = (fun '(d, v) => sample d t v (elems (mem st) s)) <$> done)).
    + done.
    + intros done [d v] out st1 Hin [-> ->].
      rewrite Forall_forall in Hall.
      destruct (Hall _ Hin) as (d' & -> & Hlen).
      unfold send_to. eapply run_send; [done | done | |].
      * intros Hok. split; [by apply HI |].
        split; [done |]. by rewrite fmap_app.
      * by apply HB.
  - intros out [] st' [-> ->]. done.
Qed.

(** [append(labelVals, x)] for the use at once of the result: the
    slice appended to and the slices no longer than it stay as they
    are. *)
Lemma exec_extend LV V x st Q :
  wf (mem st) LV → wf (mem st) V → len V ≤ len LV →
  (∀ s' h',
     elems h' s' = elems (mem st) LV ++ [x] →
     wf h' LV ∧ elems h' LV = elems (mem st) LV →
     wf h' V ∧ elems h' V = elems (mem st) V →
     Q [] s' (State h' (pkg st) (ranges st))) →
  exec (append LV [x]) st Q.
Proof.
  intros HLV HV Hle HQ. apply exec_append; [done |].
  intros s' h' Happ _ Es'. apply HQ; [done | |].
  - apply (append_frame growcap _ _ _ _ _ LV HLV Happ HLV). lia.
  - apply (append_frame growcap _ _ _ _ _ V HLV Happ HV). lia.
Qed.

(** ** The metrics of a container, one by one *)

Lemma cm_cpu g lv s :
  sample (cpuUtilizedDesc g) GaugeValue (cpu_usage_in_vcpu time_Parse s) lv
  ∈ container_metrics time_Parse g lv s.
Proof. unfold container_metrics, leading_metrics. set_solver. Qed.

Lemma cm_core g lv s i u :
  PercpuUsage (CPUUsage_ (CPUStats_ s)) !! i = Some u →
  sample (cpuTotalDesc g) CounterValue (float64 u / nanoSeconds)%float
    (lv ++ [Sprintf_d i])
  ∈ container_metrics time_Parse g lv s.
Proof.
  intros Hi. unfold container_metrics, leading_metrics.
  apply elem_of_app. left. apply elem_of_cons. right.
  apply elem_of_app. left.
  apply (elem_of_lookup_imap_2
           (fun i u => sample (cpuTotalDesc g) CounterValue
                         (float64 u / nanoSeconds)%float
                         (lv ++ [Sprintf_d i])) _ _ _ Hi).
Qed.

Lemma cm_util g lv s val :
  Stats (MemoryStats_ s) !! "cache" = Some val →
  sample (memoryUtilizedDesc g) GaugeValue
    ((float64 (Usage (MemoryStats_ s)) - float64 val) / bytesInMiB)%float lv
  ∈ container_metrics time_Parse g lv s.
Proof.
  intros Hc. unfold container_metrics, leading_metrics. rewrite Hc.
  apply elem_of_app. left. apply elem_of_cons. right.
  apply elem_of_app. right. by left.
Qed.

Lemma cm_gauge g lv s d v :
  (d, v) ∈ [(memUsageDesc g, float64 (Usage (MemoryStats_ s)));
            (memLimitDesc g, float64 (Limit (MemoryStats_ s)));
            (memCacheUsageDesc g, cache_value s)] →
  sample d GaugeValue v lv ∈ container_metrics time_Parse g lv s.
Proof.
  intros Hin. unfold container_metrics.
  apply elem_of_app. right. apply elem_of_app. left.
  unfold memory_gauges. rewrite !elem_of_cons, elem_of_nil in Hin.
  destruct Hin as [[= -> ->]|[[= -> ->]|[[= -> ->]|[]]]];
    rewrite !elem_of_cons; tauto.
Qed.

Lemma cm_counter g lv s iface n d v :
  (iface, n) ∈ map_to_list (Networks s) →
  (d, v) ∈ [(networkRxBytesDesc g, RxBytes n);
            (networkRxPacketsDesc g, RxPackets n);
            (networkRxDroppedDesc g, RxDropped n);
            (networkRxErrorsDesc g, RxErrors n);
            (networkTxBytesDesc g, TxBytes n);
            (networkTxPacketsDesc g, TxPackets n);
            (networkTxDroppedDesc g, TxDropped n);
            (networkTxErrorsDesc g, TxErrors n)] →
  sample d CounterValue v (lv ++ [iface])
  ∈ container_metrics time_Parse g lv s.
Proof.
  intros Hi Hin. unfold container_metrics.
  apply elem_of_app. right. apply elem_of_app. right.
  apply list_elem_of_In, in_flat_map. exists (iface, n).
  split; [by apply list_elem_of_In |]. apply list_elem_of_In.
  unfold network_counters. rewrite !elem_of_cons, elem_of_nil in Hin.
  destruct Hin as [[= -> ->]|[[= -> ->]|[[= -> ->]|[[= -> ->]|
    [[= -> ->]|[[= -> ->]|[[= -> ->]|[[= -> ->]|[]]]]]]]]];
    rewrite !elem_of_cons; tauto.
Qed.

(** The body of the loop: it sends the metrics of the container, in
    order, and panics at the first one that is not acceptable. *)
Lemma collect_container_runs I B custom dev c md container s st :
  ready custom dev c st →
  (∀ m, m ∈ container_metrics time_Parse (pkg st)
              ([Name container; TaskID md] ++ custom.*2) s →
        acceptable m → I m) →
  (∀ m, m ∈ container_metrics time_Parse (pkg st)
              ([Name container; TaskID md] ++ custom.*2) s →
        ¬ acceptable m → B) →
  run I B (collect_container growcap order time_Parse c md container s) st
    (fun out _ st' =>
       ready custom dev c st' ∧ pkg st' = pkg st ∧
       let lv := [Name container; TaskID md] ++ custom.*2 in
       ∃ gauges counters,
         out = leading_metrics time_Parse (pkg st) lv s
               ++ gauges ++ counters ∧
         gauges ≡ₚ memory_gauges (pkg st) lv s ∧
         counters ≡ₚ
           flat_map (fun '(iface, n) =>
                       network_counters (pkg st) lv iface n)
                    (map_to_list (Networks s))).
Proof.
  intros (HV & EV & (l0 & s0 & m0 & cp0 & n0 & Hpkg)) HI HB.
  match goal with |- run _ _ _ _ ?Q => set (Post := Q) end.
  set (V := customLabelValues c) in *.
  set (lv := [Name container; TaskID md] ++ custom.*2) in *.
  set (g := pkg st) in *.
  unfold collect_container.
  (* labelVals *)
  apply run_bind, run_silent, exec_literal.
  intros LV0 h1 Eh1 HLV0 ELV0 (PLV0 & _ & _). split; [done |].
  destruct (alloc_frame (mem st) [Name container; TaskID md] _ HV)
    as [HV1 EV1].
  rewrite <- Eh1 in HV1, EV1. pose proof (wf_ptr _ _ HV) as PV.
  apply run_bind, run_silent, exec_append_slice; [done |].
  cbn [mem pkg ranges]. fold V.
  intros LV h2 ALV HLV ELV. split; [done |].
  rewrite ELV0, EV1, EV in ELV. fold lv in ELV.
  destruct (append_frame growcap _ _ _ _ _ V HLV0 ALV HV1) as [HV2 EV2];
    [lia |].
  rewrite EV1, EV in EV2.
  pose proof (elems_length _ _ HLV) as LLV.
  pose proof (elems_length _ _ HV2) as LV2.
  rewrite ELV in LLV. rewrite EV2 in LV2. unfold lv in LLV.
  rewrite length_app, length_fmap in LLV. rewrite length_fmap in LV2.
  simpl in LLV.
  assert (len V ≤ len LV) as Hle by lia.
  clear HLV0 ELV0 PLV0 HV1 EV1 ALV Eh1 HV EV PV LV0 h1.
  (* the CPU gauge *)
  apply run_bind. eapply run_send.
  { cbn [pkg]. fold g. rewrite Hpkg. reflexivity. }
  { cbn [mem]. rewrite ELV. unfold lv. lengths. }
  2: { cbn [mem pkg]. fold g. rewrite ELV. apply HB, cm_cpu. }
  cbn [mem pkg ranges]. fold g. rewrite ELV.
  intros Hok. split; [apply HI; [apply cm_cpu | done] |].
  (* the per-core counters *)
  apply run_bind. eapply run_mono.
  { apply (run_forM I B _ _ (fun done out st' =>
      (wf (mem st') V ∧ elems (mem st') V = custom.*2 ∧
       wf (mem st') LV ∧ elems (mem st') LV = lv ∧ pkg st' = g) ∧
      out = (fun '(i, u) =>
               sample (cpuTotalDesc g) CounterValue
                 (float64 u / nanoSeconds)%float (lv ++ [Sprintf_d i]))
            <$> done)).
    - done.
    - intros done [i u] out st1 Hin ((HV1 & EV1 & HLV1 & ELV1 & Hg1) & ->).
      apply elem_of_lookup_imap_1 in Hin as (i' & u' & [= <- <-] & Hiu).
      apply run_bind, run_silent, (exec_extend LV V); [done | done | done |].
      intros vals h' Evals [HLV' ELV'] [HV' EV']. split; [done |].
      eapply run_send.
      { cbn [pkg]. rewrite Hg1, Hpkg. reflexivity. }
      { cbn [mem]. rewrite Evals, ELV1. unfold lv. lengths. }
      2: { cbn [mem pkg]. rewrite Hg1, Evals, ELV1. by apply HB, cm_core. }
      cbn [mem pkg ranges]. rewrite Hg1, Evals, ELV1.
      intros Hok1. split; [apply HI; [by apply cm_core | done] |].
      split; [split_and!; congruence |].
      by rewrite fmap_app. }
  cbn beta. intros out1 [] st1 ((HV1 & EV1 & HLV1 & ELV1 & Hg1) & ->).
  (* the memory gauge *)
  apply run_bind.
  eapply (run_mono _ _ _ _ (fun o cv st2 =>
    st2 = st1 ∧ cv = cache_value s ∧
    o = match Stats (MemoryStats_ s) !! "cache" with
        | Some val =>
            [sample (memoryUtilizedDesc g) GaugeValue
               ((float64 (Usage (MemoryStats_ s)) - float64 val)
                / bytesInMiB)%float lv]
        | None => []
        end)).
  { unfold cache_value.
    destruct (Stats (MemoryStats_ s) !! "cache") as [val|] eqn:Hcache.
    - apply run_bind. eapply run_send.
      { rewrite Hg1, Hpkg. reflexivity. }
      { rewrite ELV1. unfold lv. lengths. }
      2: { rewrite Hg1, ELV1. by apply HB, cm_util. }
      rewrite Hg1, ELV1.
      intros Hok2. split; [apply HI; [by apply cm_util | done] |].
      apply run_ret. done.
    - by apply run_ret. }
  cbn beta. intros o2 cv st2 (-> & -> & ->).
  (* the three memory gauges *)
  apply run_bind, run_silent, exec_get_pkg. split; [done |].
  apply run_bind, run_silent, exec_range. split; [done |].
  cbn [mem pkg ranges]. rewrite Hg1.
  apply run_bind, run_send_all.
  { cbn [mem]. apply Forall_forall. intros [d v] Hin.
    rewrite (order_fair _ _ _), Hpkg in Hin.
    rewrite ELV1. unfold lv.
    rewrite !elem_of_cons, elem_of_nil in Hin.
    destruct Hin as [[= -> ->]|[[= -> ->]|[[= -> ->]|[]]]];
      (eexists; split; [reflexivity |]);
      lengths. }
  { cbn [mem]. rewrite ELV1. intros d v Hin Hok3.
    rewrite (order_fair _ _ _) in Hin.
    apply HI; [by apply cm_gauge | done]. }
  { cbn [mem]. rewrite ELV1. intros d v Hin Hbad.
    rewrite (order_fair _ _ _) in Hin.
    by eapply HB; [apply cm_gauge |]. }
  cbn [mem]. rewrite ELV1.
  match goal with
  | |- context [?f <$> order ?n ?A ?l] => set (gs := f <$> order n A l)
  end.
  (* the network counters *)
  apply run_bind, run_silent, exec_range. split; [done |].
  cbn [mem pkg ranges].
  eapply run_mono.
  { apply (run_forM I B _ _ (fun done out st' =>
      (wf (mem st') V ∧ elems (mem st') V = custom.*2 ∧
       wf (mem st') LV ∧ elems (mem st') LV = lv ∧ pkg st' = g) ∧
      out ≡ₚ flat_map (fun '(iface, n) =>
                         network_counters g lv iface n) done)).
    - done.
    - intros done [iface netStats] out st3 Hif
        ((HV3 & EV3 & HLV3 & ELV3 & Hg3) & Hout).
      rewrite (order_fair _ _ _) in Hif.
      apply run_bind, run_silent, (exec_extend LV V);
        [done | done | done |].
      intros nlv h' Enlv [HLV' ELV'] [HV' EV']. split; [done |].
      apply run_bind, run_silent, exec_get_pkg. split; [done |].
      apply run_bind, run_silent, exec_range. split; [done |].
      cbn [mem pkg ranges]. rewrite Hg3.
      apply run_send_all.
      { cbn [mem]. apply Forall_forall. intros [d v] Hin.
        rewrite (order_fair _ _ _), Hpkg in Hin.
        rewrite Enlv, ELV3. unfold lv.
        rewrite !elem_of_cons, elem_of_nil in Hin.
        destruct Hin as [[= -> ->]|[[= -> ->]|[[= -> ->]|[[= -> ->]|
          [[= -> ->]|[[= -> ->]|[[= -> ->]|[[= -> ->]|[]]]]]]]]];
          (eexists; split; [reflexivity |]);
          lengths. }
      { cbn [mem]. rewrite Enlv, ELV3. intros d v Hin Hok4.
        rewrite (order_fair _ _ _) in Hin.
        apply HI; [by eapply cm_counter | done]. }
      { cbn [mem]. rewrite Enlv, ELV3. intros d v Hin Hbad.
        rewrite (order_fair _ _ _) in Hin.
        by eapply HB; [eapply cm_counter |]. }
      cbn [mem pkg ranges]. rewrite Enlv, ELV3.
      split; [split_and!; congruence |].
      rewrite flat_map_app. cbn [flat_map]. rewrite !app_nil_l, app_nil_r.
      apply Permutation_app; [done |].
      rewrite (order_fair _ _ _). done. }
  cbn beta. intros out3 [] st3 ((HV3 & EV3 & HLV3 & ELV3 & Hg3) & Hout).
  unfold Post. split_and!.
  - split_and!; [done | done |]. exists l0, s0, m0, cp0, n0. congruence.
  - done.
  - cbn zeta. exists gs, out3. split_and!.
    + unfold leading_metrics. rewrite fmap_imap.
      rewrite !app_nil_l. cbn [app]. rewrite <- !app_assoc.
      reflexivity.
    + unfold gs. rewrite (order_fair _ _ _). done.
    + rewrite Hout. apply Permutation_flat_map. apply order_fair.
Qed.

(** A literal followed by the label values of the collector. *)
Lemma run_label_values {A} I B xs c (k : slice → M A) custom dev st Q :
  ready custom dev c st →
  (∀ LV st',
     ready custom dev c st' → pkg st' = pkg st →
     wf (mem st') LV → elems (mem st') LV = xs ++ custom.*2 →
     run I B (k LV) st' Q) →
  run I B (on_heap (literal xs) ≫= fun LV0 =>
           append_slice growcap LV0 (customLabelValues c) ≫= k) st Q.
Proof.
  intros (HV & EV & Hcat) Hk.
  apply run_bind, run_silent, exec_literal.
  intros LV0 h1 Eh1 HLV0 ELV0 (PLV0 & _ & _). split; [done |].
  destruct (alloc_frame (mem st) xs _ HV) as [HV1 EV1].
  rewrite <- Eh1 in HV1, EV1. pose proof (wf_ptr _ _ HV) as PV.
  apply run_bind, run_silent, exec_append_slice; [done |].
  cbn [mem pkg ranges].
  intros LV h2 ALV HLV ELV. split; [done |].
  rewrite ELV0, EV1, EV in ELV.
  destruct (append_frame growcap _ _ _ _ _ _ HLV0 ALV HV1) as [HV2 EV2];
    [lia |].
  rewrite EV1, EV in EV2.
  eapply run_mono.
  - apply (Hk LV (State h2 (pkg st) (ranges st))); try done.
  - intros o a st'. by rewrite !app_nil_l.
Qed.

Lemma Collect_metadata_error c st md e :
  RetrieveTaskMetadata (client c) = Some (md, Some e) →
  Collect growcap order time_Parse c st = ([], Some (tt, st)).
Proof. intros H. unfold Collect. rewrite H. by destruct md. Qed.

(** What a scrape does when the metadata request succeeds: it sends
    the expected metrics in order, and panics at the first of them
    that is not acceptable. *)
Lemma Collect_runs I B custom dev c md st :
  ready custom dev c st →
  RetrieveTaskMetadata (client c) = Some (Some md, None) →
  (∀ m, m ∈ expected time_Parse (pkg st) md
              (RetrieveTaskStats (client c)) custom.*2 →
        acceptable m → I m) →
  (∀ m, m ∈ expected time_Parse (pkg st) md
              (RetrieveTaskStats (client c)) custom.*2 →
        ¬ acceptable m → B) →
  run I B (Collect growcap order time_Parse c) st
    (fun out _ st' =>
       ready custom dev c st' ∧ pkg st' = pkg st ∧
       match RetrieveTaskStats (client c) with
       | (_, Some _) => out = task_metrics (pkg st) md custom.*2
       | (stats, None) =>
           ∃ blocks,
             out = task_metrics (pkg st) md custom.*2 ++ concat blocks ∧
             Forall2 (block_of time_Parse (pkg st) md stats custom.*2)
                     (Containers md) blocks
       end).
Proof.
  intros Hready Hmd HI HB. unfold Collect. rewrite Hmd.
  match goal with |- run _ _ _ _ ?Q => set (Post := Q) end.
  pose proof Hready as (_ & _ & (l0 & s0 & m0 & cp0 & n0 & Hpkg)).
  set (g := pkg st) in *.
  set (E := expected time_Parse g md (RetrieveTaskStats (client c))
              custom.*2) in *.
  assert (∀ m, m ∈ task_metrics g md custom.*2 → m ∈ E) as Htask.
  { intros m Hm. unfold E, expected. apply elem_of_app. by left. }
  unfold task_metrics in Htask.
  (* ecs_metadata_info *)
  apply (run_label_values I B _ c _ custom dev); [done |].
  intros MV st1 Hready1 Hg1 HMV EMV.
  apply run_bind. eapply run_send.
  { rewrite Hg1. fold g. rewrite Hpkg. reflexivity. }
  { rewrite EMV. lengths. }
  2: { rewrite Hg1, EMV. fold g. apply HB, Htask. set_solver. }
  rewrite Hg1, EMV. fold g.
  intros Hok1. split; [apply HI; [apply Htask; set_solver | done] |].
  (* the service limits *)
  apply (run_label_values I B _ c _ custom dev); [done |].
  intros SV st2 Hready2 Hg2 HSV ESV. rewrite Hg1 in Hg2. fold g in Hg2.
  apply run_bind. eapply run_send.
  { rewrite Hg2, Hpkg. reflexivity. }
  { rewrite ESV. lengths. }
  2: { rewrite Hg2, ESV. apply HB, Htask. set_solver. }
  rewrite Hg2, ESV.
  intros Hok2. split; [apply HI; [apply Htask; set_solver | done] |].
  apply run_bind. eapply run_send.
  { rewrite Hg2, Hpkg. reflexivity. }
  { rewrite ESV. lengths. }
  2: { rewrite Hg2, ESV. apply HB, Htask. set_solver. }
  rewrite Hg2, ESV.
  intros Hok3. split; [apply HI; [apply Htask; set_solver | done] |].
  unfold Post. clear Post. clear Htask.
  unfold E, expected in HI, HB. clear E.
  destruct (RetrieveTaskStats (client c)) as [stats [e|]].
  { apply run_ret. split_and!; done. }
  (* the containers *)
  assert (∀ container s m,
            container ∈ Containers md →
            stats !! DockerID container = Some (Some s) →
            m ∈ container_metrics time_Parse g
                  ([Name container; TaskID md] ++ custom.*2) s →
            m ∈ task_metrics g md custom.*2
                ++ flat_map (fun container =>
                     match mjoin (stats !! DockerID container) with
                     | Some s =>
                         container_metrics time_Parse g
                           ([Name container; TaskID md] ++ custom.*2) s
                     | None => []
                     end) (Containers md)) as Hblock.
  { intros container s m Hc Hs Hm. apply elem_of_app. right.
    apply list_elem_of_In, in_flat_map. exists container.
    split; [by apply list_elem_of_In |]. rewrite Hs.
    cbn [mjoin option_join]. by apply list_elem_of_In. }
  eapply run_mono.
  { apply (run_forM I B _ _ (fun done out st' =>
      ready custom dev c st' ∧ pkg st' = g ∧
      ∃ blocks,
        out = concat blocks ∧
        Forall2 (block_of time_Parse g md stats custom.*2) done blocks)).
    - split_and!; [done | done |]. by exists [].
    - intros done container out st3 Hc (Hready3 & Hg3 & blocks & -> & Hbl).
      destruct (stats !! DockerID container) as [[s|]|] eqn:Hs.
      + eapply run_mono.
        { apply (collect_container_runs I B custom dev); [done | |].
          - rewrite Hg3. intros m Hm. apply HI. by eapply Hblock.
          - rewrite Hg3. intros m Hm. apply HB. by eapply Hblock. }
        cbn beta. intros o [] st4 (Hready4 & Hg4 & Hblock4).
        split_and!; [done | congruence |].
        exists (blocks ++ [o]). split.
        * rewrite concat_app. simpl. by rewrite app_nil_r.
        * apply Forall2_app; [done |]. constructor; [| done].
          unfold block_of. rewrite Hs, <- Hg3. done.
      + apply run_ret. split_and!; [done | done |].
        exists (blocks ++ [[]]). split.
        * rewrite concat_app. simpl. by rewrite !app_nil_r.
        * apply Forall2_app; [done |]. constructor; [| done].
          unfold block_of. by rewrite Hs.
      + apply run_ret. split_and!; [done | done |].
        exists (blocks ++ [[]]). split.
        * rewrite concat_app. simpl. by rewrite !app_nil_r.
        * apply Forall2_app; [done |]. constructor; [| done].
          unfold block_of. by rewrite Hs. }
  cbn beta. intros out [] st3 (Hready3 & Hg3 & blocks & -> & Hbl).
  split_and!; [done | done |]. by exists blocks.
Qed.

(** What a scrape sends when the metadata request succeeds and every
    expected metric is acceptable. *)
Lemma Collect_sends custom dev c md st :
  ready custom dev c st →
  RetrieveTaskMetadata (client c) = Some (Some md, None) →
  Forall acceptable
    (expected time_Parse (pkg st) md (RetrieveTaskStats (client c))
       custom.*2) →
  exec (Collect growcap order time_Parse c) st
    (fun out _ st' =>
       ready custom dev c st' ∧ pkg st' = pkg st ∧
       match RetrieveTaskStats (client c) with
       | (_, Some _) => out = task_metrics (pkg st) md custom.*2
       | (stats, None) =>
           ∃ blocks,
             out = task_metrics (pkg st) md custom.*2 ++ concat blocks ∧
             Forall2 (block_of time_Parse (pkg st) md stats custom.*2)
                     (Containers md) blocks
       end).
Proof.
  intros Hready Hmd Hok. apply (run_exec (fun _ => True)).
  apply (Collect_runs _ _ custom dev c md); [done | done | done |].
  intros m Hm Hbad. rewrite Forall_forall in Hok. by apply Hbad, Hok.
Qed.

(** Whether it returns or panics, a scrape sends only expected
    metrics, and they are acceptable. *)
Lemma Collect_sends_only custom dev c md st :
  ready custom dev c st →
  RetrieveTaskMetadata (client c) = Some (Some md, None) →
  Forall (fun m =>
            m ∈ expected time_Parse (pkg st) md
                  (RetrieveTaskStats (client c)) custom.*2
            ∧ acceptable m)
         (Collect growcap order time_Parse c st).1.
Proof.
  intros Hready Hmd.
  by destruct (Collect_runs
                 (fun m => m ∈ expected time_Parse (pkg st) md
                                 (RetrieveTaskStats (client c)) custom.*2
                           ∧ acceptable m)
                 True custom dev c md st Hready Hmd) as [H _].
Qed.

(** A scrape that returned: what it sent and the state it left. *)
Lemma Collect_returned custom dev c md st out st' :
  ready custom dev c st →
  RetrieveTaskMetadata (client c) = Some (Some md, None) →
  Collect growcap order time_Parse c st = (out, Some (tt, st')) →
  Forall acceptable out ∧
  ready custom dev c st' ∧ pkg st' = pkg st ∧
  match RetrieveTaskStats (client c) with
  | (_, Some _) => out = task_metrics (pkg st) md custom.*2
  | (stats, None) =>
      ∃ blocks,
        out = task_metrics (pkg st) md custom.*2 ++ concat blocks ∧
        Forall2 (block_of time_Parse (pkg st) md stats custom.*2)
                (Containers md) blocks
  end.
Proof.
  intros Hready Hmd Hc.
  destruct (Collect_runs acceptable True custom dev c md st Hready Hmd)
    as [Ho HQ]; [done | done |].
  rewrite Hc in Ho, HQ. simpl in Ho, HQ. done.
Qed.

(** ** Acceptable metrics *)

Lemma ValidString_Sprintf_d i : ValidString (Sprintf_d i) = true.
Proof.
  unfold Sprintf_d. induction (Nat.to_uint i); simpl; done.
Qed.

Lemma utf8_app l1 l2 : utf8 (l1 ++ l2) = utf8 l1 && utf8 l2.
Proof. apply forallb_app. Qed.

Lemma utf8_elem l x : utf8 l = true → x ∈ l → ValidString x = true.
Proof.
  unfold utf8. rewrite forallb_forall. intros H Hx.
  by apply H, list_elem_of_In.
Qed.

Lemma error_free_the g d :
  error_free g = true → d ∈ descriptors g → err (the d) = None.
Proof.
  unfold error_free. rewrite forallb_forall. intros H Hd.
  apply list_elem_of_In, H in Hd. destruct d as [d|]; [| done].
  by apply bool_decide_eq_true in Hd.
Qed.

(** With descriptors without error and label values and documents in
    UTF-8, every expected metric is acceptable. *)
Lemma sound_acceptable custom dev c st md stats e :
  ready custom dev c st →
  sound_task c st md = true →
  (e = None → utf8_stats stats = true) →
  Forall acceptable
    (expected time_Parse (pkg st) md (stats, e) custom.*2).
Proof.
  intros (_ & EV & _) Hs Hstats. unfold sound_task in Hs.
  rewrite EV in Hs.
  apply andb_prop in Hs as [Hs Hmd]. apply andb_prop in Hs as [Hg Hvals].
  unfold utf8_metadata in Hmd. apply andb_prop in Hmd as [Hstr Hnames].
  set (g := pkg st) in *.
  assert (∀ d t v lv,
            d ∈ descriptors g → utf8 lv = true →
            acceptable (sample d t v lv)) as Hsample.
  { intros d t v lv Hd Hlv. split; [| done]. by apply (error_free_the g). }
  assert (utf8 [TaskARN md; TaskID md] = true) as Hsvc.
  { unfold utf8. simpl. rewrite andb_true_r.
    rewrite (utf8_elem _ (TaskARN md) Hstr) by listed.
    by rewrite (utf8_elem _ (TaskID md) Hstr) by listed. }
  unfold expected. apply Forall_app. split.
  { unfold task_metrics.
    repeat apply Forall_cons_2; try apply Forall_nil_2;
      apply Hsample; try listed;
      rewrite utf8_app; by apply andb_true_intro. }
  destruct e as [e|]; [constructor |]. specialize (Hstats eq_refl).
  apply Forall_forall. intros m Hm.
  apply list_elem_of_In, in_flat_map in Hm as (container & Hc & Hm).
  apply list_elem_of_In in Hc, Hm.
  destruct (stats !! DockerID container) as [[s|]|] eqn:Hsc;
    cbn [mjoin option_join] in Hm; try by apply elem_of_nil in Hm.
  assert (utf8 ([Name container; TaskID md] ++ custom.*2) = true) as Hlv.
  { rewrite utf8_app. apply andb_true_intro. split; [| done].
    unfold utf8. simpl. rewrite andb_true_r.
    rewrite (utf8_elem _ (Name container) Hnames)
      by (by apply list_elem_of_fmap_2).
    by rewrite (utf8_elem _ (TaskID md) Hstr) by listed. }
  set (lv := [Name container; TaskID md] ++ custom.*2) in *.
  assert (∀ iface n, (iface, n) ∈ map_to_list (Networks s) →
                     ValidString iface = true) as Hif.
  { intros iface n Hi. unfold utf8_stats in Hstats.
    rewrite forallb_forall in Hstats.
    specialize (Hstats (DockerID container, Some s)). simpl in Hstats.
    eapply utf8_elem.
    - apply Hstats, list_elem_of_In. by apply elem_of_map_to_list.
    - by apply (list_elem_of_fmap_2 fst _ (iface, n)). }
  unfold container_metrics, leading_metrics, memory_gauges in Hm.
  rewrite !elem_of_app, elem_of_cons, elem_of_app in Hm.
  destruct Hm as [[-> | [Hm | Hm]] | [Hm | Hm]].
  - apply Hsample; [listed | done].
  - apply elem_of_lookup_imap_1 in Hm as (i & u & -> & _).
    apply Hsample; [listed |].
    rewrite utf8_app, Hlv. unfold utf8. simpl.
    by rewrite ValidString_Sprintf_d.
  - destruct (Stats (MemoryStats_ s) !! "cache");
      [| by apply elem_of_nil in Hm].
    apply list_elem_of_singleton in Hm as ->.
    apply Hsample; [listed | done].
  - rewrite !elem_of_cons, elem_of_nil in Hm.
    destruct Hm as [-> | [-> | [-> | []]]];
      (apply Hsample; [listed | done]).
  - apply list_elem_of_In, in_flat_map in Hm as ([iface n] & Hi & Hm).
    apply list_elem_of_In in Hi, Hm.
    assert (utf8 (lv ++ [iface]) = true) as Hlvi.
    { rewrite utf8_app, Hlv. unfold utf8. simpl.
      by rewrite (Hif iface n Hi). }
    unfold network_counters in Hm. cbv zeta in Hm.
    rewrite !elem_of_cons, elem_of_nil in Hm.
    destruct Hm as [-> | [-> | [-> | [-> | [-> | [-> | [-> | [-> | []]]]]]]]];
      (apply Hsample; [listed | done]).
Qed.

(** Whatever the state and the documents, a scrape sends only metrics
    with as many label values as label names. *)
Lemma Collect_tidy c : tidy (Collect growcap order time_Parse c).
Proof.
  assert (∀ A (f : heap → A * heap), tidy (on_heap f)) as Hheap.
  { intros A f. apply tidy_silent. intros st. unfold on_heap.
    by destruct (f (mem st)). }
  assert (∀ s v, tidy (append_slice growcap s v)) as Happ.
  { intros s v. apply tidy_bind; [by apply tidy_silent |]. intros xs.
    apply Hheap. }
  assert (∀ A (l : list A), tidy (range order l)) as Hrange
    by (intros; by apply tidy_silent).
  assert (tidy get_pkg) as Hpkg by (by apply tidy_silent).
  assert (∀ t s (l : list (option Desc * float)),
            tidy (forM l (fun '(d, v) => send_to d t v s))) as Hall.
  { intros t s l. apply tidy_forM. intros [d v]. apply tidy_send. }
  unfold Collect.
  destruct (RetrieveTaskMetadata (client c)) as [[[md|] [e|]]|];
    try apply tidy_ret; try apply tidy_panic.
  repeat first
    [ apply tidy_bind; [first [apply Hheap | apply Happ | apply tidy_send] |];
      intros ? ].
  destruct (RetrieveTaskStats (client c)) as [stats [e|]];
    [apply tidy_ret |].
  apply tidy_forM. intros container.
  destruct (stats !! DockerID container) as [[s|]|]; try apply tidy_ret.
  unfold collect_container.
  apply tidy_bind; [apply Hheap |]. intros LV0.
  apply tidy_bind; [apply Happ |]. intros LV.
  apply tidy_bind; [apply tidy_send |]. intros _.
  apply tidy_bind.
  { apply tidy_forM. intros [i u].
    apply tidy_bind; [apply Hheap |]. intros vals. apply tidy_send. }
  intros _. apply tidy_bind.
  { destruct (Stats (MemoryStats_ s) !! "cache"); [| apply tidy_ret].
    apply tidy_bind; [apply tidy_send |]. intros _. apply tidy_ret. }
  intros cacheValue.
  apply tidy_bind; [apply Hpkg |]. intros g.
  apply tidy_bind; [apply Hrange |]. intros gauges.
  apply tidy_bind; [apply Hall |]. intros _.
  apply tidy_bind; [apply Hrange |]. intros ifaces.
  apply tidy_forM. intros [iface netStats].
  apply tidy_bind; [apply Hheap |]. intros nlv.
  apply tidy_bind; [apply Hpkg |]. intros g'.
  apply tidy_bind; [apply Hrange |]. intros counters.
  apply Hall.
Qed.

End Collector.
End CollectorFacts.

(* ================================================================== *)
(** * The metadata client                                              *)
(* ================================================================== *)

Module ClientSpec.
Import Go ecsmetadata Fixtures Fixtures2 Spec.

Lemma Split_cons c s sep :
  Split (String c s) sep =
  if Ascii.eqb c sep then EmptyString :: Split s sep
  else match Split s sep with
       | x :: xs => String c x :: xs
       | [] => []
       end.
Proof.
  unfold Split. simpl. destruct (fields sep s) as [x xs].
  by destruct (Ascii.eqb c sep).
Qed.

Lemma Split_nonempty s sep : Split s sep ≠ [].
Proof. unfold Split. by destruct (fields sep s). Qed.

(** A string without the separator is one field. *)
Lemma Split_none s sep : contains s sep = false → Split s sep = [s].
Proof.
  induction s as [|c s IH]; [done |]. simpl. intros H.
  apply orb_false_iff in H as [Hc Hs].
  rewrite Split_cons, Hc, (IH Hs). done.
Qed.

(** Splitting distributes over a separator. *)
Lemma Split_app pre s sep :
  Split (pre +:+ String sep s) sep = Split pre sep ++ Split s sep.
Proof.
  induction pre as [|c pre IH].
  - change (EmptyString +:+ String sep s) with (String sep s).
    rewrite Split_cons, Ascii.eqb_refl. done.
  - change (String c pre +:+ String sep s)
      with (String c (pre +:+ String sep s)).
    rewrite !Split_cons, IH. destruct (Ascii.eqb c sep); [done |].
    pose proof (Split_nonempty pre sep).
    by destruct (Split pre sep).
Qed.

Lemma last_Split_app pre s sep :
  contains s sep = false →
  last (Split (pre +:+ String sep s) sep) = Some s.
Proof.
  intros H. rewrite Split_app, (Split_none s sep H). apply last_snoc.
Qed.

(** The last field is empty only for the empty string and for a string
    that ends in the separator. *)
Lemma last_Split_nonempty s sep id :
  s ≠ EmptyString → ends_with s sep = false →
  last (Split s sep) = Some id → id ≠ EmptyString.
Proof.
  revert id. induction s as [|c s IH]; [done |]. intros id _ Hend.
  rewrite Split_cons. destruct s as [|d s].
  - simpl in Hend. rewrite Hend. cbn. by intros [= <-].
  - assert (ends_with (String d s) sep = false) as Hend' by done.
    pose proof (Split_nonempty (String d s) sep) as Hne.
    specialize (IH id ltac:(done) Hend').
    destruct (Ascii.eqb c sep).
    + destruct (Split (String d s) sep) as [|x xs] eqn:E; [done |].
      exact IH.
    + destruct (Split (String d s) sep) as [|x xs] eqn:E; [done |].
      destruct xs as [|y ys]; [by intros [= <-] | exact IH].
Qed.

Lemma SetTaskID_returns t :
  ∃ id, last (Split (TaskARN t) "/") = Some id ∧
        SetTaskID t = Some (withTaskID t id).
Proof.
  unfold SetTaskID. pose proof (Split_nonempty (TaskARN t) "/") as Hne.
  destruct (last (Split (TaskARN t) "/")) as [id|] eqn:E.
  - by exists id.
  - by apply last_None in E.
Qed.

(** The request always yields a document, with its task ID set. *)
Lemma RetrieveTaskMetadata_returns c :
  ∃ md, RetrieveTaskMetadata c
        = Some (Some md,
                (request_TaskMetadata c (endpoint c +:+ "/task")
                   zeroTaskMetadata).2).
Proof.
  unfold RetrieveTaskMetadata.
  destruct (request_TaskMetadata c _ _) as [out err]. simpl.
  destruct (SetTaskID_returns out) as (id & _ & ->). by eexists.
Qed.

(** C7.  For a task ARN [pre/id] whose [id] has no ['/'], that is, whose
    last ['/'] is the one before [id], [SetTaskID] returns the document
    with the task ID [id] and every other field as it was; for an ARN
    with no ['/'] the task ID it sets is the whole ARN. *)
Theorem SetTaskID_last_segment (t : TaskMetadata) :
  (∀ pre id,
     TaskARN t = pre +:+ String "/" id → contains id "/" = false →
     ∃ t', SetTaskID t = Some t' ∧ TaskID t' = id ∧
           same_but_TaskID t t') ∧
  (contains (TaskARN t) "/" = false →
   ∃ t', SetTaskID t = Some t' ∧ TaskID t' = TaskARN t ∧
         same_but_TaskID t t').
Proof.
  unfold SetTaskID. split.
  - intros pre id E Hid. rewrite E, last_Split_app by done.
    eexists. split; [reflexivity |]. split; [reflexivity |].
    by repeat split.
  - intros H. rewrite Split_none by done.
    eexists. split; [reflexivity |]. split; [reflexivity |].
    by repeat split.
Qed.

Lemma SetTaskID_last_segment_witness :
  (∃ t', SetTaskID task = Some t' ∧
         TaskID t' = "158d1c8083dd49d6b527399fd6414f5c" ∧
         same_but_TaskID task t') ∧
  (∃ t', SetTaskID bare = Some t' ∧
         TaskID t' = "158d1c8083dd49d6b527399fd6414f5c" ∧
         TaskID bare = "stale" ∧ same_but_TaskID bare t').
Proof.
  split.
  - apply (proj1 (SetTaskID_last_segment task)
             "arn:aws:ecs:us-west-2:111122223333:task/default"
             "158d1c8083dd49d6b527399fd6414f5c");
      reflexivity.
  - destruct (proj2 (SetTaskID_last_segment bare) eq_refl)
      as (t' & Hset & Hid & Hsame).
    exists t'. split; [exact Hset |]. split; [exact Hid |].
    split; [reflexivity | exact Hsame].
Defined.

(** C8, as stated, fails: a non-empty ARN that ends in ['/'] gets the
    empty task ID. *)
Lemma nonempty_ARN_empty_task_id :
  let t := {| Cluster := ""; TaskARN := "arn:aws:ecs:us-west-2:1:task/";
              TaskID := "old"; Family := ""; Revision := "";
              DesiredStatus := ""; KnownStatus := "";
              Limits := {| CPU := 0; Memory := 0 |};
              PullStartedAt := ""; PullStoppedAt := "";
              AvailabilityZone := ""; LaunchType := "";
              Containers := [] |} in
  TaskARN t ≠ "" ∧ TaskID <$> SetTaskID t = Some "".
Proof. split; [discriminate | reflexivity]. Qed.

(** C8, amended.  For a task ARN that is non-empty and does not end in
    ['/'], [SetTaskID] sets a non-empty task ID. *)
Theorem SetTaskID_nonempty (t : TaskMetadata) :
  TaskARN t ≠ "" → ends_with (TaskARN t) "/" = false →
  ∃ t', SetTaskID t = Some t' ∧ TaskID t' ≠ "".
Proof.
  intros Hne Hend.
  destruct (SetTaskID_returns t) as (id & Hid & ->).
  eexists. split; [done |]. simpl.
  by eapply last_Split_nonempty.
Qed.

Lemma SetTaskID_nonempty_witness :
  ∃ t', SetTaskID task = Some t' ∧ TaskID t' ≠ "".
Proof.
  apply (SetTaskID_nonempty task); [discriminate | reflexivity].
Defined.

(** C10.  [RetrieveTaskMetadata] never panics and never returns a [nil]
    document: it returns, next to the error of the request, whatever
    the request left in the document (the zero document when it failed
    before decoding, a partly filled one when decoding failed), with
    the task ID set to the last segment of the ARN of that document
    and every other field as the request left it. *)
Theorem RetrieveTaskMetadata_always_document (c : Client) :
  let r := request_TaskMetadata c (endpoint c +:+ "/task")
             zeroTaskMetadata in
  ∃ md,
    RetrieveTaskMetadata c = Some (Some md, r.2) ∧
    last (Split (TaskARN r.1) "/") = Some (TaskID md) ∧
    same_but_TaskID r.1 md.
Proof.
  cbn zeta. unfold RetrieveTaskMetadata.
  destruct (request_TaskMetadata c _ _) as [out err]. simpl.
  destruct (SetTaskID_returns out) as (id & Hid & ->). simpl.
  eexists. split; [reflexivity |]. split; [exact Hid |].
  by repeat split.
Qed.

Lemma RetrieveTaskMetadata_always_document_witness :
  (∃ md,
     RetrieveTaskMetadata half_decoded
     = Some (Some md, Some "unexpected end of JSON input") ∧
     TaskID md = "158d1c8083dd49d6b527399fd6414f5c" ∧
     TaskID partly = "" ∧ same_but_TaskID partly md) ∧
  (∃ md,
     RetrieveTaskMetadata unreachable
     = Some (Some md, Some "connection refused") ∧
     TaskID md = "" ∧ same_but_TaskID zeroTaskMetadata md).
Proof.
  split.
  - destruct (RetrieveTaskMetadata_always_document half_decoded)
      as (md & Hr & Hid & Hsame).
    exists md. split; [exact Hr |].
    split; [| split; [reflexivity | exact Hsame]].
    vm_compute in Hid. by injection Hid.
  - destruct (RetrieveTaskMetadata_always_document unreachable)
      as (md & Hr & Hid & Hsame).
    exists md. split; [exact Hr |]. split; [| exact Hsame].
    vm_compute in Hid. by injection Hid.
Defined.

End ClientSpec.

(* ================================================================== *)
(** * The collector                                                    *)
(* ================================================================== *)

Module CollectorSpec.
Import Go ecsmetadata prometheus ecscollector Spec Fixtures Fixtures2.
Import SliceFacts ExecFacts CollectorFacts ClientSpec.

Lemma Permutation_short {A} (l k : list A) :
  l ≡ₚ k → length k ≤ 1 → l = k.
Proof.
  intros Hp Hk. destruct k as [|x [|y k]]; simpl in Hk; [| | lia].
  - by apply Permutation_nil_r.
  - by apply Permutation_singleton_r.
Qed.

Lemma named_app name l k :
  named name (l ++ k) = named name l ++ named name k.
Proof. apply filter_app. Qed.

Lemma named_perm_short name l k :
  l ≡ₚ k → length (named name k) ≤ 1 → named name l = named name k.
Proof.
  intros Hp Hk. apply Permutation_short; [| done].
  unfold named. by rewrite Hp.
Qed.

Lemma named_flat_map {A} name (f : A → list Metric) l :
  (∀ x, named name (f x) = []) → named name (flat_map f l) = [].
Proof.
  intros Hf. induction l as [|x l IH]; [done |]. simpl.
  by rewrite named_app, Hf, IH.
Qed.

Lemma named_imap {A} name (f : nat → A → Metric) l :
  (∀ i x, fqName (desc (f i x)) ≠ name) → named name (imap f l) = [].
Proof.
  intros Hf. revert f Hf. induction l as [|x l IH]; intros f Hf; [done |].
  rewrite imap_cons. unfold named. rewrite filter_cons_False by apply Hf.
  apply IH. intros i y. apply Hf.
Qed.

Section Collector.
Variable growcap : nat -> nat -> nat.
Variable order : nat -> forall A : Type, list A -> list A.
Variable time_Parse : string -> string -> option Time.
Hypothesis growcap_fits : fits growcap.
Hypothesis order_fair : fair order.

Local Abbreviation Collect := (ecscollector.Collect growcap order time_Parse).
Local Abbreviation NewCollector := (ecscollector.NewCollector growcap order).
Local Abbreviation running := (Spec.running growcap order time_Parse).

(** A running collector is ready. *)
Lemma running_ready c st :
  running c st → ∃ custom dev, ready custom dev c st.
Proof.
  induction 1 as [customLabels st0 st Hnew|st out st' _ IH Hc].
  - destruct (NewCollector_ready growcap order growcap_fits
                (client c) customLabels st0)
      as (out & c' & st1 & Heq & _ & _ & Hready).
    rewrite Hnew in Heq. injection Heq as <- <- <-. eauto.
  - destruct IH as (custom & dev & Hready). exists custom, dev.
    destruct (RetrieveTaskMetadata_returns (client c)) as (md & Hmd).
    destruct (request_TaskMetadata _ _ _).2 as [e|].
    + rewrite (Collect_metadata_error growcap order time_Parse
                 _ _ _ _ Hmd) in Hc.
      by injection Hc as <- <-.
    + by destruct (Collect_returned growcap order time_Parse growcap_fits
                     order_fair custom dev c md st out st' Hready Hmd Hc)
        as (_ & Hready' & _).
Qed.

(** What a scrape sends when both requests succeed and the library
    accepts its metrics. *)
Lemma Collect_blocks c st md stats out r :
  running c st →
  RetrieveTaskMetadata (client c) = Some (Some md, None) →
  RetrieveTaskStats (client c) = (stats, None) →
  accepts time_Parse c st md (stats, None) →
  Collect c st = (out, r) →
  ∃ blocks,
    out = task_metrics (pkg st) md (elems (mem st) (customLabelValues c))
          ++ concat blocks ∧
    is_Some r ∧
    Forall2 (block_of time_Parse (pkg st) md stats
               (elems (mem st) (customLabelValues c)))
            (Containers md) blocks.
Proof.
  intros Hrun Hmd Hstats Hok Hc.
  destruct (running_ready c st Hrun) as (custom & dev & Hready).
  destruct (Collect_sends growcap order time_Parse growcap_fits
              order_fair custom dev c md st Hready Hmd)
    as (out' & [] & st1 & Heq & _ & _ & Hout).
  { rewrite Hstats. unfold accepts in Hok.
    destruct Hready as (_ & EV & _). by rewrite <- EV. }
  rewrite Hstats in Hout. destruct Hout as (blocks & -> & Hbl).
  destruct Hready as (_ & EV & _). rewrite EV.
  exists blocks. split_and!; [congruence | | done].
  rewrite Heq in Hc. injection Hc as _ <-. done.
Qed.

(** The metrics of one name in the blocks of the containers, when a
    block has at most one of that name, among its leading metrics and
    memory gauges. *)
Lemma named_blocks name (e : list string → ContainerStats → option Metric)
    g md stats vals containers blocks :
  (∀ lv s gauges,
     gauges ≡ₚ memory_gauges g lv s →
     named name (leading_metrics time_Parse g lv s ++ gauges)
     = option_list (e lv s)) →
  (∀ lv iface n, named name (network_counters g lv iface n) = []) →
  Forall2 (block_of time_Parse g md stats vals) containers blocks →
  named name (concat blocks)
  = omap (fun container =>
            mjoin (stats !! DockerID container)
            ≫= e ([Name container; TaskID md] ++ vals))
         containers.
Proof.
  intros Hlead Hnet. induction 1 as [|container block cs bs Hb _ IH];
    [done |].
  simpl. rewrite named_app, IH. clear IH.
  unfold block_of in Hb.
  destruct (stats !! DockerID container) as [[s|]|]; simpl;
    [| by rewrite Hb | by rewrite Hb].
  destruct Hb as (gauges & counters & -> & Hg & Hc).
  rewrite app_assoc, named_app, (Hlead _ _ _ Hg).
  assert (named name counters = []) as ->.
  { apply (named_perm_short name) in Hc.
    - rewrite Hc. apply named_flat_map. by intros [].
    - rewrite named_flat_map; [simpl; lia |]. by intros []. }
  rewrite app_nil_r. by destruct (e _ s).
Qed.

Lemma named_task name custom dev l s m cp n md vals :
  name ≠ "ecs_metadata_info" → name ≠ "ecs_svc_cpu_limit" →
  name ≠ "ecs_svc_memory_limit_bytes" →
  named name (task_metrics (catalog custom dev l s m cp n) md vals) = [].
Proof.
  intros H1 H2 H3. unfold named, task_metrics.
  rewrite !filter_cons_False, filter_nil; [done | ..];
    cbn; congruence.
Qed.

(** The names in the parts of a block, for a catalog. *)
Section Names.
Variables (keys : list string) (dev : string) (l s m cp n : slice).
Local Abbreviation g := (catalog keys dev l s m cp n).

Lemma named_counters name lv iface ns :
  name ∈ ["ecs_cpu_utilized"; "ecs_memory_utilized_mega_bytes";
          "ecs_memory_cache_usage"] →
  named name (network_counters g lv iface ns) = [].
Proof.
  rewrite !elem_of_cons, elem_of_nil.
  intros [->|[->|[->|[]]]]; by names.
Qed.

Lemma named_cpu_utilized lv st gauges :
  gauges ≡ₚ memory_gauges g lv st →
  named "ecs_cpu_utilized"
    (leading_metrics time_Parse g lv st ++ gauges)
  = [sample (cpuUtilizedDesc g) GaugeValue
       (cpu_usage_in_vcpu time_Parse st) lv].
Proof.
  intros Hg. rewrite named_app, (named_perm_short _ _ _ Hg);
    [| names; simpl; lia].
  unfold leading_metrics. rewrite app_comm_cons, named_app.
  change (?x :: ?k) with ([x] ++ k) at 1. rewrite named_app.
  rewrite named_imap by (intros; discriminate).
  destruct (Stats (MemoryStats_ st) !! "cache"); by names.
Qed.

Lemma named_memory_utilized lv st gauges :
  gauges ≡ₚ memory_gauges g lv st →
  named "ecs_memory_utilized_mega_bytes"
    (leading_metrics time_Parse g lv st ++ gauges)
  = option_list
      (val ← Stats (MemoryStats_ st) !! "cache";
       Some (sample (memoryUtilizedDesc g) GaugeValue
               ((float64 (Usage (MemoryStats_ st)) - float64 val)
                / bytesInMiB)%float lv)).
Proof.
  intros Hg. rewrite named_app, (named_perm_short _ _ _ Hg);
    [| names; simpl; lia].
  unfold leading_metrics. rewrite app_comm_cons, named_app.
  change (?x :: ?k) with ([x] ++ k) at 1. rewrite named_app.
  rewrite named_imap by (intros; discriminate).
  destruct (Stats (MemoryStats_ st) !! "cache"); by names.
Qed.

Lemma named_memory_cache_usage lv st gauges :
  gauges ≡ₚ memory_gauges g lv st →
  named "ecs_memory_cache_usage"
    (leading_metrics time_Parse g lv st ++ gauges)
  = [sample (memCacheUsageDesc g) GaugeValue (cache_value st) lv].
Proof.
  intros Hg. rewrite named_app, (named_perm_short _ _ _ Hg);
    [| names; simpl; lia].
  unfold leading_metrics. rewrite app_comm_cons, named_app.
  change (?x :: ?k) with ([x] ++ k) at 1. rewrite named_app.
  rewrite named_imap by (intros; discriminate).
  destruct (Stats (MemoryStats_ st) !! "cache"); by names.
Qed.
End Names.

(** The CPU gauge and the two memory gauges that depend on the cache
    entry, in the task metrics followed by the blocks of the
    containers. *)
Lemma singled_out_blocks keys dev l0 s0 m0 cp0 n0 md stats vals blocks :
  let g := catalog keys dev l0 s0 m0 cp0 n0 in
  let lv container := [Name container; TaskID md] ++ vals in
  let out := task_metrics g md vals ++ concat blocks in
  Forall2 (block_of time_Parse g md stats vals) (Containers md) blocks →
  named "ecs_cpu_utilized" out
  = omap (fun container =>
            s ← mjoin (stats !! DockerID container);
            Some (sample (cpuUtilizedDesc g) GaugeValue
                    (cpu_usage_in_vcpu time_Parse s) (lv container)))
         (Containers md) ∧
  named "ecs_memory_utilized_mega_bytes" out
  = omap (fun container =>
            s ← mjoin (stats !! DockerID container);
            val ← Stats (MemoryStats_ s) !! "cache";
            Some (sample (memoryUtilizedDesc g) GaugeValue
                    ((float64 (Usage (MemoryStats_ s)) - float64 val)
                     / bytesInMiB)%float (lv container)))
         (Containers md) ∧
  named "ecs_memory_cache_usage" out
  = omap (fun container =>
            s ← mjoin (stats !! DockerID container);
            Some (sample (memCacheUsageDesc g) GaugeValue
                    (cache_value s) (lv container)))
         (Containers md).
Proof.
  intros g lv out Hbl. subst out lv g.
  pose (g' := catalog keys dev l0 s0 m0 cp0 n0).
  assert (∀ name, name ∈ ["ecs_cpu_utilized";
            "ecs_memory_utilized_mega_bytes"; "ecs_memory_cache_usage"] →
          ∀ lv iface ns,
            named name (network_counters g' lv iface ns) = []) as Hnet.
  { intros name Hn lv' iface ns. by apply named_counters. }
  assert ("ecs_cpu_utilized" ∈ ["ecs_cpu_utilized";
            "ecs_memory_utilized_mega_bytes"; "ecs_memory_cache_usage"])
    as In1 by repeat constructor.
  assert ("ecs_memory_utilized_mega_bytes" ∈ ["ecs_cpu_utilized";
            "ecs_memory_utilized_mega_bytes"; "ecs_memory_cache_usage"])
    as In2 by repeat constructor.
  assert ("ecs_memory_cache_usage" ∈ ["ecs_cpu_utilized";
            "ecs_memory_utilized_mega_bytes"; "ecs_memory_cache_usage"])
    as In3 by repeat constructor.
  split_and!.
  - rewrite named_app, named_task by discriminate.
    rewrite (named_blocks _ (fun lv s =>
      Some (sample (cpuUtilizedDesc g') GaugeValue
              (cpu_usage_in_vcpu time_Parse s) lv))
      _ _ _ _ _ _ (named_cpu_utilized _ _ _ _ _ _ _)
      (Hnet _ In1) Hbl).
    reflexivity.
  - rewrite named_app, named_task by discriminate.
    rewrite (named_blocks _ (fun lv s =>
      val ← Stats (MemoryStats_ s) !! "cache";
      Some (sample (memoryUtilizedDesc g') GaugeValue
              ((float64 (Usage (MemoryStats_ s)) - float64 val)
               / bytesInMiB)%float lv))
      _ _ _ _ _ _ (named_memory_utilized _ _ _ _ _ _ _)
      (Hnet _ In2) Hbl).
    reflexivity.
  - rewrite named_app, named_task by discriminate.
    rewrite (named_blocks _ (fun lv s =>
      Some (sample (memCacheUsageDesc g') GaugeValue
              (cache_value s) lv))
      _ _ _ _ _ _ (named_memory_cache_usage _ _ _ _ _ _ _)
      (Hnet _ In3) Hbl).
    reflexivity.
Qed.

(** The expected metrics are the task metrics and one block for each
    container. *)
Lemma expected_blocks g md stats vals :
  ∃ blocks,
    expected time_Parse g md (stats, None) vals
    = task_metrics g md vals ++ concat blocks ∧
    Forall2 (block_of time_Parse g md stats vals) (Containers md) blocks.
Proof.
  unfold expected.
  induction (Containers md) as [|container cs (blocks & E & Hbl)].
  - by exists [].
  - apply app_inv_head in E.
    exists (match mjoin (stats !! DockerID container) with
            | Some s => container_metrics time_Parse g
                          ([Name container; TaskID md] ++ vals) s
            | None => []
            end :: blocks).
    split; [cbn [flat_map concat]; by rewrite E |]. constructor; [| done].
    unfold block_of.
    destruct (stats !! DockerID container) as [[s|]|]; try done.
    cbn [mjoin option_join]. by eexists _, _.
Qed.

(** What a scrape sends when both requests succeed, whether it returns
    or panics: only expected metrics. *)
Lemma Collect_expected c st md stats :
  running c st →
  RetrieveTaskMetadata (client c) = Some (Some md, None) →
  RetrieveTaskStats (client c) = (stats, None) →
  Forall (fun m =>
            m ∈ expected time_Parse (pkg st) md (stats, None)
                  (elems (mem st) (customLabelValues c))
            ∧ acceptable m)
         (Collect c st).1.
Proof.
  intros Hrun Hmd Hstats.
  destruct (running_ready c st Hrun) as (custom & dev & Hready).
  pose proof (Collect_sends_only growcap order time_Parse growcap_fits
                order_fair custom dev c md st Hready Hmd) as H.
  rewrite Hstats in H. destruct Hready as (_ & EV & _). by rewrite EV.
Qed.

Lemma named_sent name (out expected : list Metric) :
  Forall (fun m => m ∈ expected) out →
  ∀ m, m ∈ named name out → m ∈ named name expected.
Proof.
  rewrite Forall_forall. intros H m Hm. unfold named in *.
  apply list_elem_of_filter in Hm as [Hn Hm].
  apply list_elem_of_filter. split; [done | by apply H].
Qed.

(** An expected metric is a task metric or a metric of a container of
    the metadata, computed from the stats under its Docker ID. *)
Lemma expected_elem g md stats vals m :
  m ∈ expected time_Parse g md (stats, None) vals →
  m ∈ task_metrics g md vals ∨
  ∃ container s,
    container ∈ Containers md ∧
    stats !! DockerID container = Some (Some s) ∧
    m ∈ container_metrics time_Parse g
          ([Name container; TaskID md] ++ vals) s.
Proof.
  unfold expected. rewrite elem_of_app. intros [H | H]; [by left |].
  right. apply list_elem_of_In, in_flat_map in H as (container & Hc & Hm).
  apply list_elem_of_In in Hc, Hm. exists container.
  destruct (stats !! DockerID container) as [[s|]|];
    cbn [mjoin option_join] in Hm; try by apply elem_of_nil in Hm.
  by exists s.
Qed.

(** The CPU gauge and the two memory gauges that depend on the cache
    entry, in a scrape whose two requests succeed: what is sent of
    them, and all of them when the library accepts the metrics of the
    scrape. *)
Lemma singled_out c st md stats out r :
  running c st →
  RetrieveTaskMetadata (client c) = Some (Some md, None) →
  RetrieveTaskStats (client c) = (stats, None) →
  Collect c st = (out, r) →
  let g := pkg st in
  let lv container :=
    [Name container; TaskID md] ++ elems (mem st) (customLabelValues c) in
  let cpu :=
    omap (fun container =>
            s ← mjoin (stats !! DockerID container);
            Some (sample (cpuUtilizedDesc g) GaugeValue
                    (cpu_usage_in_vcpu time_Parse s) (lv container)))
         (Containers md) in
  let utilized :=
    omap (fun container =>
            s ← mjoin (stats !! DockerID container);
            val ← Stats (MemoryStats_ s) !! "cache";
            Some (sample (memoryUtilizedDesc g) GaugeValue
                    ((float64 (Usage (MemoryStats_ s)) - float64 val)
                     / bytesInMiB)%float (lv container)))
         (Containers md) in
  let cache :=
    omap (fun container =>
            s ← mjoin (stats !! DockerID container);
            Some (sample (memCacheUsageDesc g) GaugeValue
                    (cache_value s) (lv container)))
         (Containers md) in
  ((∀ m, m ∈ named "ecs_cpu_utilized" out → m ∈ cpu) ∧
   (∀ m, m ∈ named "ecs_memory_utilized_mega_bytes" out →
         m ∈ utilized) ∧
   (∀ m, m ∈ named "ecs_memory_cache_usage" out → m ∈ cache)) ∧
  (accepts time_Parse c st md (stats, None) →
   named "ecs_cpu_utilized" out = cpu ∧
   named "ecs_memory_utilized_mega_bytes" out = utilized ∧
   named "ecs_memory_cache_usage" out = cache) ∧
  fqName (the (cpuUtilizedDesc g)) = "ecs_cpu_utilized" ∧
  fqName (the (memoryUtilizedDesc g))
  = "ecs_memory_utilized_mega_bytes" ∧
  fqName (the (memCacheUsageDesc g)) = "ecs_memory_cache_usage".
Proof.
  intros Hrun Hmd Hstats Hc g lv cpu utilized cache.
  destruct (running_ready c st Hrun)
    as (custom & dev & _ & _ & (l0 & s0 & m0 & cp0 & n0 & Hpkg)).
  unfold cpu, utilized, cache, lv, g. clear cpu utilized cache lv g.
  rewrite Hpkg. split; [| split; [| by split_and!]].
  - pose proof (Collect_expected c st md stats Hrun Hmd Hstats) as Hsent.
    rewrite Hc, Hpkg in Hsent. simpl in Hsent.
    apply (Forall_impl _ (fun m => m ∈ expected time_Parse
                 (catalog custom.*1 dev l0 s0 m0 cp0 n0) md (stats, None)
                 (elems (mem st) (customLabelValues c)))) in Hsent;
      [| tauto].
    destruct (expected_blocks (catalog custom.*1 dev l0 s0 m0 cp0 n0)
                md stats (elems (mem st) (customLabelValues c)))
      as (blocks & E & Hbl).
    rewrite E in Hsent.
    destruct (singled_out_blocks _ _ _ _ _ _ _ _ _ _ _ Hbl)
      as (E1 & E2 & E3).
    rewrite <- E1, <- E2, <- E3.
    split_and!; by apply named_sent.
  - intros Hok.
    destruct (Collect_blocks c st md stats out r Hrun Hmd Hstats Hok Hc)
      as (blocks & -> & _ & Hbl).
    rewrite Hpkg in Hbl |- *.
    exact (singled_out_blocks _ _ _ _ _ _ _ _ _ _ _ Hbl).
Qed.

(** C1, amended.  When both requests succeed, every
    [ecs_cpu_utilized] gauge that a scrape sends, whether it returns
    or panics, is the gauge of a container of the metadata with a
    stats entry, with the value
    [(current_total_usage - previous_total_usage) / elapsed * 1024]
    computed as the program does: the difference in [uint64] (the
    plain difference when the current total is not below the previous
    one, and [2^64] more when it is), the elapsed nanoseconds as
    [read.Sub(preread)], the quotient and the product in [float64].
    When the library accepts every metric that the scrape is to send
    (its descriptor without error, its label values in UTF-8), the
    gauges sent are, in the order of the metadata, exactly one for
    each container with a stats entry.  For the totals
    2,000,000,000 and 1,000,000,000 and timestamps one second apart
    the value is 1024. *)
Theorem cpu_utilized_value c st md stats out r :
  let rate (cur prev : Z) (read preread : Time) : float :=
    (float64 (uint64_sub cur prev) / float64 (Sub read preread)
     * 1024)%float in
  let gauges :=
    omap (fun container =>
            s ← mjoin (stats !! DockerID container);
            Some {| desc := the (cpuUtilizedDesc (pkg st));
                    valueType := GaugeValue;
                    value :=
                      rate (TotalUsage (CPUUsage_ (CPUStats_ s)))
                           (TotalUsage (CPUUsage_ (PreCPUStats s)))
                           (default zeroTime
                              (time_Parse timeLayout (Read s)))
                           (default zeroTime
                              (time_Parse timeLayout (PreRead s)));
                    labelValues :=
                      [Name container; TaskID md]
                      ++ elems (mem st) (customLabelValues c) |})
         (Containers md) in
  running c st →
  RetrieveTaskMetadata (client c) = Some (Some md, None) →
  RetrieveTaskStats (client c) = (stats, None) →
  Collect c st = (out, r) →
  (∀ m, m ∈ named "ecs_cpu_utilized" out → m ∈ gauges)
  ∧ (accepts time_Parse c st md (stats, None) →
     named "ecs_cpu_utilized" out = gauges)
  ∧ fqName (the (cpuUtilizedDesc (pkg st))) = "ecs_cpu_utilized"
  ∧ (∀ cur prev,
       (0 ≤ prev ≤ cur)%Z → (cur < 2 ^ 64)%Z →
       uint64_sub cur prev = (cur - prev)%Z)
  ∧ (∀ cur prev,
       (0 ≤ cur < prev)%Z → (prev < 2 ^ 64)%Z →
       uint64_sub cur prev = (cur - prev + 2 ^ 64)%Z)
  ∧ ∀ read preread,
      (read - preread = 1000000000)%Z →
      rate 2000000000%Z 1000000000%Z read preread = 1024%float.
Proof.
  intros rate gauges Hrun Hmd Hstats Hc.
  destruct (singled_out c st md stats out r Hrun Hmd Hstats Hc)
    as ((Hcpu & _ & _) & Hexact & Hname & _).
  split_and!; [exact Hcpu | | exact Hname | | |].
  - intros Hok. by destruct (Hexact Hok) as (H & _ & _).
  - intros cur prev Hle Hlt. unfold uint64_sub.
    apply Z.mod_small. lia.
  - intros cur prev Hle Hlt. unfold uint64_sub.
    symmetry. apply (Z.mod_unique_pos _ _ (-1)); lia.
  - intros read preread Hd. unfold rate, Sub. rewrite Hd. reflexivity.
Qed.

(** C2, amended.  When both requests succeed, every
    [ecs_memory_utilized_mega_bytes] gauge that a scrape sends is that
    of a container whose stats have a ["cache"] entry, with the value
    [(usage - cache) / (1024*1024)], so that none is sent for a
    container whose stats have no such entry; and every
    [ecs_memory_cache_usage] gauge sent is that of a container with
    stats, with the cache entry as value, or 0 without one.  When the
    library accepts every metric that the scrape is to send (its
    descriptor without error, its label values in UTF-8), these
    gauges are all sent, in the order of the metadata: one
    [ecs_memory_utilized_mega_bytes] for each container whose stats
    have a ["cache"] entry, and one [ecs_memory_cache_usage] for each
    container with stats. *)
Theorem memory_utilized_needs_cache c st md stats out r :
  let lv container :=
    [Name container; TaskID md] ++ elems (mem st) (customLabelValues c) in
  let utilized :=
    omap (fun container =>
            s ← mjoin (stats !! DockerID container);
            cache ← Stats (MemoryStats_ s) !! "cache";
            Some {| desc := the (memoryUtilizedDesc (pkg st));
                    valueType := GaugeValue;
                    value :=
                      ((float64 (Usage (MemoryStats_ s)) - float64 cache)
                       / (1024 * 1024))%float;
                    labelValues := lv container |})
         (Containers md) in
  let cache_usage :=
    omap (fun container =>
            s ← mjoin (stats !! DockerID container);
            Some {| desc := the (memCacheUsageDesc (pkg st));
                    valueType := GaugeValue;
                    value :=
                      match Stats (MemoryStats_ s) !! "cache" with
                      | Some cache => float64 cache
                      | None => 0%float
                      end;
                    labelValues := lv container |})
         (Containers md) in
  running c st →
  RetrieveTaskMetadata (client c) = Some (Some md, None) →
  RetrieveTaskStats (client c) = (stats, None) →
  Collect c st = (out, r) →
  (∀ m, m ∈ named "ecs_memory_utilized_mega_bytes" out → m ∈ utilized)
  ∧ (∀ m, m ∈ named "ecs_memory_cache_usage" out → m ∈ cache_usage)
  ∧ (accepts time_Parse c st md (stats, None) →
     named "ecs_memory_utilized_mega_bytes" out = utilized
     ∧ named "ecs_memory_cache_usage" out = cache_usage)
  ∧ fqName (the (memoryUtilizedDesc (pkg st)))
    = "ecs_memory_utilized_mega_bytes"
  ∧ fqName (the (memCacheUsageDesc (pkg st))) = "ecs_memory_cache_usage".
Proof.
  intros lv utilized cache_usage Hrun Hmd Hstats Hc.
  destruct (singled_out c st md stats out r Hrun Hmd Hstats Hc)
    as ((_ & Hutil & Hcache) & Hexact & _ & Hn1 & Hn2).
  split_and!; [exact Hutil | exact Hcache | | exact Hn1 | exact Hn2].
  intros Hok. by destruct (Hexact Hok) as (_ & H1 & H2).
Qed.

(** C3, amended.  When the metadata request returns an error, a scrape sends
    nothing, returns without a panic and leaves the state as it was.
    When the metadata request succeeds and the stats request returns
    an error, a scrape of a running collector sends no metric but the
    [ecs_metadata_info] metric and the two service limits; and when
    the library accepts these three (their descriptors without error,
    their label values in UTF-8), it sends them and returns. *)
Theorem fetch_failures c st :
  (∀ e,
     (request_TaskMetadata (client c) (endpoint (client c) +:+ "/task")
        zeroTaskMetadata).2 = Some e →
     Collect c st = ([], Some (tt, st))) ∧
  (∀ md e,
     running c st →
     RetrieveTaskMetadata (client c) = Some (Some md, None) →
     (RetrieveTaskStats (client c)).2 = Some e →
     let task := task_metrics (pkg st) md
                   (elems (mem st) (customLabelValues c)) in
     Forall (fun m => m ∈ task) (Collect c st).1 ∧
     (fun m => fqName (desc m)) <$> task
     = ["ecs_metadata_info"; "ecs_svc_cpu_limit";
        "ecs_svc_memory_limit_bytes"] ∧
     (accepts time_Parse c st md (RetrieveTaskStats (client c)) →
      ∃ st', Collect c st = (task, Some (tt, st')))).
Proof.
  split.
  - intros e He.
    destruct (RetrieveTaskMetadata_returns (client c)) as (md & Hmd).
    rewrite He in Hmd.
    by eapply Collect_metadata_error.
  - intros md e Hrun Hmd Hstats task.
    destruct (running_ready c st Hrun) as (custom & dev & Hready).
    destruct (RetrieveTaskStats (client c)) as [stats err] eqn:Hanswer.
    simpl in Hstats. subst err.
    pose proof Hready as (_ & EV & (l0 & s0 & m0 & cp0 & n0 & Hpkg)).
    split_and!.
    + pose proof (Collect_sends_only growcap order time_Parse growcap_fits
                    order_fair custom dev c md st Hready Hmd) as H.
      rewrite Hanswer in H. unfold expected in H.
      rewrite app_nil_r, <- EV in H.
      eapply Forall_impl; [exact H |]. by intros m [Hm _].
    + unfold task. by rewrite Hpkg.
    + intros Hok. unfold accepts in Hok. rewrite EV in Hok.
      destruct (Collect_sends growcap order time_Parse growcap_fits
                  order_fair custom dev c md st Hready Hmd)
        as (out & [] & st1 & Heq & _ & _ & Hout).
      { by rewrite Hanswer. }
      rewrite Hanswer in Hout. subst out. unfold task. rewrite EV.
      by exists st1.
Qed.



(** C6, amended.  One construction visits the custom-label mapping
    once, in some order [custom] of its entries: every descriptor gets
    its fixed label names followed by the keys in that order (and then
    the name of the core or interface label), and the collector keeps
    the values in that same order. *)
Theorem custom_labels_in_one_order cl customLabels st0 :
  ∃ c st custom dev,
    NewCollector cl customLabels st0 = ([], Some (c, st)) ∧
    client c = cl ∧
    custom ≡ₚ map_to_list customLabels ∧
    elems (mem st) (customLabelValues c) = custom.*2 ∧
    ∃ l s m cp n, pkg st = catalog custom.*1 dev l s m cp n.
Proof.
  destruct (NewCollector_ready growcap order growcap_fits
              cl customLabels st0)
    as (out & c & st & Heq & -> & Hcl & (_ & EV & Hcat)).
  exists c, st, (order (ranges st0) _ (map_to_list customLabels)).
  eexists. split_and!; [done | done | apply order_fair | done | done].
Qed.
End Collector.

(** ** Runs *)

Lemma in_order_fair : fair in_order.
Proof. by intros n A l. Qed.

Lemma reversed_fair : fair reversed.
Proof. intros n A l. apply reverse_Permutation. Qed.

Lemma boot_running order cl m :
  fair order →
  running growslice order parseTimestamp
    (boot order cl m).1 (boot order cl m).2 ∧
  client (boot order cl m).1 = cl.
Proof.
  intros Hfair. unfold boot.
  destruct (NewCollector_ready growslice order growslice_fits
              cl m initial)
    as (out & c & st & Heq & -> & Hcl & _).
  rewrite Heq. simpl. split; [| done].
  apply (running_new _ _ _ _ m initial). by rewrite Hcl.
Qed.

Lemma cpu_utilized_value_witness :
  value <$> named "ecs_cpu_utilized"
    (Collect growslice in_order parseTimestamp
       (boot in_order cl1 {["env" := "prod"]}).1
       (boot in_order cl1 {["env" := "prod"]}).2).1
  = [1024%float].
Proof.
  destruct (boot_running in_order cl1 {["env" := "prod"]} in_order_fair)
    as [Hrun Hcl].
  set (c := (boot in_order cl1 {["env" := "prod"]}).1) in *.
  set (st := (boot in_order cl1 {["env" := "prod"]}).2) in *.
  destruct (cpu_utilized_value growslice in_order parseTimestamp
              growslice_fits in_order_fair c st
              (withTaskID task "158d1c8083dd49d6b527399fd6414f5c")
              {["d1" := Some webStats]}
              (Collect growslice in_order parseTimestamp c st).1
              (Collect growslice in_order parseTimestamp c st).2 Hrun)
    as (_ & H & _);
    [by rewrite Hcl | by rewrite Hcl | apply surjective_pairing |].
  rewrite H by (apply (bool_decide_unpack _); vm_compute; reflexivity).
  vm_compute. reflexivity.
Defined.

(** C1, as stated, fails: for a container whose current total,
    1,000,000,000, is below the previous one, 2,000,000,000, read one
    second apart, the formula of the claim gives -1024, and the gauge
    that the scrape sends is positive: the difference is taken in
    [uint64], where it wraps around. *)
Lemma cpu_delta_wraps_around :
  let s := resetStats in
  let cur := TotalUsage (CPUUsage_ (CPUStats_ s)) in
  let prev := TotalUsage (CPUUsage_ (PreCPUStats s)) in
  let elapsed := time_diff_since_last_read parseTimestamp s in
  let claimed := (float64 (cur - prev) / float64 elapsed * 1024)%float in
  let r := scrape growslice in_order cl5 ∅ in
  r.2 = true ∧ elapsed = 1000000000%Z ∧ (claimed =? -1024)%float = true ∧
  ∃ v, value <$> named "ecs_cpu_utilized" r.1 = [v] ∧
       (0 <? v)%float = true ∧ v ≠ claimed.
Proof.
  cbn zeta. split; [vm_compute; reflexivity |].
  split; [vm_compute; reflexivity |]. split; [vm_compute; reflexivity |].
  eexists. split; [vm_compute; reflexivity |].
  split; [vm_compute; reflexivity |].
  intros H. apply (f_equal (fun x => (0 <? x)%float)) in H.
  vm_compute in H. discriminate.
Qed.

(** C2, as stated, fails: with the custom label [cluster=x] the
    descriptor of [ecs_metadata_info] has the label name [cluster]
    twice and so carries an error; the scrape panics at its first
    metric, and sends no [ecs_memory_cache_usage] gauge for the
    container whose stats have no cache entry. *)
Lemma no_cache_usage_after_refusal :
  let r := scrape growslice in_order cl2 {["cluster" := "x"]} in
  let st := (boot in_order cl2 {["cluster" := "x"]}).2 in
  container_of "d0" "sidecar" ∈ Containers task ∧
  RetrieveTaskStats cl2
  = ({["d0" := Some noCacheStats; "d1" := Some webStats]}, None) ∧
  Stats (MemoryStats_ noCacheStats) !! "cache" = None ∧
  (variableLabels <$> metadataDesc (pkg st)
   = Some ["cluster"; "task_arn"; "family"; "revision"; "desired_status";
           "known_status"; "pull_started_at"; "pull_stopped_at";
           "availability_zone"; "launch_type"; "task_id"; "cluster"]) ∧
  (err <$> metadataDesc (pkg st)
   = Some (Some (DuplicateLabelNames "ecs_metadata_info"))) ∧
  r = ([], false) ∧
  named "ecs_memory_cache_usage" r.1 = [].
Proof.
  cbn zeta. split_and!; try (vm_compute; reflexivity).
  apply list_elem_of_here.
Qed.

Lemma memory_utilized_needs_cache_witness :
  let out := (Collect growslice in_order parseTimestamp
                (boot in_order cl2 ∅).1 (boot in_order cl2 ∅).2).1 in
  (fun m => (labelValues m, value m))
    <$> named "ecs_memory_utilized_mega_bytes" out
  = [(["web"; "158d1c8083dd49d6b527399fd6414f5c"], 2%float)] ∧
  (fun m => (labelValues m, value m)) <$> named "ecs_memory_cache_usage" out
  = [(["sidecar"; "158d1c8083dd49d6b527399fd6414f5c"], 0%float);
     (["web"; "158d1c8083dd49d6b527399fd6414f5c"], 1048576%float)].
Proof.
  cbn zeta.
  destruct (boot_running in_order cl2 ∅ in_order_fair) as [Hrun Hcl].
  set (c := (boot in_order cl2 ∅).1) in *.
  set (st := (boot in_order cl2 ∅).2) in *.
  destruct (memory_utilized_needs_cache growslice in_order
              parseTimestamp growslice_fits in_order_fair c st
              (withTaskID task "158d1c8083dd49d6b527399fd6414f5c")
              {["d0" := Some noCacheStats; "d1" := Some webStats]}
              (Collect growslice in_order parseTimestamp c st).1
              (Collect growslice in_order parseTimestamp c st).2 Hrun)
    as (_ & _ & H & _);
    [by rewrite Hcl | by rewrite Hcl | apply surjective_pairing |].
  destruct H as [H1 H2];
    [apply (bool_decide_unpack _); vm_compute; reflexivity |].
  rewrite H1, H2. vm_compute. split; reflexivity.
Defined.

(** C3, as stated, fails: with the custom label [cluster=x], the
    metadata request succeeding and the stats request failing, the
    scrape sends none of the three task metrics and panics: the
    descriptor of [ecs_metadata_info] has the label name [cluster]
    twice. *)
Lemma task_metrics_refused :
  let cl := without_stats task in
  RetrieveTaskMetadata cl
  = Some (Some (withTaskID task "158d1c8083dd49d6b527399fd6414f5c"),
          None) ∧
  (RetrieveTaskStats cl).2 = Some "unexpected end of JSON input" ∧
  scrape growslice in_order cl {["cluster" := "x"]} = ([], false).
Proof. cbn zeta. split_and!; vm_compute; reflexivity. Qed.

Lemma fetch_failures_witness :
  Collect growslice in_order parseTimestamp
    (boot in_order unreachable ∅).1 (boot in_order unreachable ∅).2
  = ([], Some (tt, (boot in_order unreachable ∅).2)) ∧
  ∃ st',
    Collect growslice in_order parseTimestamp
      (boot in_order (without_stats task) ∅).1
      (boot in_order (without_stats task) ∅).2
    = (task_metrics (pkg (boot in_order (without_stats task) ∅).2)
         (withTaskID task "158d1c8083dd49d6b527399fd6414f5c") [],
       Some (tt, st')).
Proof.
  split.
  - destruct (boot_running in_order unreachable ∅ in_order_fair)
      as [Hrun Hcl].
    apply (proj1 (fetch_failures growslice in_order parseTimestamp
                    growslice_fits in_order_fair _ _)
             "connection refused").
    by rewrite Hcl.
  - destruct (boot_running in_order (without_stats task) ∅ in_order_fair)
      as [Hrun Hcl].
    destruct (proj2 (fetch_failures growslice in_order parseTimestamp
                       growslice_fits in_order_fair _ _)
                (withTaskID task "158d1c8083dd49d6b527399fd6414f5c")
                "unexpected end of JSON input" Hrun)
      as (_ & _ & H); [by rewrite Hcl | by rewrite Hcl |].
    destruct H as (st' & H);
      [apply (bool_decide_unpack _); vm_compute; reflexivity |].
    exists st'. exact H.
Defined.





Lemma custom_labels_in_one_order_witness :
  ∃ c st custom dev,
    NewCollector growslice reversed cl1
      {["env" := "prod"; "team" := "core"]} initial
    = ([], Some (c, st)) ∧
    client c = cl1 ∧
    custom ≡ₚ map_to_list {["env" := "prod"; "team" := "core"]} ∧
    elems (mem st) (customLabelValues c) = custom.*2 ∧
    ∃ l s m cp n, pkg st = catalog custom.*1 dev l s m cp n.
Proof.
  apply (custom_labels_in_one_order growslice reversed
           growslice_fits reversed_fair).
Defined.

(** C6, as stated, fails: the same mapping of two labels, visited in its
    two possible orders by two constructions, gives the descriptors
    their extra label names in two different orders. *)
Lemma custom_label_order_not_fixed :
  let customLabels : gmap string string :=
    {["env" := "prod"; "team" := "core"]} in
  fair in_order ∧ fair reversed ∧
  label_names (pkg (boot in_order cl1 customLabels).2)
  ≠ label_names (pkg (boot reversed cl1 customLabels).2).
Proof.
  cbn zeta. split; [apply in_order_fair |]. split; [apply reversed_fair |].
  vm_compute. discriminate.
Qed.

(** C5.  Every metric of every scrape has as many label values as its
    descriptor has label names; but the values do not always stand under
    their names: with the one custom label [env=prod] the interface name
    of a network counter stands under the label name ["cpu"], where with
    no custom label it stands under ["device"]. *)
Lemma interface_name_under_cpu_label :
  let labelled customLabels :=
    (fun m => (variableLabels (desc m), labelValues m))
      <$> named "ecs_network_receive_bytes_total"
            (scrape growslice in_order cl1 customLabels).1 in
  (∀ growcap order time_Parse c st,
     Forall arity_ok (Collect growcap order time_Parse c st).1) ∧
  labelled {["env" := "prod"]}
  = [(["container"; "task_id"; "env"; "cpu"],
      ["web"; "158d1c8083dd49d6b527399fd6414f5c"; "prod"; "eth0"])] ∧
  labelled ∅
  = [(["container"; "task_id"; "device"],
      ["web"; "158d1c8083dd49d6b527399fd6414f5c"; "eth0"])].
Proof.
  cbn zeta. split.
  - intros growcap order time_Parse c st. apply Collect_tidy.
  - vm_compute. split; reflexivity.
Qed.
End CollectorSpec.

(* ================================================================== *)
(** * The task ID and the custom-label flag                            *)
(* ================================================================== *)

Module TextFacts.
Import Go ecsmetadata main ClientSpec.

Lemma append_cons c s t : String c s +:+ t = String c (s +:+ t).
Proof. reflexivity. Qed.

Lemma append_nil_l t : EmptyString +:+ t = t.
Proof. reflexivity. Qed.

Lemma append_snoc pre c s :
  (pre +:+ String c EmptyString) +:+ s = pre +:+ String c s.
Proof.
  induction pre as [|d pre IH]; [done |].
  rewrite !append_cons. by rewrite IH.
Qed.

Lemma ends_with_snoc pre c :
  ends_with (pre +:+ String c EmptyString) c = true.
Proof.
  induction pre as [|d pre IH].
  - change (Ascii.eqb c c = true). apply Ascii.eqb_refl.
  - rewrite append_cons. destruct pre as [|e pre]; [| exact IH].
    change (Ascii.eqb c c = true). apply Ascii.eqb_refl.
Qed.

Lemma contains_app s t c :
  contains (s +:+ t) c = contains s c || contains t c.
Proof.
  induction s as [|d s IH]; [done |].
  rewrite append_cons. simpl. by rewrite IH, orb_assoc.
Qed.

(** A string with the separator is cut at its last separator. *)
Lemma last_separator s sep :
  contains s sep = true →
  ∃ pre id, s = pre +:+ String sep id ∧ contains id sep = false.
Proof.
  induction s as [|c s IH]; [done |]. simpl. intros H.
  destruct (contains s sep) eqn:Hs.
  - destruct (IH eq_refl) as (pre & id & -> & Hid).
    by exists (String c pre), id.
  - rewrite orb_false_r in H. apply Ascii.eqb_eq in H as ->.
    by exists EmptyString, s.
Qed.

Lemma cut_none sep s : contains s sep = false → cut sep s = None.
Proof.
  induction s as [|c s IH]; [done |]. simpl. intros H.
  apply orb_false_iff in H as [Hc Hs]. by rewrite Hc, (IH Hs).
Qed.

(** [cut] cuts at the first separator. *)
Lemma cut_first sep k v :
  contains k sep = false → cut sep (k +:+ String sep v) = Some (k, v).
Proof.
  induction k as [|c k IH]; intros H.
  - rewrite append_nil_l. simpl. by rewrite Ascii.eqb_refl.
  - simpl in H. apply orb_false_iff in H as [Hc Hk].
    rewrite append_cons. simpl. by rewrite Hc, (IH Hk).
Qed.

Lemma SplitN_2 s sep :
  SplitN s sep 2 = match cut sep s with
                   | Some (a, b) => [a; b]
                   | None => [s]
                   end.
Proof. simpl. by destruct (cut sep s) as [[a b]|]. Qed.

(** The flag function as a fold over the pieces of its argument, each
    cut at its first key-value separator. *)
Lemma custom_labels_fold (m : gmap string string) s :
  custom_labels m s
  = (foldl (fun m pair =>
              match cut "=" pair with
              | Some (k, v) => <[k:=v]> m
              | None => m
              end) m (Split s ","),
     None).
Proof.
  unfold custom_labels. f_equal.
  change CUSTOM_LABEL_SEPARATOR with ","%char.
  change CUSTOM_LABEL_KEY_VALUE_SEPARATOR with "="%char.
  generalize (Split s ","). intros l. revert m.
  induction l as [|pair l IH]; intros m; [done |].
  cbn [foldl]. rewrite IH. f_equal.
  rewrite SplitN_2. by destruct (cut "=" pair) as [[a b]|].
Qed.

(** Joining fields that have no separator and splitting again gives
    the fields. *)
Lemma Split_Join pieces sep :
  pieces ≠ [] → Forall (fun p => contains p sep = false) pieces →
  Split (Join pieces (String sep EmptyString)) sep = pieces.
Proof.
  induction pieces as [|x pieces IH]; [done |]. intros _ H.
  apply Forall_cons in H as [Hx Hrest].
  destruct pieces as [|y pieces].
  - by apply Split_none.
  - change (Join (x :: y :: pieces) (String sep EmptyString))
      with (x +:+ String sep (Join (y :: pieces) (String sep EmptyString))).
    rewrite Split_app, (Split_none _ _ Hx), IH; done.
Qed.

Lemma foldl_insert (l : list (string * string)) (m : gmap string string) :
  foldl (fun m p => <[p.1:=p.2]> m) m l = list_to_map (reverse l) ∪ m.
Proof.
  revert m. induction l as [|[k v] l IH]; intros m; simpl.
  - by rewrite (left_id_L ∅ (∪)).
  - rewrite IH, reverse_cons, list_to_map_app. simpl.
    rewrite <- (assoc_L (∪)). f_equal.
    by rewrite insert_empty, <- insert_union_singleton_l.
Qed.

(** Over the pieces of the text of a list of pairs, the fold of the
    flag function inserts the pairs in order. *)
Lemma flag_text_fold (m : gmap string string) (l : list (string * string)) :
  Forall (fun p => contains p.1 "," = false ∧ contains p.1 "=" = false
                   ∧ contains p.2 "," = false) l →
  foldl (fun m pair =>
           match cut "=" pair with
           | Some (k, v) => <[k:=v]> m
           | None => m
           end) m (Split (flag_text l) ",")
  = foldl (fun m p => <[p.1:=p.2]> m) m l.
Proof.
  intros Hl.
  assert (∀ m : gmap string string,
    foldl (fun m pair =>
             match cut "=" pair with
             | Some (k, v) => <[k:=v]> m
             | None => m
             end) m
      ((fun p => p.1 +:+ String "=" p.2) <$> l)
    = foldl (fun m p => <[p.1:=p.2]> m) m l) as Hfold.
  { induction Hl as [|[k v] l (_ & Hk & _) _ IH]; intros m'; [done |].
    rewrite fmap_cons. cbn [foldl fst snd].
    rewrite (cut_first _ _ _ Hk). apply IH. }
  destruct l as [|p l]; [done |].
  unfold flag_text.
  change CUSTOM_LABEL_SEPARATOR with ","%char.
  change CUSTOM_LABEL_KEY_VALUE_SEPARATOR with "="%char.
  rewrite Split_Join; [apply Hfold | done |].
  apply Forall_fmap. eapply Forall_impl; [exact Hl |].
  intros [k v] (Hk & _ & Hv). cbn beta iota delta [fst snd] in *.
  unfold compose. cbn beta iota delta [fst snd].
  rewrite contains_app. simpl. by rewrite Hk, Hv.
Qed.

End TextFacts.
Module ClientLaws.
Import Go ecsmetadata main ClientSpec TextFacts Fixtures.

(** X1.  [SetTaskID] never panics, and the task ID it sets is the text of
    the ARN after its last ['/']: the ID has no ['/'], and the ARN is
    the ID after a prefix that is empty or ends in ['/'].  No other
    field changes, and setting the ID again changes nothing. *)
Theorem SetTaskID_slashless_suffix (t : TaskMetadata) :
  ∃ t' pre,
    SetTaskID t = Some t' ∧
    t' = withTaskID t (TaskID t') ∧
    TaskARN t = pre +:+ TaskID t' ∧
    contains (TaskID t') "/" = false ∧
    (pre = "" ∨ ends_with pre "/" = true) ∧
    SetTaskID t' = Some t'.
Proof.
  assert (∃ pre id,
            TaskARN t = pre +:+ id ∧ contains id "/" = false ∧
            (pre = "" ∨ ends_with pre "/" = true) ∧
            last (Split (TaskARN t) "/") = Some id)
    as (pre & id & Harn & Hid & Hpre & Hlast).
  { destruct (contains (TaskARN t) "/") eqn:E.
    - destruct (last_separator _ _ E) as (pre & id & Harn & Hid).
      exists (pre +:+ String "/" ""), id. split_and!.
      + by rewrite append_snoc.
      + done.
      + right. apply ends_with_snoc.
      + rewrite Harn. by apply last_Split_app.
    - exists "", (TaskARN t). split_and!; [done | done | by left |].
      by rewrite Split_none. }
  exists (withTaskID t id), pre. unfold SetTaskID.
  rewrite Hlast. simpl. rewrite Hlast. done.
Qed.

End ClientLaws.

Module FlagLaws.
Import Go ecsmetadata main ClientSpec TextFacts.

(** X2.  The [-custom-labels] function never reports an error.  It
    cuts its argument at every [','] and each piece at its first ['='];
    a piece without ['='] is skipped, the labels that were there stay,
    and of several pieces with one key the last one gives the value.
    So the value of key [k] afterwards is that of the last piece whose
    text before the first ['='] is [k], and what it was before when
    there is no such piece. *)
Theorem custom_labels_last_piece_wins
    (customLabels : gmap string string) (s k : string) :
  (custom_labels customLabels s).2 = None ∧
  (custom_labels customLabels s).1 !! k
  = match last (filter (fun p => p.1 = k)
                  (omap (cut "=") (Split s ","))) with
    | Some p => Some p.2
    | None => customLabels !! k
    end.
Proof.
  rewrite custom_labels_fold. split; [done |]. cbn [fst].
  generalize (Split s ","). intros l.
  induction l as [|pair l IH] using rev_ind; [done |].
  rewrite foldl_app. cbn [foldl].
  rewrite omap_app, filter_app, last_app. cbn [omap list_omap].
  destruct (cut "=" pair) as [[a b]|]; [| exact IH].
  destruct (decide (a = k)) as [->|Hne].
  - rewrite filter_cons_True by done. simpl. by rewrite lookup_insert_eq.
  - rewrite filter_cons_False by done. simpl.
    by rewrite lookup_insert_ne.
Qed.

(** X3.  Round trip of the flag: for pairs whose keys have no [','] and
    no ['='] and whose values have no [','] (a value may have ['=']),
    the function given the text [k1=v1,k2=v2,...] adds exactly these
    labels to the ones that were there; a later pair overrides an
    earlier one and a label that was there.  The empty text adds
    nothing. *)
Theorem custom_labels_round_trip
    (customLabels : gmap string string) (l : list (string * string)) :
  Forall (fun p => contains p.1 "," = false ∧ contains p.1 "=" = false
                   ∧ contains p.2 "," = false) l →
  custom_labels customLabels (flag_text l)
  = (list_to_map (reverse l) ∪ customLabels, None).
Proof.
  intros Hl.
  rewrite custom_labels_fold, (flag_text_fold _ _ Hl).
  by rewrite foldl_insert.
Qed.

Lemma custom_labels_round_trip_witness :
  custom_labels {["env" := "dev"]}
    (flag_text [("env", "prod"); ("query", "a=b")])
  = (list_to_map (reverse [("env", "prod"); ("query", "a=b")])
     ∪ {["env" := "dev"]}, None).
Proof.
  apply (custom_labels_round_trip {["env" := "dev"]}
           [("env", "prod"); ("query", "a=b")]).
  repeat constructor.
Defined.

(** X15.  The flag may be given several times: the function then runs
    on each argument in turn, and this adds the same labels as one
    flag whose argument is the arguments joined by [',']. *)
Theorem custom_labels_repeated (customLabels : gmap string string) s1 s2 :
  custom_labels (custom_labels customLabels s1).1 s2
  = custom_labels customLabels (s1 +:+ String "," s2).
Proof.
  rewrite !custom_labels_fold. cbn [fst].
  by rewrite Split_app, foldl_app.
Qed.

End FlagLaws.
(* ================================================================== *)
(** * More of the collector                                            *)
(* ================================================================== *)

Module CollectorLaws.
Import Go ecsmetadata prometheus ecscollector Spec Fixtures Fixtures2.
Import describe Census.
Import SliceFacts ExecFacts CollectorFacts ClientSpec CollectorSpec.
Import main TextFacts.

Lemma named_all name l :
  Forall (fun m => fqName (desc m) = name) l → named name l = l.
Proof.
  unfold named. induction 1 as [|m l Hm _ IH]; [done |].
  rewrite filter_cons_True by done. by rewrite IH.
Qed.

Lemma Forall_imap_all {A B} (P : B → Prop) (f : nat → A → B) l :
  (∀ i x, P (f i x)) → Forall P (imap f l).
Proof.
  intros H. apply Forall_forall. intros y Hy.
  apply elem_of_lookup_imap_1 in Hy as (i & x & -> & _). apply H.
Qed.

Lemma length_flat_map_const {A B} (f : A → list B) k l :
  (∀ x, length (f x) = k) → length (flat_map f l) = k * length l.
Proof.
  intros H. induction l as [|x l IH]; simpl; [lia |].
  rewrite length_app, H, IH. lia.
Qed.

Lemma named_flat_map_one {A} name (f : A → list Metric) (e : A → Metric) l :
  (∀ x, named name (f x) = [e x]) → named name (flat_map f l) = e <$> l.
Proof.
  intros H. induction l as [|x l IH]; [done |]. simpl.
  by rewrite named_app, H, IH.
Qed.

Lemma last_two_snoc {A} (a b : A) l x : last (a :: b :: l ++ [x]) = Some x.
Proof.
  change (a :: b :: l ++ [x]) with ([a; b] ++ l ++ [x]).
  rewrite app_assoc. apply last_snoc.
Qed.

Section Collector.
Variable growcap : nat -> nat -> nat.
Variable order : nat -> forall A : Type, list A -> list A.
Variable time_Parse : string -> string -> option Time.
Hypothesis growcap_fits : fits growcap.
Hypothesis order_fair : fair order.

Local Abbreviation Collect := (ecscollector.Collect growcap order time_Parse).
Local Abbreviation NewCollector := (ecscollector.NewCollector growcap order).
Local Abbreviation running := (Spec.running growcap order time_Parse).

(** A property of every metric of a container holds of its metrics in
    the canonical order when it holds of each kind of metric. *)
Lemma container_metrics_Forall (Q : Metric → Prop) g lv s :
  Q (sample (cpuUtilizedDesc g) GaugeValue
       (cpu_usage_in_vcpu time_Parse s) lv) →
  (∀ v x, Q (sample (cpuTotalDesc g) CounterValue v (lv ++ [x]))) →
  (∀ v, Q (sample (memoryUtilizedDesc g) GaugeValue v lv)) →
  (∀ d v, d ∈ [memUsageDesc g; memLimitDesc g; memCacheUsageDesc g] →
          Q (sample d GaugeValue v lv)) →
  (∀ d v x,
     d ∈ [networkRxBytesDesc g; networkRxPacketsDesc g;
          networkRxDroppedDesc g; networkRxErrorsDesc g;
          networkTxBytesDesc g; networkTxPacketsDesc g;
          networkTxDroppedDesc g; networkTxErrorsDesc g] →
     Q (sample d CounterValue v (lv ++ [x]))) →
  Forall Q (container_metrics time_Parse g lv s).
Proof.
  intros Hcpu Hcore Hutil Hmem Hnet.
  unfold container_metrics, leading_metrics.
  rewrite !Forall_app, Forall_cons, Forall_app. split_and!.
  - exact Hcpu.
  - apply Forall_imap_all. intros i u. apply Hcore.
  - destruct (Stats (MemoryStats_ s) !! "cache"); repeat constructor.
    apply Hutil.
  - unfold memory_gauges.
    repeat (apply Forall_cons; split; [apply Hmem; repeat constructor |]).
    constructor.
  - apply Forall_flat_map, Forall_forall. intros [iface n] _.
    unfold network_counters.
    repeat (apply Forall_cons; split; [apply Hnet; repeat constructor |]).
    constructor.
Qed.

(** ... and then of every metric that the loop over the containers
    sends. *)
Lemma blocks_Forall (Q : Metric → Prop) g md stats vals containers blocks :
  (∀ container s,
     container ∈ containers →
     stats !! DockerID container = Some (Some s) →
     Forall Q (container_metrics time_Parse g
                 ([Name container; TaskID md] ++ vals) s)) →
  Forall2 (block_of time_Parse g md stats vals) containers blocks →
  Forall Q (concat blocks).
Proof.
  intros H HF.
  induction HF as [|container block cs bs Hb _ IH]; [constructor |].
  simpl. apply Forall_app. split.
  - unfold block_of in Hb.
    destruct (stats !! DockerID container) as [[s|]|] eqn:E;
      [| subst; constructor | subst; constructor].
    destruct Hb as (gauges & counters & -> & Hg & Hc).
    specialize (H container s ltac:(left) E).
    unfold container_metrics in H. by rewrite Hg, Hc.
  - apply IH. intros c' s' Hin. apply H. by right.
Qed.

(** What the loop sends is, up to the order in which [range] visits
    the maps, the metrics of the containers with stats. *)
Lemma blocks_canonical g md stats vals containers blocks :
  Forall2 (block_of time_Parse g md stats vals) containers blocks →
  concat blocks
  ≡ₚ flat_map (fun container =>
                 from_option
                   (container_metrics time_Parse g
                      ([Name container; TaskID md] ++ vals))
                   [] (stats_for stats container))
              containers.
Proof.
  induction 1 as [|container block cs bs Hb _ IH]; [done |].
  simpl. rewrite IH. apply Permutation_app_tail.
  unfold block_of in Hb. unfold stats_for.
  destruct (stats !! DockerID container) as [[s|]|]; simpl;
    [| by rewrite Hb | by rewrite Hb].
  destruct Hb as (gauges & counters & -> & Hg & Hc).
  unfold container_metrics. by rewrite Hg, Hc.
Qed.

Lemma block_length g md stats vals container block :
  block_of time_Parse g md stats vals container block →
  length block = from_option census 0 (stats_for stats container).
Proof.
  unfold block_of, stats_for. intros Hb.
  destruct (stats !! DockerID container) as [[s|]|]; simpl;
    [| by rewrite Hb | by rewrite Hb].
  destruct Hb as (gauges & counters & -> & Hg & Hc).
  rewrite !length_app, (Permutation_length Hg), (Permutation_length Hc).
  rewrite (length_flat_map_const _ 8) by (by intros []).
  rewrite length_map_to_list. unfold leading_metrics, census.
  rewrite length_cons, length_app, length_imap.
  destruct (Stats (MemoryStats_ s) !! "cache"); simpl; lia.
Qed.

(** The metrics of one name in the blocks, when a block has them
    among its leading metrics only. *)
Lemma named_blocks_list name
    (e : list string → ContainerStats → list Metric)
    g md stats vals containers blocks :
  (∀ lv s gauges,
     gauges ≡ₚ memory_gauges g lv s →
     named name (leading_metrics time_Parse g lv s ++ gauges) = e lv s) →
  (∀ lv iface n, named name (network_counters g lv iface n) = []) →
  Forall2 (block_of time_Parse g md stats vals) containers blocks →
  named name (concat blocks)
  = flat_map (fun container =>
                from_option (e ([Name container; TaskID md] ++ vals)) []
                  (stats_for stats container))
             containers.
Proof.
  intros Hlead Hnet. induction 1 as [|container block cs bs Hb _ IH];
    [done |].
  simpl. rewrite named_app, IH. clear IH. f_equal.
  unfold block_of in Hb. unfold stats_for.
  destruct (stats !! DockerID container) as [[s|]|]; simpl;
    [| by rewrite Hb | by rewrite Hb].
  destruct Hb as (gauges & counters & -> & Hg & Hc).
  rewrite app_assoc, named_app, (Hlead _ _ _ Hg).
  assert (named name counters = []) as ->.
  { apply (named_perm_short name) in Hc.
    - rewrite Hc. apply named_flat_map. by intros [].
    - rewrite named_flat_map; [simpl; lia |]. by intros []. }
  by rewrite app_nil_r.
Qed.

(** The metrics of one name in the blocks, when a block has one for
    each interface, among its network counters. *)
Lemma named_blocks_perm name
    (e : list string → string → NetworkStats → Metric)
    g md stats vals containers blocks :
  (∀ lv s gauges,
     gauges ≡ₚ memory_gauges g lv s →
     named name (leading_metrics time_Parse g lv s ++ gauges) = []) →
  (∀ lv iface n, named name (network_counters g lv iface n)
                 = [e lv iface n]) →
  Forall2 (block_of time_Parse g md stats vals) containers blocks →
  named name (concat blocks)
  ≡ₚ flat_map (fun container =>
                 from_option
                   (fun s =>
                      (fun p => e ([Name container; TaskID md] ++ vals)
                                  p.1 p.2)
                        <$> map_to_list (Networks s))
                   [] (stats_for stats container))
              containers.
Proof.
  intros Hlead Hnet. induction 1 as [|container block cs bs Hb _ IH];
    [done |].
  simpl. rewrite named_app, IH. clear IH. apply Permutation_app_tail.
  unfold block_of in Hb. unfold stats_for.
  destruct (stats !! DockerID container) as [[s|]|]; simpl;
    [| by rewrite Hb | by rewrite Hb].
  destruct Hb as (gauges & counters & -> & Hg & Hc).
  rewrite app_assoc, named_app, (Hlead _ _ _ Hg), app_nil_l.
  rewrite <- (named_flat_map_one name
                (fun '(iface, n) =>
                   network_counters g ([Name container; TaskID md] ++ vals)
                     iface n)).
  - unfold named. by rewrite Hc.
  - intros [iface n]. apply Hnet.
Qed.

(** The names in the parts of a block, for a catalog. *)
Section Names.
Variables (keys : list string) (dev : string) (l s m cp n : slice).
Local Abbreviation g := (catalog keys dev l s m cp n).

Lemma named_leading_cpu_total lv st gauges :
  gauges ≡ₚ memory_gauges g lv st →
  named "ecs_cpu_seconds_total"
    (leading_metrics time_Parse g lv st ++ gauges)
  = imap (fun i u =>
            sample (cpuTotalDesc g) CounterValue
              (float64 u / nanoSeconds)%float (lv ++ [Sprintf_d i]))
         (PercpuUsage (CPUUsage_ (CPUStats_ st))).
Proof.
  intros Hg. rewrite named_app, (named_perm_short _ _ _ Hg);
    [| names; simpl; lia].
  unfold leading_metrics. rewrite app_comm_cons, named_app.
  change (?x :: ?k) with ([x] ++ k) at 1. rewrite named_app.
  rewrite (named_all _ (imap _ _)) by (by apply Forall_imap_all).
  destruct (Stats (MemoryStats_ st) !! "cache"); names;
    by rewrite !app_nil_r.
Qed.

Lemma named_leading_memory name (var : Globals → option Desc)
    (field : ContainerStats → float) lv st gauges :
  (name, var, field)
  ∈ [("ecs_memory_bytes", memUsageDesc,
      fun s => float64 (Usage (MemoryStats_ s)));
     ("ecs_memory_limit_bytes", memLimitDesc,
      fun s => float64 (Limit (MemoryStats_ s)))] →
  gauges ≡ₚ memory_gauges g lv st →
  named name (leading_metrics time_Parse g lv st ++ gauges)
  = [sample (var g) GaugeValue (field st) lv].
Proof.
  rewrite !elem_of_cons, elem_of_nil.
  intros [[= -> -> ->]|[[= -> -> ->]|[]]] Hg.
  all: rewrite named_app, (named_perm_short _ _ _ Hg);
    [| names; simpl; lia].
  all: unfold leading_metrics; rewrite app_comm_cons, named_app.
  all: change (?x :: ?k) with ([x] ++ k) at 1; rewrite named_app.
  all: rewrite named_imap by (intros; discriminate).
  all: destruct (Stats (MemoryStats_ st) !! "cache"); by names.
Qed.

Lemma named_memory_counters name lv iface ns :
  name ∈ ["ecs_cpu_seconds_total"; "ecs_memory_bytes";
          "ecs_memory_limit_bytes"] →
  named name (network_counters g lv iface ns) = [].
Proof.
  rewrite !elem_of_cons, elem_of_nil.
  intros [->|[->|[->|[]]]]; by names.
Qed.

Lemma named_network name (var : Globals → option Desc)
    (field : NetworkStats → float) :
  (name, var, field) ∈ network_table →
  (∀ lv st gauges,
     gauges ≡ₚ memory_gauges g lv st →
     named name (leading_metrics time_Parse g lv st ++ gauges) = []) ∧
  (∀ lv iface ns,
     named name (network_counters g lv iface ns)
     = [sample (var g) CounterValue (field ns) (lv ++ [iface])]) ∧
  fqName (the (var g)) = name ∧
  name ≠ "ecs_metadata_info" ∧ name ≠ "ecs_svc_cpu_limit" ∧
  name ≠ "ecs_svc_memory_limit_bytes".
Proof.
  unfold network_table. rewrite !elem_of_cons, elem_of_nil.
  intros H. repeat (destruct H as [[= -> -> ->]|H]); [.. | done].
  all: split_and!; [| by (intros; names) | done ..].
  all: intros lv st gauges Hg;
    rewrite named_app, (named_perm_short _ _ _ Hg); [| names; simpl; lia].
  all: unfold leading_metrics; rewrite app_comm_cons, named_app.
  all: change (?x :: ?k) with ([x] ++ k) at 1; rewrite named_app.
  all: rewrite named_imap by (intros; discriminate).
  all: destruct (Stats (MemoryStats_ st) !! "cache"); by names.
Qed.
End Names.

Local Abbreviation scrapes := (Census.scrapes growcap order time_Parse).

(** A collector that is ready stays ready, with the same custom labels,
    through every scrape. *)
Lemma scrapes_ready custom dev c st0 st :
  ready custom dev c st0 → scrapes c st0 st → ready custom dev c st.
Proof.
  intros H0. induction 1 as [|st out st' _ IH Hc]; [done |].
  destruct (RetrieveTaskMetadata_returns (client c)) as (md & Hmd).
  destruct (request_TaskMetadata _ _ _).2 as [e|].
  - rewrite (Collect_metadata_error growcap order time_Parse
               _ _ _ _ Hmd) in Hc.
    by injection Hc as <- <-.
  - by destruct (Collect_returned growcap order time_Parse growcap_fits
                   order_fair custom dev c md st out st' IH Hmd Hc)
      as (_ & Hready' & _).
Qed.

(** A property of every expected metric holds of every metric that a
    scrape sends, whether it returns or panics. *)
Lemma expected_Forall (Q : Metric → Prop) g md answer vals :
  Forall Q (task_metrics g md vals) →
  (∀ container s,
     container ∈ Containers md →
     answer.1 !! DockerID container = Some (Some s) →
     Forall Q (container_metrics time_Parse g
                 ([Name container; TaskID md] ++ vals) s)) →
  Forall Q (expected time_Parse g md answer vals).
Proof.
  intros Htask Hcont. unfold expected. apply Forall_app. split; [done |].
  destruct answer as [stats [e|]]; [constructor |].
  apply Forall_flat_map, Forall_forall. intros container Hin.
  specialize (Hcont container). cbn [fst] in Hcont.
  destruct (stats !! DockerID container) as [[s|]|];
    cbn [mjoin option_join]; [by apply Hcont | apply Forall_nil_2 ..].
Qed.

Lemma sent_Forall (Q : Metric → Prop) custom dev c md st :
  ready custom dev c st →
  RetrieveTaskMetadata (client c) = Some (Some md, None) →
  Forall Q (expected time_Parse (pkg st) md
              (RetrieveTaskStats (client c)) custom.*2) →
  Forall Q (Collect c st).1.
Proof.
  intros Hready Hmd HQ.
  pose proof (Collect_sends_only growcap order time_Parse growcap_fits
                order_fair custom dev c md st Hready Hmd) as H.
  rewrite Forall_forall in H, HQ. apply Forall_forall.
  intros m Hm. apply HQ. by apply H.
Qed.

(** A scrape that returned sent the expected metrics, up to the order
    in which [range] visits the maps. *)
Lemma returned_expected custom dev c md st out st' :
  ready custom dev c st →
  RetrieveTaskMetadata (client c) = Some (Some md, None) →
  Collect c st = (out, Some (tt, st')) →
  out ≡ₚ expected time_Parse (pkg st) md
           (RetrieveTaskStats (client c)) custom.*2.
Proof.
  intros Hready Hmd Hc.
  destruct (Collect_returned growcap order time_Parse growcap_fits
              order_fair custom dev c md st out st' Hready Hmd Hc)
    as (_ & _ & _ & Hout).
  unfold expected.
  destruct (RetrieveTaskStats (client c)) as [stats [e|]].
  { by rewrite Hout, app_nil_r. }
  destruct Hout as (blocks & -> & Hbl).
  apply Permutation_app_head.
  exact (blocks_canonical _ _ _ _ _ _ Hbl).
Qed.

(** X4.  A scrape of a running collector whose metadata request
    succeeds returns exactly when the library accepts every metric
    that it is to send: each descriptor without error and each label
    value in UTF-8; otherwise it panics.  The library accepts them in
    particular when the descriptors of the package carry no error
    and the label values of the collector and the strings of the two
    documents are UTF-8.  A scrape that returns has sent these
    metrics, up to the order in which [range] visits the maps, and
    leaves the package variables and the label values of the
    collector as they were, so that the collector can be scraped
    again. *)
Theorem Collect_returns_iff_accepted c st md :
  running c st →
  RetrieveTaskMetadata (client c) = Some (Some md, None) →
  (is_Some (Collect c st).2
   ↔ accepts time_Parse c st md (RetrieveTaskStats (client c))) ∧
  (sound c st md (RetrieveTaskStats (client c)).1 = true →
   accepts time_Parse c st md (RetrieveTaskStats (client c))) ∧
  (∀ out st',
     Collect c st = (out, Some (tt, st')) →
     out ≡ₚ expected time_Parse (pkg st) md (RetrieveTaskStats (client c))
              (elems (mem st) (customLabelValues c)) ∧
     pkg st' = pkg st ∧
     elems (mem st') (customLabelValues c)
     = elems (mem st) (customLabelValues c) ∧
     running c st').
Proof.
  intros Hrun Hmd.
  destruct (running_ready growcap order time_Parse growcap_fits
              order_fair c st Hrun) as (custom & dev & Hready).
  pose proof Hready as (_ & EV & _).
  unfold accepts. rewrite EV. split_and!.
  - split.
    + intros [[[] st'] Hr].
      assert (Collect c st = ((Collect c st).1, Some (tt, st'))) as Hc
        by (rewrite <- Hr; apply surjective_pairing).
      rewrite <- (returned_expected _ _ _ _ _ _ _ Hready Hmd Hc).
      by destruct (Collect_returned growcap order time_Parse growcap_fits
                     order_fair custom dev c md st _ st' Hready Hmd Hc).
    + intros Hok.
      destruct (Collect_sends growcap order time_Parse growcap_fits
                  order_fair custom dev c md st Hready Hmd Hok)
        as (out & [] & st1 & -> & _).
      by eexists.
  - intros Hsound. apply andb_prop in Hsound as [Htask Hutf8].
    destruct (RetrieveTaskStats (client c)) as [stats e].
    apply (sound_acceptable time_Parse custom dev c st md stats e);
      [done | done |]. done.
  - intros out st' Hc.
    destruct (Collect_returned growcap order time_Parse growcap_fits
                order_fair custom dev c md st out st' Hready Hmd Hc)
      as (_ & Hready' & Hpkg & _).
    split_and!; [by eapply returned_expected | done | |
                 by eapply running_on].
    by destruct Hready' as (_ & -> & _).
Qed.

(** X5.  When both requests succeed and the library accepts every
    metric that the scrape is to send, it sends three task metrics
    and, for each container of the metadata that has stats, one CPU
    gauge, one counter for each entry of the per-core list, one memory
    gauge if there is a cache entry, three more memory gauges, and
    eight counters for each network interface; nothing for a container
    without stats. *)
Theorem number_of_metrics c st md stats out r :
  running c st →
  RetrieveTaskMetadata (client c) = Some (Some md, None) →
  RetrieveTaskStats (client c) = (stats, None) →
  accepts time_Parse c st md (stats, None) →
  Collect c st = (out, r) →
  length out
  = 3 + sum_list ((fun container =>
                     from_option census 0 (stats_for stats container))
                  <$> Containers md).
Proof.
  intros Hrun Hmd Hstats Hok Hc.
  destruct (Collect_blocks growcap order time_Parse growcap_fits
              order_fair c st md stats out r Hrun Hmd Hstats Hok Hc)
    as (blocks & -> & _ & Hbl).
  rewrite length_app. change (length (task_metrics _ _ _)) with 3.
  f_equal. clear Hc.
  induction Hbl as [|container block cs bs Hb _ IH]; [done |].
  simpl. rewrite length_app, IH. f_equal.
  exact (block_length _ _ _ _ _ _ Hb).
Qed.

(** X6.  When both requests succeed and the library accepts every
    metric that the scrape is to send, the [ecs_cpu_seconds_total]
    counters of a scrape are, in the order of the metadata and of the
    per-core list, one for each entry of the per-core list of each
    container with stats: the entry divided by 1e9, labelled with the
    position of the entry in the list, in decimal, after the labels of
    the container. *)
Theorem per_core_counters c st md stats out r :
  running c st →
  RetrieveTaskMetadata (client c) = Some (Some md, None) →
  RetrieveTaskStats (client c) = (stats, None) →
  accepts time_Parse c st md (stats, None) →
  Collect c st = (out, r) →
  named "ecs_cpu_seconds_total" out
  = flat_map
      (fun container =>
         from_option
           (fun s =>
              imap (fun i u =>
                      {| desc := the (cpuTotalDesc (pkg st));
                         valueType := CounterValue;
                         value := (float64 u / 1.0e9)%float;
                         labelValues :=
                           ([Name container; TaskID md]
                            ++ elems (mem st) (customLabelValues c))
                           ++ [Sprintf_d i] |})
                   (PercpuUsage (CPUUsage_ (CPUStats_ s))))
           [] (stats_for stats container))
      (Containers md) ∧
  fqName (the (cpuTotalDesc (pkg st))) = "ecs_cpu_seconds_total".
Proof.
  intros Hrun Hmd Hstats Hok Hc.
  destruct (Collect_blocks growcap order time_Parse growcap_fits
              order_fair c st md stats out r Hrun Hmd Hstats Hok Hc)
    as (blocks & -> & _ & Hbl).
  destruct (running_ready growcap order time_Parse growcap_fits
              order_fair c st Hrun)
    as (custom & dev & _ & _ & (l0 & s0 & m0 & cp0 & n0 & Hpkg)).
  rewrite Hpkg in *. split; [| done].
  rewrite named_app, named_task by discriminate.
  rewrite (named_blocks_list "ecs_cpu_seconds_total"
             (fun lv s =>
                imap (fun i u =>
                        sample (cpuTotalDesc
                                  (catalog custom.*1 dev l0 s0 m0 cp0 n0))
                          CounterValue (float64 u / nanoSeconds)%float
                          (lv ++ [Sprintf_d i]))
                     (PercpuUsage (CPUUsage_ (CPUStats_ s))))
             _ _ _ _ _ _
             (named_leading_cpu_total custom.*1 dev l0 s0 m0 cp0 n0)
             (fun lv iface n =>
                named_memory_counters custom.*1 dev l0 s0 m0 cp0 n0
                  "ecs_cpu_seconds_total" lv iface n
                  ltac:(repeat constructor)) Hbl).
  reflexivity.
Qed.

(** X7.  When both requests succeed and the library accepts every
    metric that the scrape is to send, it sends for each container
    with stats, in the order of the metadata, one [ecs_memory_bytes]
    gauge with the memory usage and one [ecs_memory_limit_bytes] gauge
    with the memory limit, whether or not there is a cache entry. *)
Theorem memory_usage_and_limit c st md stats out r :
  running c st →
  RetrieveTaskMetadata (client c) = Some (Some md, None) →
  RetrieveTaskStats (client c) = (stats, None) →
  accepts time_Parse c st md (stats, None) →
  Collect c st = (out, r) →
  let gauge (d : option Desc) (field : MemoryStats → Z) :=
    omap (fun container =>
            s ← stats_for stats container;
            Some {| desc := the d; valueType := GaugeValue;
                    value := float64 (field (MemoryStats_ s));
                    labelValues :=
                      [Name container; TaskID md]
                      ++ elems (mem st) (customLabelValues c) |})
         (Containers md) in
  named "ecs_memory_bytes" out = gauge (memUsageDesc (pkg st)) Usage ∧
  named "ecs_memory_limit_bytes" out = gauge (memLimitDesc (pkg st)) Limit ∧
  fqName (the (memUsageDesc (pkg st))) = "ecs_memory_bytes" ∧
  fqName (the (memLimitDesc (pkg st))) = "ecs_memory_limit_bytes".
Proof.
  intros Hrun Hmd Hstats Hok Hc gauge.
  destruct (Collect_blocks growcap order time_Parse growcap_fits
              order_fair c st md stats out r Hrun Hmd Hstats Hok Hc)
    as (blocks & -> & _ & Hbl).
  destruct (running_ready growcap order time_Parse growcap_fits
              order_fair c st Hrun)
    as (custom & dev & _ & _ & (l0 & s0 & m0 & cp0 & n0 & Hpkg)).
  unfold gauge. rewrite Hpkg in *. split_and!; [| | done | done].
  all: rewrite named_app, named_task by discriminate.
  all: pose proof (named_leading_memory custom.*1 dev l0 s0 m0 cp0 n0)
         as Hlead.
  all: pose proof (named_memory_counters custom.*1 dev l0 s0 m0 cp0 n0)
         as Hnet.
  - rewrite (named_blocks time_Parse "ecs_memory_bytes"
               (fun lv s =>
                  Some (sample (memUsageDesc
                                  (catalog custom.*1 dev l0 s0 m0 cp0 n0))
                          GaugeValue (float64 (Usage (MemoryStats_ s))) lv))
               _ _ _ _ _ _
               (fun lv s gauges =>
                  Hlead "ecs_memory_bytes" memUsageDesc _ lv s gauges
                    ltac:(repeat constructor))
               (fun lv iface n =>
                  Hnet "ecs_memory_bytes" lv iface n
                    ltac:(repeat constructor)) Hbl).
    reflexivity.
  - rewrite (named_blocks time_Parse "ecs_memory_limit_bytes"
               (fun lv s =>
                  Some (sample (memLimitDesc
                                  (catalog custom.*1 dev l0 s0 m0 cp0 n0))
                          GaugeValue (float64 (Limit (MemoryStats_ s))) lv))
               _ _ _ _ _ _
               (fun lv s gauges =>
                  Hlead "ecs_memory_limit_bytes" memLimitDesc _ lv s gauges
                    ltac:(repeat constructor))
               (fun lv iface n =>
                  Hnet "ecs_memory_limit_bytes" lv iface n
                    ltac:(repeat constructor)) Hbl).
    reflexivity.
Qed.

(** X8.  When both requests succeed and the library accepts every
    metric that the scrape is to send, each of the eight network
    counters has in a scrape exactly one metric for each interface of
    each container with stats, with the value of its field of the
    interface, labelled with the interface name after the label values
    of the container; this up to the order of the metrics, which is
    that in which [range] visits the interfaces. *)
Theorem network_counters_per_interface c st md stats out r :
  running c st →
  RetrieveTaskMetadata (client c) = Some (Some md, None) →
  RetrieveTaskStats (client c) = (stats, None) →
  accepts time_Parse c st md (stats, None) →
  Collect c st = (out, r) →
  Forall
    (fun '(name, var, field) =>
       named name out
       ≡ₚ flat_map
            (fun container =>
               from_option
                 (fun s =>
                    (fun p =>
                       {| desc := the (var (pkg st));
                          valueType := CounterValue;
                          value := field p.2;
                          labelValues :=
                            ([Name container; TaskID md]
                             ++ elems (mem st) (customLabelValues c))
                            ++ [p.1] |})
                      <$> map_to_list (Networks s))
                 [] (stats_for stats container))
            (Containers md) ∧
       fqName (the (var (pkg st))) = name)
    network_table.
Proof.
  intros Hrun Hmd Hstats Hok Hc.
  destruct (Collect_blocks growcap order time_Parse growcap_fits
              order_fair c st md stats out r Hrun Hmd Hstats Hok Hc)
    as (blocks & -> & _ & Hbl).
  destruct (running_ready growcap order time_Parse growcap_fits
              order_fair c st Hrun)
    as (custom & dev & _ & _ & (l0 & s0 & m0 & cp0 & n0 & Hpkg)).
  rewrite Hpkg in *. apply Forall_forall. intros [[name var] field] Hin.
  destruct (named_network custom.*1 dev l0 s0 m0 cp0 n0 name var field Hin)
    as (Hlead & Hnet & Hname & N1 & N2 & N3).
  split; [| done].
  rewrite named_app, named_task, app_nil_l by done.
  apply (named_blocks_perm name
           (fun lv iface ns =>
              sample (var (catalog custom.*1 dev l0 s0 m0 cp0 n0))
                CounterValue (field ns) (lv ++ [iface]))
           _ _ _ _ _ _ Hlead Hnet Hbl).
Qed.

(** The label names of a metric of the catalog next to its values:
    those of the custom labels stand after the fixed ones, and before
    the one of the core or interface if there is one. *)
Lemma labelled_plain (custom : list (string * string)) fq help t v
    (names vals : list string) :
  length names = length vals →
  ∃ pre post,
    labelled (sample (Some (NewDesc fq help (names ++ custom.*1))) t v
                (vals ++ custom.*2))
    = pre ++ custom ++ post ∧
    length pre = length names ∧ length post ≤ 1.
Proof.
  intros Hlen. exists (zip names vals), [].
  unfold labelled, sample, the, NewDesc.
  cbn [desc labelValues variableLabels default from_option id].
  rewrite zip_with_app by done. fold (zip custom.*1 custom.*2).
  rewrite zip_fst_snd, app_nil_r. split_and!; [done | | simpl; lia].
  rewrite length_zip_with. lia.
Qed.

Lemma labelled_last (custom : list (string * string)) fq help t v
    (names vals : list string) x y :
  length names = length vals →
  ∃ pre post,
    labelled (sample (Some (NewDesc fq help ((names ++ custom.*1) ++ [x])))
                t v ((vals ++ custom.*2) ++ [y]))
    = pre ++ custom ++ post ∧
    length pre = length names ∧ length post ≤ 1.
Proof.
  intros Hlen. exists (zip names vals), [(x, y)].
  unfold labelled, sample, the, NewDesc.
  cbn [desc labelValues variableLabels default from_option id].
  rewrite zip_with_app by (rewrite !length_app, !length_fmap; lia).
  rewrite zip_with_app by done. fold (zip custom.*1 custom.*2).
  rewrite zip_fst_snd, <- app_assoc. split_and!; [done | | simpl; lia].
  rewrite length_zip_with. lia.
Qed.

(** The custom labels in the metrics of a scrape of a collector that
    is ready with the labels [custom]. *)
Lemma paired_when_ready custom dev c st out r :
  ready custom dev c st →
  Collect c st = (out, r) →
  Forall (fun m =>
            ∃ pre post,
              labelled m = pre ++ custom ++ post ∧
              (length pre = 11 ∨ length pre = 2) ∧ length post ≤ 1)
         out.
Proof.
  intros Hscr Hc.
  destruct (RetrieveTaskMetadata_returns (client c)) as (md & Hmd).
  destruct (request_TaskMetadata _ _ _).2 as [e|].
  { rewrite (Collect_metadata_error growcap order time_Parse
               _ _ _ _ Hmd) in Hc.
    injection Hc as <- _. constructor. }
  replace out with (Collect c st).1 by (by rewrite Hc).
  apply (sent_Forall _ custom dev c md st Hscr Hmd).
  destruct Hscr as (_ & _ & (l0 & s0 & m0 & cp0 & n0 & Hpkg)).
  rewrite Hpkg.
  match goal with |- Forall ?P _ => set (Q := P) end.
  assert (∀ fq help t v (names vals : list string),
            length names = 11 ∨ length names = 2 →
            length names = length vals →
            Q (sample (Some (NewDesc fq help (names ++ custom.*1))) t v
                 (vals ++ custom.*2))) as Hplain.
  { intros fq help t v names vals Hn Hlen.
    destruct (labelled_plain custom fq help t v names vals Hlen)
      as (pre & post & E & Hpre & Hpost).
    exists pre, post. rewrite Hpre. done. }
  assert (∀ fq help t v (names vals : list string) x y,
            length names = 11 ∨ length names = 2 →
            length names = length vals →
            Q (sample (Some (NewDesc fq help ((names ++ custom.*1) ++ [x])))
                 t v ((vals ++ custom.*2) ++ [y]))) as Hlast.
  { intros fq help t v names vals x y Hn Hlen.
    destruct (labelled_last custom fq help t v names vals x y Hlen)
      as (pre & post & E & Hpre & Hpost).
    exists pre, post. rewrite Hpre. done. }
  apply expected_Forall.
  { unfold task_metrics.
    repeat (apply Forall_cons; split;
            [apply Hplain; [simpl; lia | done] |]).
    constructor. }
  intros container s _ _. apply container_metrics_Forall.
  - apply Hplain; [simpl; lia | done].
  - intros v x. apply Hlast; [simpl; lia | done].
  - intros v. apply Hplain; [simpl; lia | done].
  - intros d v. rewrite !elem_of_cons, elem_of_nil.
    intros [->|[->|[->|[]]]]; (apply Hplain; [simpl; lia | done]).
  - intros d v x. rewrite !elem_of_cons, elem_of_nil. intros H.
    repeat (destruct H as [->|H];
            [apply Hlast; [simpl; lia | done] |]).
    done.
Qed.

(** X9.  In every scrape of a collector, from the state in which
    [NewCollector] returned it on, every metric has each custom label
    key paired with the value that the custom labels give it: the
    entries of the custom labels, in one order for all metrics, stand
    right after the 11 or 2 fixed labels, followed by at most one more
    label (the core or the interface). *)
Theorem custom_labels_paired cl customLabels st0 o c st1 st out r :
  NewCollector cl customLabels st0 = (o, Some (c, st1)) →
  scrapes c st1 st →
  Collect c st = (out, r) →
  ∃ custom,
    custom ≡ₚ map_to_list customLabels ∧
    Forall (fun m =>
              ∃ pre post,
                labelled m = pre ++ custom ++ post ∧
                (length pre = 11 ∨ length pre = 2) ∧ length post ≤ 1)
           out.
Proof.
  intros Hnew Hscr Hc.
  destruct (NewCollector_ready growcap order growcap_fits
              cl customLabels st0)
    as (o' & c' & st' & Heq & _ & _ & Hready).
  rewrite Hnew in Heq. injection Heq as <- <- <-.
  eexists. split; [apply order_fair |].
  eapply paired_when_ready; [| exact Hc].
  eapply scrapes_ready; [exact Hready | exact Hscr].
Qed.

(** X10.  [Describe] sends the fourteen descriptors of the container
    metrics, and not those of the three task metrics: in a scrape of a
    running collector whose metadata request succeeds, the three task
    metrics ([ecs_metadata_info] and the two service limits) have
    descriptors that [Describe] does not send, and every metric sent
    that is not one of these three has a descriptor that it sends.  A
    scrape that returns has sent the three task metrics first. *)
Theorem Describe_leaves_out_task_metrics c st md out r :
  let task :=
    task_metrics (pkg st) md (elems (mem st) (customLabelValues c)) in
  running c st →
  RetrieveTaskMetadata (client c) = Some (Some md, None) →
  Collect c st = (out, r) →
  (fun m => fqName (desc m)) <$> task
  = ["ecs_metadata_info"; "ecs_svc_cpu_limit";
     "ecs_svc_memory_limit_bytes"] ∧
  Forall (fun m => Some (desc m) ∉ Describe c st) task ∧
  Forall (fun m => m ∈ task ∨ Some (desc m) ∈ Describe c st) out ∧
  (is_Some r →
   take 3 out = task ∧
   Forall (fun m => Some (desc m) ∈ Describe c st) (drop 3 out)).
Proof.
  intros task Hrun Hmd Hc.
  destruct (running_ready growcap order time_Parse growcap_fits
              order_fair c st Hrun) as (custom & dev & Hready).
  pose proof Hready as (_ & EV & (l0 & s0 & m0 & cp0 & n0 & Hpkg)).
  unfold task. clear task. rewrite EV.
  assert (∀ container s,
            Forall (fun m => Some (desc m) ∈ Describe c st)
              (container_metrics time_Parse (pkg st)
                 ([Name container; TaskID md] ++ custom.*2) s))
    as Hdescribed.
  { intros container s. unfold Describe. rewrite Hpkg.
    apply container_metrics_Forall.
    + cbn. repeat constructor.
    + intros v x. cbn. repeat constructor.
    + intros v. cbn. repeat constructor.
    + intros d v H. rewrite !elem_of_cons, elem_of_nil in H.
      repeat (destruct H as [->|H]; [cbn; repeat constructor |]).
      done.
    + intros d v x H. rewrite !elem_of_cons, elem_of_nil in H.
      repeat (destruct H as [->|H]; [cbn; repeat constructor |]).
      done. }
  split_and!.
  - by rewrite Hpkg.
  - unfold Describe, task_metrics. rewrite Hpkg.
    repeat (apply Forall_cons; split;
            [cbn; rewrite !not_elem_of_cons; split_and!;
             first [discriminate | apply not_elem_of_nil] |]).
    constructor.
  - replace out with (Collect c st).1 by (by rewrite Hc).
    apply (sent_Forall _ custom dev c md st Hready Hmd).
    apply expected_Forall.
    + apply Forall_forall. intros m Hm. by left.
    + intros container s _ _.
      eapply Forall_impl; [apply Hdescribed |]. intros m Hm. by right.
  - intros [[[] st'] ->].
    destruct (Collect_returned growcap order time_Parse growcap_fits
                order_fair custom dev c md st out st' Hready Hmd Hc)
      as (_ & _ & _ & Hout).
    assert (∃ rest,
              out = task_metrics (pkg st) md custom.*2 ++ rest ∧
              Forall (fun m => Some (desc m) ∈ Describe c st) rest)
      as (rest & -> & Hrest).
    { destruct (RetrieveTaskStats (client c)) as [stats [e|]].
      - exists []. by rewrite app_nil_r.
      - destruct Hout as (blocks & -> & Hbl). eexists. split; [done |].
        eapply blocks_Forall; [| exact Hbl].
        intros container s _ _. apply Hdescribed. }
    by rewrite (take_app_length' _ _ 3), (drop_app_length' _ _ 3).
Qed.

(** X11.  [NewCollector] always returns, and the last label name of the
    eight per-interface descriptors is ["device"] exactly when the
    [append] of the custom keys to the two container labels leaves no
    spare capacity; otherwise it is ["cpu"], the name that the later
    [append] for the per-core descriptor writes into the same slot.
    With no custom labels it is ["device"], whatever the growth of
    slices.  The per-core descriptor always ends in ["cpu"]. *)
Theorem interface_label_name cl customLabels st0 :
  ∃ c st,
    NewCollector cl customLabels st0 = ([], Some (c, st)) ∧
    Forall (fun '(name, var, field) =>
              last (variableLabels (the (var (pkg st))))
              = Some (if spare growcap (size customLabels)
                      then "cpu" else "device"))
           network_table ∧
    last (variableLabels (the (cpuTotalDesc (pkg st)))) = Some "cpu" ∧
    (customLabels = ∅ → spare growcap (size customLabels) = false).
Proof.
  destruct (NewCollector_ready growcap order growcap_fits
              cl customLabels st0)
    as (o & c & st & Heq & -> & _ & Hready).
  exists c, st. split; [done |].
  destruct Hready as (_ & _ & (l0 & s0 & m0 & cp0 & n0 & Hpkg)).
  rewrite (Permutation_length (order_fair _ _ _)) in Hpkg.
  rewrite length_map_to_list in Hpkg. rewrite Hpkg.
  split_and!.
  - unfold network_table.
    repeat (apply Forall_cons; split; [cbn -[last]; apply last_two_snoc |]).
    constructor.
  - cbn -[last]. apply last_two_snoc.
  - intros ->. reflexivity.
Qed.

(** Two loops whose bodies agree on the elements of the list. *)
Lemma forM_ext {A} (l : list A) (f g : A → M unit) st :
  (∀ x st, x ∈ l → f x st = g x st) → forM l f st = forM l g st.
Proof.
  unfold forM. revert st.
  induction l as [|x l IH]; intros st H; [done |].
  cbn [foldM]. unfold mbind, M_bind.
  rewrite (H x st) by left.
  destruct (g x st) as [o [[[] st1]|]]; [| done].
  rewrite IH; [done |]. intros y st2 Hy. apply H. by right.
Qed.

Lemma bind_ext {A B} (m : M A) (f g : A → M B) st :
  (∀ a st', f a st' = g a st') → (m ≫= f) st = (m ≫= g) st.
Proof.
  intros H. unfold mbind, M_bind.
  destruct (m st) as [o [[a st']|]]; [| done]. by rewrite H.
Qed.

(** X12.  When both requests succeed, every metric that a scrape
    sends is one of the three task metrics or a metric of a container
    of the metadata, computed from the stats that the document has
    under the Docker ID of that container.  So the stats under an ID
    that no container of the metadata has give no metric: a collector
    with the same label values whose client answers with the same
    metadata, and with stats that agree with these on the Docker IDs
    of the containers of the metadata, sends the same metrics from
    the same state, and returns or panics alike. *)
Theorem metrics_of_metadata_containers c st md stats out r :
  let vals := elems (mem st) (customLabelValues c) in
  running c st →
  RetrieveTaskMetadata (client c) = Some (Some md, None) →
  RetrieveTaskStats (client c) = (stats, None) →
  Collect c st = (out, r) →
  Forall (fun m =>
            m ∈ task_metrics (pkg st) md vals ∨
            ∃ container s,
              container ∈ Containers md ∧
              stats !! DockerID container = Some (Some s) ∧
              m ∈ container_metrics time_Parse (pkg st)
                    ([Name container; TaskID md] ++ vals) s)
         out ∧
  ∀ cl' stats',
    RetrieveTaskMetadata cl' = Some (Some md, None) →
    RetrieveTaskStats cl' = (stats', None) →
    (∀ container,
       container ∈ Containers md →
       stats' !! DockerID container = stats !! DockerID container) →
    Collect {| client := cl'; customLabelValues := customLabelValues c |} st
    = (out, r).
Proof.
  intros vals Hrun Hmd Hstats Hc. split.
  - pose proof (Collect_expected growcap order time_Parse growcap_fits
                  order_fair c st md stats Hrun Hmd Hstats) as Hsent.
    rewrite Hc in Hsent. simpl in Hsent.
    eapply Forall_impl; [exact Hsent |].
    intros m [Hm _]. by apply expected_elem.
  - intros cl' stats' Hmd' Hstats' Hagree. rewrite <- Hc.
    unfold ecscollector.Collect. cbn [client customLabelValues].
    rewrite Hmd, Hmd', Hstats, Hstats'.
    repeat (apply bind_ext; intros ? ?).
    apply forM_ext. intros container st2 Hin.
    by rewrite (Hagree container Hin).
Qed.

(** X13.  From the command line to the metrics: when [NewCollector] is
    given the labels that the [-custom-labels] function makes of the
    text [k1=v1,k2=v2,...] (distinct keys without [','] and ['='],
    values without [',']), every metric of every scrape has exactly
    these pairs, in one order for all metrics, after its fixed
    labels. *)
Theorem command_line_labels_on_every_metric
    (l : list (string * string)) cl st0 o c st1 st out r :
  Forall (fun p => contains p.1 "," = false ∧ contains p.1 "=" = false
                   ∧ contains p.2 "," = false) l →
  NoDup l.*1 →
  NewCollector cl (custom_labels ∅ (flag_text l)).1 st0
  = (o, Some (c, st1)) →
  scrapes c st1 st →
  Collect c st = (out, r) →
  ∃ custom,
    custom ≡ₚ l ∧
    Forall (fun m =>
              ∃ pre post,
                labelled m = pre ++ custom ++ post ∧
                (length pre = 11 ∨ length pre = 2) ∧ length post ≤ 1)
           out.
Proof.
  intros Hl Hnd Hnew Hscr Hc.
  rewrite custom_labels_fold, (flag_text_fold _ _ Hl), foldl_insert in Hnew.
  cbn [fst] in Hnew. rewrite (right_id_L ∅ (∪)) in Hnew.
  destruct (NewCollector_ready growcap order growcap_fits
              cl (list_to_map (reverse l)) st0)
    as (o' & c' & st' & Heq & _ & _ & Hready).
  rewrite Hnew in Heq. injection Heq as <- <- <-.
  exists (order (ranges st0) _
            (map_to_list (list_to_map (reverse l) : gmap string string))).
  split.
  - rewrite (order_fair _ _ _).
    rewrite map_to_list_to_map
      by (by rewrite fmap_reverse, reverse_Permutation).
    apply reverse_Permutation.
  - eapply paired_when_ready; [| exact Hc].
    eapply scrapes_ready; [exact Hready | exact Hscr].
Qed.

(** X14.  A collector keeps nothing from one scrape to the next: when
    the endpoint answers the same, the scrape after a scrape that
    returned sends the same metrics, up to the order in which [range]
    visits the maps, and returns as well. *)
Theorem scrapes_repeat c st out st' out' r' :
  running c st →
  Collect c st = (out, Some (tt, st')) →
  Collect c st' = (out', r') →
  out' ≡ₚ out ∧ take 3 out' = take 3 out ∧ is_Some r'.
Proof.
  intros Hrun Hc Hc'.
  destruct (running_ready growcap order time_Parse growcap_fits
              order_fair c st Hrun) as (custom & dev & Hready).
  destruct (RetrieveTaskMetadata_returns (client c)) as (md & Hmd).
  destruct (request_TaskMetadata _ _ _).2 as [e|].
  { rewrite (Collect_metadata_error growcap order time_Parse
               c st _ _ Hmd) in Hc.
    rewrite (Collect_metadata_error growcap order time_Parse
               c st' _ _ Hmd) in Hc'.
    injection Hc as <- _. injection Hc' as <- <-. done. }
  destruct (Collect_returned growcap order time_Parse growcap_fits
              order_fair custom dev c md st out st' Hready Hmd Hc)
    as (Hacc & Hready' & Hpkg & Hout).
  pose proof (returned_expected _ _ _ _ _ _ _ Hready Hmd Hc) as Hperm.
  destruct (Collect_sends growcap order time_Parse growcap_fits
              order_fair custom dev c md st' Hready' Hmd)
    as (o2 & [] & st2 & Heq & _ & _ & Hout').
  { by rewrite Hpkg, <- Hperm. }
  rewrite Hc' in Heq. injection Heq as <- ->. rewrite Hpkg in Hout'.
  destruct (RetrieveTaskStats (client c)) as [stats [e|]].
  { by subst. }
  destruct Hout as (blocks & -> & Hbl).
  destruct Hout' as (blocks' & -> & Hbl').
  split_and!; [| | done].
  - apply Permutation_app_head.
    by rewrite (blocks_canonical _ _ _ _ _ _ Hbl),
               (blocks_canonical _ _ _ _ _ _ Hbl').
  - by rewrite !(take_app_length' _ _ 3).
Qed.

(** X16.  Every metric of a scrape carries under ["task_id"] the text
    after the last ['/'] of the task ARN that the metadata request
    decoded, whatever task ID the document itself held. *)
Theorem task_id_label_of_every_metric c st out r :
  running c st →
  Collect c st = (out, r) →
  let doc := (request_TaskMetadata (client c)
                (endpoint (client c) +:+ "/task") zeroTaskMetadata).1 in
  ∃ id,
    last (Split (TaskARN doc) "/") = Some id ∧
    Forall (fun m => ("task_id", id) ∈ labelled m) out.
Proof.
  intros Hrun Hc doc.
  destruct (running_ready growcap order time_Parse growcap_fits
              order_fair c st Hrun) as (custom & dev & Hready).
  assert (∃ id, last (Split (TaskARN doc) "/") = Some id ∧
                RetrieveTaskMetadata (client c)
                = Some (Some (withTaskID doc id),
                        (request_TaskMetadata (client c)
                           (endpoint (client c) +:+ "/task")
                           zeroTaskMetadata).2))
    as (id & Hid & Hmd).
  { unfold RetrieveTaskMetadata, doc.
    destruct (request_TaskMetadata _ _ _) as [d err]. simpl.
    destruct (SetTaskID_returns d) as (id & Hid & ->). by exists id. }
  exists id. split; [done |].
  destruct (request_TaskMetadata _ _ _).2 as [e|].
  { rewrite (Collect_metadata_error growcap order time_Parse
               c st _ _ Hmd) in Hc.
    injection Hc as <- _. constructor. }
  replace out with (Collect c st).1 by (by rewrite Hc).
  apply (sent_Forall _ custom dev c _ st Hready Hmd).
  destruct Hready as (_ & _ & (l0 & s0 & m0 & cp0 & n0 & Hpkg)).
  rewrite Hpkg. apply expected_Forall.
  { unfold task_metrics, labelled.
    repeat (apply Forall_cons; split; [cbn; repeat constructor |]).
    constructor. }
  intros container s _ _.
  apply container_metrics_Forall; unfold labelled.
  - cbn. repeat constructor.
  - intros v x. cbn. repeat constructor.
  - intros v. cbn. repeat constructor.
  - intros d v H. rewrite !elem_of_cons, elem_of_nil in H.
    repeat (destruct H as [->|H]; [cbn; repeat constructor |]).
    done.
  - intros d v x H. rewrite !elem_of_cons, elem_of_nil in H.
    repeat (destruct H as [->|H]; [cbn; repeat constructor |]).
    done.
Qed.

(** ** The package variables are shared by all collectors *)

(** [append] on a slice whose array, if any, is not among the first [n]
    leaves the first [n] arrays as they are, and returns such a slice. *)
Lemma append_owned n s xs h s' h' :
  owned n s → n ≤ length h →
  Go.append growcap s xs h = (s', h') →
  owned n s' ∧ take n h' = take n h ∧ n ≤ length h'.
Proof.
  intros Hown Hn. unfold Go.append.
  destruct (Nat.leb_spec (len s + length xs) (cap s)) as [Hfit|Hgrow];
    intros [= <- <-].
  - split; [exact Hown |]. unfold store. rewrite length_alter.
    split; [| done]. destruct Hown as [H0|Hp].
    + assert (xs = []) as -> by (apply length_zero_iff_nil; lia).
      rewrite list_alter_id; [done |]. intros a. simpl.
      by rewrite Nat.add_0_r, take_drop.
    + by rewrite take_alter_ge.
  - split_and!.
    + right. simpl. lia.
    + by rewrite take_app_le.
    + rewrite length_app. lia.
Qed.

Lemma exec_append_owned n s xs st Q :
  owned n s → n ≤ length (mem st) →
  (∀ s' h',
     owned n s' → take n h' = take n (mem st) → n ≤ length h' →
     Q [] s' (State h' (pkg st) (ranges st))) →
  exec (ecscollector.append growcap s xs) st Q.
Proof.
  intros Hown Hn HQ. apply exec_on_heap. intros s' h' Happ.
  destruct (append_owned _ _ _ _ _ _ Hown Hn Happ) as (? & ? & ?).
  by apply HQ.
Qed.

Lemma exec_literal_owned n xs st Q :
  n ≤ length (mem st) →
  (∀ s h',
     owned n s → take n h' = take n (mem st) → n ≤ length h' →
     Q [] s (State h' (pkg st) (ranges st))) →
  exec (on_heap (literal xs)) st Q.
Proof.
  intros Hn HQ. apply exec_on_heap. intros s h' [= <- <-].
  apply HQ.
  - right. simpl. lia.
  - by rewrite take_app_le.
  - rewrite length_app. lia.
Qed.

(** [NewCollector] writes to no array that was there before. *)
Lemma NewCollector_frame cl customLabels st0 :
  exec (NewCollector cl customLabels) st0
    (fun _ _ st =>
       take (length (mem st0)) (mem st) = mem st0).
Proof.
  set (n := length (mem st0)).
  unfold ecscollector.NewCollector.
  apply exec_bind, (exec_literal_owned n); [done |].
  cbn [mem pkg ranges]. intros M0 h1 OM0 T1 L1.
  apply exec_bind, (exec_literal_owned n); [done |].
  cbn [mem pkg ranges]. intros S0 h2 OS0 T2 L2.
  apply exec_bind, (exec_literal_owned n); [done |].
  cbn [mem pkg ranges]. intros L0 h3 OL0 T3 L3.
  apply exec_bind, exec_range. cbn [mem pkg ranges].
  apply exec_bind. eapply exec_mono.
  { apply (exec_foldM _ (fun _ _ '(ks, vs) st' =>
       owned n ks ∧ owned n vs ∧
       take n (mem st') = take n h3 ∧ n ≤ length (mem st'))).
    - split_and!; [by left | by left | done | done].
    - intros done [key value] out [ks vs] st1 _ (Oks & Ovs & T & L).
      apply exec_bind, (exec_append_owned n); [done | done |].
      cbn [mem pkg ranges]. intros ks' h' Oks' T' L'.
      apply exec_bind, (exec_append_owned n); [done | done |].
      cbn [mem pkg ranges]. intros vs' h'' Ovs' T'' L''.
      apply exec_ret. cbn [mem]. split_and!; [done | done | | done].
      congruence. }
  cbn beta. intros out [K V] st4 (OK & OV & T4 & L4).
  unfold append_slice.
  apply exec_bind, exec_bind, exec_spread, (exec_append_owned n);
    [done | done |].
  cbn [mem pkg ranges]. intros M1 h5 OM1 T5 L5.
  apply exec_bind, exec_bind, exec_spread, (exec_append_owned n);
    [done | done |].
  cbn [mem pkg ranges]. intros L1' h6 OL1 T6 L6.
  apply exec_bind, exec_bind, exec_spread, (exec_append_owned n);
    [done | done |].
  cbn [mem pkg ranges]. intros S1 h7 OS1 T7 L7.
  apply exec_bind, (exec_append_owned n); [done | done |].
  cbn [mem pkg ranges]. intros N h8 ON T8 L8.
  apply exec_bind, (exec_append_owned n); [done | done |].
  cbn [mem pkg ranges]. intros C h9 OC T9 L9.
  do 17 (apply exec_bind, exec_newDesc; cbn [mem pkg ranges]).
  apply exec_bind, exec_put_pkg. cbn [mem pkg ranges].
  apply exec_ret. cbn [mem].
  rewrite T9, T8, T7, T6, T5, T4, T3, T2, T1. apply firstn_all.
Qed.

(** A slice of a store shows the same in a store that begins with the
    same arrays. *)
Lemma frame_slice h h' t :
  take (length h) h' = h → wf h t → wf h' t ∧ elems h' t = elems h t.
Proof.
  intros Ht [Hle [H0|(a & Ha & Hca)]].
  - split; [split; [done | by left] |].
    unfold elems. replace (len t) with 0 by lia. done.
  - assert (h' !! ptr t = Some a) as Ha'.
    { rewrite <- Ht in Ha. by apply lookup_take_Some in Ha as [? _]. }
    split.
    + split; [done | right]. by exists a.
    + unfold elems. by rewrite Ha, Ha'.
Qed.

Lemma bind_panics {A B} (m : M A) (f : A → M B) st :
  exec m st (fun out a st' => out = [] ∧ f a st' = ([], None)) →
  (m ≫= f) st = ([], None).
Proof.
  intros (out & a & st' & E & -> & Ef).
  unfold mbind, M_bind. by rewrite E, Ef.
Qed.

Lemma send_panics var t v s st d :
  var (pkg st) = Some d →
  length (elems (mem st) s) ≠ length (variableLabels d) →
  send var t v s st = ([], None).
Proof.
  intros Hd Hlen. unfold send, mbind, M_bind, get_pkg, spread.
  rewrite Hd. unfold MustNewConstMetric.
  destruct (err d); [done |]. by rewrite decide_False.
Qed.

(** A scrape panics at its first metric when the collector has not as
    many label values as the descriptor has custom label names. *)
Lemma Collect_panics c st md d :
  wf (mem st) (customLabelValues c) →
  RetrieveTaskMetadata (client c) = Some (Some md, None) →
  metadataDesc (pkg st) = Some d →
  length (variableLabels d)
  ≠ 11 + length (elems (mem st) (customLabelValues c)) →
  Collect c st = ([], None).
Proof.
  intros HV Hmd Hd Hlen. unfold ecscollector.Collect. rewrite Hmd.
  apply bind_panics, exec_literal.
  intros LV0 h1 Eh1 HLV0 ELV0 _. split; [done |].
  assert (wf h1 (customLabelValues c) ∧
          elems h1 (customLabelValues c)
          = elems (mem st) (customLabelValues c)) as [HV1 EV1]
    by (subst h1; by apply alloc_frame).
  apply bind_panics, exec_append_slice; [done | done |].
  cbn [mem pkg ranges].
  intros LV h2 _ HLV ELV. split; [done |].
  rewrite ELV0, EV1 in ELV.
  unfold mbind, M_bind.
  rewrite (send_panics _ _ _ _ _ d); [done | done |].
  cbn [mem]. rewrite ELV, length_app. simpl. lia.
Qed.

(** X17.  The descriptors are package variables, so a second
    [NewCollector] replaces those of a collector made before, while it
    leaves the arrays that were there, and so the label values of the
    first collector, as they were.  A scrape of the first collector
    after that (its metadata request succeeding) panics at its first
    metric when the two collectors have different numbers of custom
    labels; with equal numbers the metrics that it sends pair the
    keys of the second collector's labels with the values of the
    first's, and it returns when the library accepts every metric
    that it is to send. *)
Theorem second_collector_takes_over
    cl1 labels1 st0 o1 c1 st1 cl2 labels2 o2 c2 st2 md :
  NewCollector cl1 labels1 st0 = (o1, Some (c1, st1)) →
  NewCollector cl2 labels2 st1 = (o2, Some (c2, st2)) →
  RetrieveTaskMetadata cl1 = Some (Some md, None) →
  take (length (mem st1)) (mem st2) = mem st1 ∧
  elems (mem st2) (customLabelValues c1)
  = elems (mem st1) (customLabelValues c1) ∧
  (size labels1 ≠ size labels2 → Collect c1 st2 = ([], None)) ∧
  (size labels1 = size labels2 →
   ∃ custom1 custom2,
     custom1 ≡ₚ map_to_list labels1 ∧
     custom2 ≡ₚ map_to_list labels2 ∧
     ∀ out r,
       Collect c1 st2 = (out, r) →
       (accepts time_Parse c1 st2 md (RetrieveTaskStats cl1) →
        is_Some r) ∧
       Forall (fun m =>
                 ∃ pre post,
                   labelled m
                   = pre ++ zip custom2.*1 custom1.*2 ++ post ∧
                   (length pre = 11 ∨ length pre = 2) ∧ length post ≤ 1)
              out).
Proof.
  intros Hnew1 Hnew2 Hmd.
  destruct (NewCollector_ready growcap order growcap_fits cl1 labels1 st0)
    as (o & c & st & Heq & _ & Hcl & Hready1).
  rewrite Hnew1 in Heq. injection Heq as <- <- <-.
  destruct (NewCollector_ready growcap order growcap_fits cl2 labels2 st1)
    as (o & c & st & Heq & _ & _ & Hready2).
  rewrite Hnew2 in Heq. injection Heq as <- <- <-.
  destruct (NewCollector_frame cl2 labels2 st1)
    as (o & c & st & Heq & Hframe).
  rewrite Hnew2 in Heq. injection Heq as <- <- <-.
  set (custom1 := order (ranges st0) _ (map_to_list labels1)) in *.
  set (custom2 := order (ranges st1) _ (map_to_list labels2)) in *.
  assert (length custom1 = size labels1) as Len1.
  { unfold custom1. by rewrite (order_fair _ _ _), length_map_to_list. }
  assert (length custom2 = size labels2) as Len2.
  { unfold custom2. by rewrite (order_fair _ _ _), length_map_to_list. }
  destruct Hready1 as (HV1 & EV1 & _).
  destruct (frame_slice _ _ _ Hframe HV1) as [HV2 EV2].
  split; [done |]. split; [done |].
  rewrite EV1 in EV2.
  destruct Hready2 as (_ & _ & (l0 & s0 & m0 & cp0 & n0 & Hpkg)).
  rewrite <- Hcl in Hmd |- *.
  split.
  - intros Hne. eapply Collect_panics; [done | done | |].
    + rewrite Hpkg. reflexivity.
    + rewrite EV2. unfold metadataNames. lengths.
  - intros Heq. exists custom1, custom2.
    split; [apply order_fair |]. split; [apply order_fair |].
    assert (ready (zip custom2.*1 custom1.*2)
              (if spare growcap (length custom2) then "cpu" else "device")
              c1 st2) as Hready.
    { split_and!; [done | |].
      - rewrite snd_zip; [done |]. rewrite !length_fmap. lia.
      - exists l0, s0, m0, cp0, n0.
        rewrite fst_zip; [done |]. rewrite !length_fmap. lia. }
    intros out r Hc. split.
    + intros Hok. unfold accepts in Hok.
      pose proof Hready as (_ & EV & _). rewrite EV in Hok.
      destruct (Collect_sends growcap order time_Parse growcap_fits
                  order_fair _ _ c1 md st2 Hready Hmd Hok)
        as (out' & [] & st3 & Heq' & _).
      rewrite Hc in Heq'. injection Heq' as _ ->. done.
    + by eapply paired_when_ready.
Qed.

End Collector.

(** ** Runs *)

Lemma Collect_returns_iff_accepted_witness :
  let good := boot in_order cl4 {["env" := "prod"]} in
  let bad := boot in_order cl4 {["cluster" := "x"]} in
  let md := withTaskID task "158d1c8083dd49d6b527399fd6414f5c" in
  is_Some (Collect growslice in_order parseTimestamp good.1 good.2).2 ∧
  Collect growslice in_order parseTimestamp bad.1 bad.2 = ([], None) ∧
  ¬ Forall acceptable
      (expected parseTimestamp (pkg bad.2) md
         (RetrieveTaskStats (client bad.1))
         (elems (mem bad.2) (customLabelValues bad.1))).
Proof.
  cbn zeta. split; [| split].
  - destruct (boot_running in_order cl4 {["env" := "prod"]} in_order_fair)
      as [Hrun Hcl].
    destruct (Collect_returns_iff_accepted growslice in_order
                parseTimestamp growslice_fits in_order_fair _ _
                (withTaskID task "158d1c8083dd49d6b527399fd6414f5c") Hrun)
      as (Hiff & Hsound & _); [by rewrite Hcl |].
    apply Hiff, Hsound. vm_compute. reflexivity.
  - vm_compute. reflexivity.
  - destruct (boot_running in_order cl4 {["cluster" := "x"]} in_order_fair)
      as [Hrun Hcl].
    destruct (Collect_returns_iff_accepted growslice in_order
                parseTimestamp growslice_fits in_order_fair _ _
                (withTaskID task "158d1c8083dd49d6b527399fd6414f5c") Hrun)
      as (Hiff & _); [by rewrite Hcl |].
    intros Hok. apply Hiff in Hok as [x Hx].
    vm_compute in Hx. discriminate.
Defined.

Lemma number_of_metrics_witness :
  length (Collect growslice in_order parseTimestamp
            (boot in_order cl4 ∅).1 (boot in_order cl4 ∅).2).1
  = 26.
Proof.
  destruct (boot_running in_order cl4 ∅ in_order_fair) as [Hrun Hcl].
  set (c := (boot in_order cl4 ∅).1) in *.
  set (st := (boot in_order cl4 ∅).2) in *.
  rewrite (number_of_metrics growslice in_order parseTimestamp
             growslice_fits in_order_fair c st
             (withTaskID task "158d1c8083dd49d6b527399fd6414f5c")
             {["d1" := Some twoNics; "gone" := Some noCacheStats]}
             (Collect growslice in_order parseTimestamp c st).1
             (Collect growslice in_order parseTimestamp c st).2 Hrun);
    [| by rewrite Hcl | by rewrite Hcl
     | apply (bool_decide_unpack _); vm_compute; reflexivity
     | apply surjective_pairing].
  vm_compute. reflexivity.
Defined.

Lemma per_core_counters_witness :
  (fun m => (labelValues m, value m))
    <$> named "ecs_cpu_seconds_total"
          (Collect growslice in_order parseTimestamp
             (boot in_order cl1 {["env" := "prod"]}).1
             (boot in_order cl1 {["env" := "prod"]}).2).1
  = [(["web"; "158d1c8083dd49d6b527399fd6414f5c"; "prod"; "0"], 2%float);
     (["web"; "158d1c8083dd49d6b527399fd6414f5c"; "prod"; "1"], 0%float)].
Proof.
  destruct (boot_running in_order cl1 {["env" := "prod"]} in_order_fair)
    as [Hrun Hcl].
  set (c := (boot in_order cl1 {["env" := "prod"]}).1) in *.
  set (st := (boot in_order cl1 {["env" := "prod"]}).2) in *.
  destruct (per_core_counters growslice in_order parseTimestamp
              growslice_fits in_order_fair c st
              (withTaskID task "158d1c8083dd49d6b527399fd6414f5c")
              {["d1" := Some webStats]}
              (Collect growslice in_order parseTimestamp c st).1
              (Collect growslice in_order parseTimestamp c st).2 Hrun)
    as (H & _);
    [by rewrite Hcl | by rewrite Hcl
    | apply (bool_decide_unpack _); vm_compute; reflexivity
    | apply surjective_pairing |].
  rewrite H. vm_compute. reflexivity.
Defined.

Lemma memory_usage_and_limit_witness :
  let out := (Collect growslice in_order parseTimestamp
                (boot in_order cl2 ∅).1 (boot in_order cl2 ∅).2).1 in
  (fun m => (labelValues m, value m)) <$> named "ecs_memory_bytes" out
  = [(["sidecar"; "158d1c8083dd49d6b527399fd6414f5c"], 3145728%float);
     (["web"; "158d1c8083dd49d6b527399fd6414f5c"], 3145728%float)] ∧
  (fun m => (labelValues m, value m)) <$> named "ecs_memory_limit_bytes" out
  = [(["sidecar"; "158d1c8083dd49d6b527399fd6414f5c"], 8388608%float);
     (["web"; "158d1c8083dd49d6b527399fd6414f5c"], 8388608%float)].
Proof.
  cbn zeta.
  destruct (boot_running in_order cl2 ∅ in_order_fair) as [Hrun Hcl].
  set (c := (boot in_order cl2 ∅).1) in *.
  set (st := (boot in_order cl2 ∅).2) in *.
  destruct (memory_usage_and_limit growslice in_order parseTimestamp
              growslice_fits in_order_fair c st
              (withTaskID task "158d1c8083dd49d6b527399fd6414f5c")
              {["d0" := Some noCacheStats; "d1" := Some webStats]}
              (Collect growslice in_order parseTimestamp c st).1
              (Collect growslice in_order parseTimestamp c st).2 Hrun)
    as (H1 & H2 & _);
    [by rewrite Hcl | by rewrite Hcl
    | apply (bool_decide_unpack _); vm_compute; reflexivity
    | apply surjective_pairing |].
  rewrite H1, H2. vm_compute. split; reflexivity.
Defined.

Lemma network_counters_per_interface_witness :
  let c := (boot in_order cl4 ∅).1 in
  let st := (boot in_order cl4 ∅).2 in
  let md := withTaskID task "158d1c8083dd49d6b527399fd6414f5c" in
  let stats : TaskStats :=
    {["d1" := Some twoNics; "gone" := Some noCacheStats]} in
  let out := (Collect growslice in_order parseTimestamp c st).1 in
  Forall
    (fun '(name, var, field) =>
       named name out
       ≡ₚ flat_map
            (fun container =>
               from_option
                 (fun s =>
                    (fun p =>
                       {| desc := the (var (pkg st));
                          valueType := CounterValue;
                          value := field p.2;
                          labelValues :=
                            ([Name container; TaskID md]
                             ++ elems (mem st) (customLabelValues c))
                            ++ [p.1] |})
                      <$> map_to_list (Networks s))
                 [] (stats_for stats container))
            (Containers md) ∧
       fqName (the (var (pkg st))) = name)
    network_table.
Proof.
  cbn zeta.
  destruct (boot_running in_order cl4 ∅ in_order_fair) as [Hrun Hcl].
  apply (network_counters_per_interface growslice in_order
           parseTimestamp growslice_fits in_order_fair _ _ _ _ _
           (Collect growslice in_order parseTimestamp
              (boot in_order cl4 ∅).1 (boot in_order cl4 ∅).2).2 Hrun);
    [by rewrite Hcl | by rewrite Hcl
    | apply (bool_decide_unpack _); vm_compute; reflexivity
    | apply surjective_pairing].
Defined.

Lemma custom_labels_paired_witness :
  let customLabels : gmap string string :=
    {["env" := "prod"; "team" := "core"]} in
  let c := (boot reversed cl1 customLabels).1 in
  let st := (boot reversed cl1 customLabels).2 in
  ∃ custom,
    custom ≡ₚ map_to_list customLabels ∧
    Forall (fun m =>
              ∃ pre post,
                labelled m = pre ++ custom ++ post ∧
                (length pre = 11 ∨ length pre = 2) ∧ length post ≤ 1)
           (Collect growslice reversed parseTimestamp c st).1.
Proof.
  cbn zeta.
  set (c := (boot reversed cl1 {["env" := "prod"; "team" := "core"]}).1).
  set (st := (boot reversed cl1 {["env" := "prod"; "team" := "core"]}).2).
  apply (custom_labels_paired growslice reversed parseTimestamp
           growslice_fits reversed_fair cl1
           {["env" := "prod"; "team" := "core"]} initial [] c st st
           (Collect growslice reversed parseTimestamp c st).1
           (Collect growslice reversed parseTimestamp c st).2).
  - vm_compute. reflexivity.
  - apply scrapes_none.
  - apply surjective_pairing.
Defined.

Lemma Describe_leaves_out_task_metrics_witness :
  let c := (boot in_order cl1 ∅).1 in
  let st := (boot in_order cl1 ∅).2 in
  let md := withTaskID task "158d1c8083dd49d6b527399fd6414f5c" in
  let task := task_metrics (pkg st) md (elems (mem st) (customLabelValues c)) in
  let out := (Collect growslice in_order parseTimestamp c st).1 in
  Forall (fun m => Some (desc m) ∉ Describe c st) task ∧
  Forall (fun m => m ∈ task ∨ Some (desc m) ∈ Describe c st) out ∧
  take 3 out = task ∧
  Forall (fun m => Some (desc m) ∈ Describe c st) (drop 3 out) ∧
  length (drop 3 out) = 15.
Proof.
  cbn zeta.
  destruct (boot_running in_order cl1 ∅ in_order_fair) as [Hrun Hcl].
  destruct (Describe_leaves_out_task_metrics growslice in_order
              parseTimestamp growslice_fits in_order_fair _ _
              (withTaskID task "158d1c8083dd49d6b527399fd6414f5c")
              (Collect growslice in_order parseTimestamp
                 (boot in_order cl1 ∅).1 (boot in_order cl1 ∅).2).1
              (Collect growslice in_order parseTimestamp
                 (boot in_order cl1 ∅).1 (boot in_order cl1 ∅).2).2 Hrun)
    as (_ & H1 & H2 & H3);
    [by rewrite Hcl | apply surjective_pairing |].
  destruct H3 as [H3 H4]; [vm_compute; by eexists |].
  split_and!; [exact H1 | exact H2 | exact H3 | exact H4 |].
  vm_compute. reflexivity.
Defined.

Lemma interface_label_name_witness :
  ∃ c st,
    NewCollector growslice in_order cl1 {["env" := "prod"]} initial
    = ([], Some (c, st)) ∧
    Forall (fun '(name, var, field) =>
              last (variableLabels (the (var (pkg st))))
              = Some (if spare growslice (size ({["env" := "prod"]}
                                                   : gmap string string))
                      then "cpu" else "device"))
           network_table ∧
    last (variableLabels (the (cpuTotalDesc (pkg st)))) = Some "cpu" ∧
    (({["env" := "prod"]} : gmap string string) = ∅ →
     spare growslice (size ({["env" := "prod"]} : gmap string string))
     = false).
Proof.
  apply (interface_label_name growslice in_order growslice_fits
           in_order_fair).
Defined.

Lemma metrics_of_metadata_containers_witness :
  let c := (boot in_order cl4 ∅).1 in
  let st := (boot in_order cl4 ∅).2 in
  let md := withTaskID task "158d1c8083dd49d6b527399fd6414f5c" in
  let stats : TaskStats :=
    {["d1" := Some twoNics; "gone" := Some noCacheStats]} in
  let out := (Collect growslice in_order parseTimestamp c st).1 in
  stats !! "gone" = Some (Some noCacheStats) ∧
  Forall (fun m =>
            m ∈ task_metrics (pkg st) md
                  (elems (mem st) (customLabelValues c)) ∨
            ∃ container s,
              container ∈ Containers md ∧
              stats !! DockerID container = Some (Some s) ∧
              m ∈ container_metrics parseTimestamp (pkg st)
                    ([Name container; TaskID md]
                     ++ elems (mem st) (customLabelValues c)) s)
         out ∧
  (Collect growslice in_order parseTimestamp
     {| client := serving task {["d1" := Some twoNics]};
        customLabelValues := customLabelValues c |} st).1
  = out.
Proof.
  cbn zeta. split; [reflexivity |].
  destruct (boot_running in_order cl4 ∅ in_order_fair) as [Hrun Hcl].
  destruct (metrics_of_metadata_containers growslice in_order
              parseTimestamp growslice_fits in_order_fair _ _
              (withTaskID task "158d1c8083dd49d6b527399fd6414f5c")
              {["d1" := Some twoNics; "gone" := Some noCacheStats]}
              (Collect growslice in_order parseTimestamp
                 (boot in_order cl4 ∅).1 (boot in_order cl4 ∅).2).1
              (Collect growslice in_order parseTimestamp
                 (boot in_order cl4 ∅).1 (boot in_order cl4 ∅).2).2 Hrun)
    as [H1 H2];
    [by rewrite Hcl | by rewrite Hcl | apply surjective_pairing |].
  split; [exact H1 |].
  rewrite (H2 (serving task {["d1" := Some twoNics]})
              {["d1" := Some twoNics]}); [done | done | done |].
  intros container Hin.
  apply list_elem_of_In in Hin.
  destruct Hin as [<- | [<- | []]]; reflexivity.
Defined.

Lemma command_line_labels_on_every_metric_witness :
  let l := [("env", "prod"); ("query", "a=b")] in
  let c := (boot reversed cl1 (custom_labels ∅ (flag_text l)).1).1 in
  let st := (boot reversed cl1 (custom_labels ∅ (flag_text l)).1).2 in
  ∃ custom,
    custom ≡ₚ l ∧
    Forall (fun m =>
              ∃ pre post,
                labelled m = pre ++ custom ++ post ∧
                (length pre = 11 ∨ length pre = 2) ∧ length post ≤ 1)
           (Collect growslice reversed parseTimestamp c st).1.
Proof.
  cbn zeta.
  set (l := [("env", "prod"); ("query", "a=b")]).
  set (c := (boot reversed cl1 (custom_labels ∅ (flag_text l)).1).1).
  set (st := (boot reversed cl1 (custom_labels ∅ (flag_text l)).1).2).
  apply (command_line_labels_on_every_metric growslice reversed
           parseTimestamp growslice_fits reversed_fair l cl1 initial
           [] c st st
           (Collect growslice reversed parseTimestamp c st).1
           (Collect growslice reversed parseTimestamp c st).2).
  - repeat constructor.
  - apply (bool_decide_unpack _). vm_compute. reflexivity.
  - vm_compute. reflexivity.
  - apply scrapes_none.
  - apply surjective_pairing.
Defined.

Lemma scrapes_repeat_witness :
  let c := (boot in_order cl4 ∅).1 in
  let st := (boot in_order cl4 ∅).2 in
  ∃ out st',
    Collect growslice in_order parseTimestamp c st
    = (out, Some (tt, st')) ∧
    (Collect growslice in_order parseTimestamp c st').1 ≡ₚ out.
Proof.
  cbn zeta.
  destruct (boot_running in_order cl4 ∅ in_order_fair) as [Hrun Hcl].
  set (c := (boot in_order cl4 ∅).1) in *.
  set (st := (boot in_order cl4 ∅).2) in *.
  destruct (Collect growslice in_order parseTimestamp c st)
    as [out r] eqn:Hc.
  destruct (Collect_blocks growslice in_order parseTimestamp
              growslice_fits in_order_fair c st
              (withTaskID task "158d1c8083dd49d6b527399fd6414f5c")
              {["d1" := Some twoNics; "gone" := Some noCacheStats]}
              out r Hrun)
    as (_ & _ & [[[] st'] ->] & _);
    [by rewrite Hcl | by rewrite Hcl
    | apply (bool_decide_unpack _); vm_compute; reflexivity | done |].
  exists out, st'. split; [done |].
  apply (scrapes_repeat growslice in_order parseTimestamp
           growslice_fits in_order_fair c st out st' _
           (Collect growslice in_order parseTimestamp c st').2 Hrun Hc).
  apply surjective_pairing.
Defined.

Lemma task_id_label_of_every_metric_witness :
  Forall (fun m => ("task_id", "158d1c8083dd49d6b527399fd6414f5c")
                   ∈ labelled m)
    (Collect growslice in_order parseTimestamp
       (boot in_order cl4 {["env" := "prod"]}).1
       (boot in_order cl4 {["env" := "prod"]}).2).1.
Proof.
  destruct (boot_running in_order cl4 {["env" := "prod"]} in_order_fair)
    as [Hrun Hcl].
  set (c := (boot in_order cl4 {["env" := "prod"]}).1) in *.
  set (st := (boot in_order cl4 {["env" := "prod"]}).2) in *.
  destruct (task_id_label_of_every_metric growslice in_order
              parseTimestamp growslice_fits in_order_fair c st
              (Collect growslice in_order parseTimestamp c st).1
              (Collect growslice in_order parseTimestamp c st).2 Hrun)
    as (id & Hid & Hall); [apply surjective_pairing |].
  rewrite Hcl in Hid. vm_compute in Hid. injection Hid as <-.
  exact Hall.
Defined.

Lemma second_collector_takes_over_witness :
  let first := boot in_order cl1 {["env" := "prod"]} in
  let second (labels2 : gmap string string) :=
    match NewCollector growslice in_order cl2 labels2 first.2 with
    | (_, Some r) => r
    | (_, None) => first
    end in
  Collect growslice in_order parseTimestamp first.1
    (second {["team" := "core"; "tier" := "web"]}).2
  = ([], None) ∧
  ∃ custom1 custom2,
    custom1 ≡ₚ map_to_list ({["env" := "prod"]} : gmap string string) ∧
    custom2 ≡ₚ map_to_list ({["team" := "core"]} : gmap string string) ∧
    ∀ out r,
      Collect growslice in_order parseTimestamp first.1
        (second {["team" := "core"]}).2 = (out, r) →
      is_Some r ∧
      Forall (fun m =>
                ∃ pre post,
                  labelled m = pre ++ zip custom2.*1 custom1.*2 ++ post ∧
                  (length pre = 11 ∨ length pre = 2) ∧ length post ≤ 1)
             out.
Proof.
  cbn zeta.
  set (first := boot in_order cl1 {["env" := "prod"]}).
  set (second := fun labels2 : gmap string string =>
    match NewCollector growslice in_order cl2 labels2 first.2 with
    | (_, Some r) => r
    | (_, None) => first
    end).
  assert (NewCollector growslice in_order cl1 {["env" := "prod"]} initial
          = ([], Some (first.1, first.2))) as Hnew1
    by (vm_compute; reflexivity).
  assert (∀ labels2,
            NewCollector growslice in_order cl2 labels2 first.2
            = ([], Some ((second labels2).1, (second labels2).2))) as Hnew2.
  { intros labels2. unfold second.
    destruct (CollectorFacts.NewCollector_ready growslice in_order
                growslice_fits cl2 labels2 first.2)
      as (o & c & st & -> & -> & _).
    reflexivity. }
  split.
  - apply (proj1 (proj2 (proj2
             (second_collector_takes_over growslice in_order
                parseTimestamp growslice_fits in_order_fair
                _ _ _ _ _ _ _ _ _ _ _
                (withTaskID task "158d1c8083dd49d6b527399fd6414f5c")
                Hnew1 (Hnew2 {["team" := "core"; "tier" := "web"]})
                eq_refl)))).
    vm_compute. discriminate.
  - destruct (proj2 (proj2 (proj2
             (second_collector_takes_over growslice in_order
                parseTimestamp growslice_fits in_order_fair
                _ _ _ _ _ _ _ _ _ _ _
                (withTaskID task "158d1c8083dd49d6b527399fd6414f5c")
                Hnew1 (Hnew2 {["team" := "core"]}) eq_refl))))
      as (custom1 & custom2 & H1 & H2 & H);
      [vm_compute; reflexivity |].
    exists custom1, custom2. split; [exact H1 |]. split; [exact H2 |].
    intros out r Hc. destruct (H out r Hc) as [Hr Hall].
    split; [| exact Hall]. apply Hr.
    apply (bool_decide_unpack _). vm_compute. reflexivity.
Defined.

End CollectorLaws.

